(** * docs/generate_from_yml.py: a shallow embedding and its properties

    The script turns yml page specifications and doxygen's xml output
    into rst pages.  Python's [str] is modelled by [string]; a character
    is one of the code points U+0000 to U+00FF, and the character
    classes below are the ones CPython uses for them ([str.isspace],
    [str.isalnum], [str.lower], and the [\s], [\w], [\W] classes of [re]
    on [str] patterns).  What a [str] with other code points can do to
    [filename_from_cppname] is in [Wide]. *)

From Stdlib Require Import String Ascii NArith ZArith List Bool Lia.
From stdpp Require Import base option list gmap strings.

Local Open Scope Z_scope.

(** ** Characters *)

Module Char.

Definition code (c : ascii) : N := N_of_ascii c.

Definition between (lo hi : N) (c : ascii) : bool :=
  ((lo <=? code c) && (code c <=? hi))%N.

(** [str.isspace] on one character, which is also [\s]. *)
Definition isspace (c : ascii) : bool :=
  between 9 13 c || between 28 32 c
  || (code c =? 133)%N || (code c =? 160)%N.

Definition isupper (c : ascii) : bool :=
  between 65 90 c || between 192 214 c || between 216 222 c.

Definition islower (c : ascii) : bool :=
  between 97 122 c || (code c =? 170)%N || (code c =? 181)%N
  || (code c =? 186)%N || between 223 246 c || between 248 255 c.

Definition isdigit (c : ascii) : bool :=
  between 48 57 c || between 178 179 c || (code c =? 185)%N
  || between 188 190 c.

Definition isalnum (c : ascii) : bool := isupper c || islower c || isdigit c.

(** [\w]: alphanumeric or the underscore. *)
Definition isword (c : ascii) : bool := isalnum c || (code c =? 95)%N.

(** [str.lower] on one character of U+0000 to U+00FF: each of them
    has a lower-case form of one character, in the same range.  Beyond
    them that is not so; see [Wide.lower_char]. *)
Definition lower (c : ascii) : ascii :=
  if isupper c then ascii_of_N (code c + 32) else c.

(** A character of a file name: a word character that [lower] leaves
    as it is. *)
Definition plain (c : ascii) : bool := isword c && negb (isupper c).

End Char.

(** ** Strings: the [str] methods and slices the script uses *)

Module Str.

Fixpoint map (f : ascii -> ascii) (s : string) : string :=
  match s with
  | EmptyString => EmptyString
  | String c s' => String (f c) (map f s')
  end.

Definition lower (s : string) : string := map Char.lower s.

Fixpoint rev_onto (s acc : string) : string :=
  match s with
  | EmptyString => acc
  | String c s' => rev_onto s' (String c acc)
  end.

Definition rev (s : string) : string := rev_onto s EmptyString.

Fixpoint lstrip (s : string) : string :=
  match s with
  | EmptyString => EmptyString
  | String c s' => if Char.isspace c then lstrip s' else s
  end.

Definition rstrip (s : string) : string := rev (lstrip (rev s)).

(** [s.strip()] *)
Definition strip (s : string) : string := rstrip (lstrip s).

(** [s.startswith(p)] *)
Fixpoint startswith (p s : string) : bool :=
  match p, s with
  | EmptyString, _ => true
  | String a p', String b s' => if Ascii.eqb a b then startswith p' s' else false
  | String _ _, EmptyString => false
  end.

Fixpoint drop (n : nat) (s : string) : string :=
  match n, s with
  | O, _ => s
  | S n', String _ s' => drop n' s'
  | S _, EmptyString => EmptyString
  end.

Fixpoint take (n : nat) (s : string) : string :=
  match n, s with
  | O, _ => EmptyString
  | S n', String c s' => String c (take n' s')
  | S _, EmptyString => EmptyString
  end.

(** [s.endswith(p)] *)
Definition endswith (p s : string) : bool :=
  startswith (rev p) (rev s).

(** Index of the first occurrence of [p] in [s], counted from [i]. *)
Fixpoint find_from (p s : string) (i : Z) : Z :=
  match s with
  | EmptyString => if startswith p EmptyString then i else -1
  | String _ s' => if startswith p s then i else find_from p s' (i + 1)
  end.

(** [s.find(p)] *)
Definition find (p s : string) : Z := find_from p s 0.

(** Index of the last occurrence of [p] in [s], counted from [i];
    [best] is the last one seen so far. *)
Fixpoint rfind_from (p s : string) (i best : Z) : Z :=
  match s with
  | EmptyString => if startswith p EmptyString then i else best
  | String _ s' =>
      rfind_from p s' (i + 1) (if startswith p s then i else best)
  end.

(** [s.rfind(p)] *)
Definition rfind (p s : string) : Z := rfind_from p s 0 (-1).

Definition len (s : string) : Z := Z.of_nat (String.length s).

(** A slice bound as Python clamps it: a negative bound counts from the
    end, and the result is cut to [0, len s]. *)
Definition clamp (s : string) (i : Z) : nat :=
  let i' := if i <? 0 then i + len s else i in
  Z.to_nat (Z.max 0 (Z.min i' (len s))).

(** [s[i:j]] *)
Definition slice (s : string) (i j : Z) : string :=
  let a := clamp s i in
  let b := clamp s j in
  take (b - a) (drop a s).

(** [s[i:]] *)
Definition slice_from (s : string) (i : Z) : string := drop (clamp s i) s.

(** [s[:j]] *)
Definition slice_to (s : string) (j : Z) : string := take (clamp s j) s.

(** [s.rfind(p, 0, j)]: the last occurrence lying inside [s[0:j]]. *)
Definition rfind_in (p s : string) (j : Z) : Z := rfind p (slice_to s j).

(** Does [p] occur in [s]: [p in s]. *)
Definition contains (p s : string) : bool := negb (find p s =? -1).

(** [s.split(sep)] for a non-empty [sep]; [cur] is the piece being
    read, last character first. *)
Fixpoint split_go (sep : string) (skip : nat) (cur s : string)
  : list string :=
  match s with
  | EmptyString => [rev cur]
  | String c s' =>
      match skip with
      | S k => split_go sep k cur s'
      | O =>
          if startswith sep s
          then rev cur :: split_go sep (String.length sep - 1) EmptyString s'
          else split_go sep 0 (String c cur) s'
      end
  end.

Definition split (sep s : string) : list string :=
  split_go sep 0 EmptyString s.

(** [sep.join(l)] *)
Fixpoint join (sep : string) (l : list string) : string :=
  match l with
  | [] => EmptyString
  | [x] => x
  | x :: l' => x +:+ sep +:+ join sep l'
  end.

(** [" " * n] *)
Fixpoint blanks (n : nat) : string :=
  match n with
  | O => EmptyString
  | S k => String " " (blanks k)
  end.

(** Does the character [a] occur in [s]. *)
Fixpoint occurs (a : ascii) (s : string) : bool :=
  match s with
  | EmptyString => false
  | String c s' => Ascii.eqb a c || occurs a s'
  end.


(** Do all the characters of [s] satisfy [Q]. *)
Fixpoint all (Q : ascii -> bool) (s : string) : bool :=
  match s with
  | EmptyString => true
  | String c s' => Q c && all Q s'
  end.

End Str.

(** ** Regular expressions: [re.sub] for the patterns of the script

    A pattern is given by its matcher: [m s] is the length of the match
    that starts at the head of [s], when there is one.  [sub] replaces
    the matches from left to right, without overlap, as [re.sub] does.
    None of the patterns below matches the empty string; the zero-width
    patterns (a lookbehind followed by a lookahead) are [insert_space]. *)

Module Re.

Definition matcher := string -> option nat.

Fixpoint sub_go (m : matcher) (rep : string) (skip : nat) (s : string)
  : string :=
  match s with
  | EmptyString => EmptyString
  | String c s' =>
      match skip with
      | S k => sub_go m rep k s'
      | O =>
          match m s with
          | Some (S k) => rep +:+ sub_go m rep k s'
          | _ => String c (sub_go m rep 0 s')
          end
      end
  end.

(** [re.sub(pattern, rep, s)] *)
Definition sub (m : matcher) (rep : string) (s : string) : string :=
  sub_go m rep 0 s.

(** Length of the longest prefix of white space: a greedy [\s*]. *)
Fixpoint spaces (s : string) : nat :=
  match s with
  | String c s' => if Char.isspace c then S (spaces s') else O
  | EmptyString => O
  end.

(** A literal pattern. *)
Definition lit (p : string) : matcher :=
  fun s => if Str.startswith p s then Some (String.length p) else None.

(** [operator\s*\*] *)
Definition operator_star : matcher :=
  fun s =>
    if Str.startswith "operator" s then
      let r := Str.drop 8 s in
      let k := spaces r in
      match Str.drop k r with
      | String "*" _ => Some (8 + k + 1)%nat
      | _ => None
      end
    else None.

(** [$]: at the end of the string, or before its final newline. *)
Definition at_end (s : string) : bool :=
  match s with
  | EmptyString => true
  | String c EmptyString => Ascii.eqb c "010"
  | String _ (String _ _) => false
  end.

(** [operator<$] *)
Definition operator_less_end : matcher :=
  fun s =>
    if Str.startswith "operator<" s && at_end (Str.drop 9 s)
    then Some 9%nat else None.

(** [[\W]] *)
Definition nonword : matcher :=
  fun s =>
    match s with
    | String c _ => if Char.isword c then None else Some 1%nat
    | EmptyString => None
    end.

(** [\s{2,}] *)
Definition spaces2 : matcher :=
  fun s => let k := spaces s in if (2 <=? k)%nat then Some k else None.

(** [\s*,\s*] *)
Definition comma : matcher :=
  fun s =>
    let k := spaces s in
    match Str.drop k s with
    | String "," r => Some (k + 1 + spaces r)%nat
    | _ => None
    end.

(** [\& \) >$] *)
Definition amp_paren_gt_end : matcher :=
  fun s =>
    if Str.startswith "& ) >" s && at_end (Str.drop 5 s)
    then Some 5%nat else None.

(** [re.sub("(?<=B)(?=A)", " ", s)] for one-character classes [B] and
    [A]: a space goes between every two neighbours [b], [a] with [B b]
    and [A a]. *)
Fixpoint insert_space (B A : ascii -> bool) (s : string) : string :=
  match s with
  | EmptyString => EmptyString
  | String b s' =>
      String b
        match s' with
        | String a _ =>
            if B b && A a then String " " (insert_space B A s')
            else insert_space B A s'
        | EmptyString => EmptyString
        end
  end.

End Re.

(** ** Filename functions *)

(** [filename_from_cppname] *)
Definition filename_from_cppname (name : string) : string :=
  let name := Re.sub Re.operator_star "operator_star" name in
  let name := Re.sub (Re.lit "operator!=") "operator_not_eq" name in
  let name := Re.sub (Re.lit "operator()") "call_operator" name in
  let name := Re.sub Re.operator_less_end "operator_less" name in
  let name := Re.sub (Re.lit "operator<<") "insertion_operator" name in
  let name := Re.sub (Re.lit "operator==") "operator_equal_to" name in
  let name := Re.sub (Re.lit "operator>") "operator_greater" name in
  let name := Re.sub Re.nonword "_" name in
  Str.lower name.

(** [os.path.join(a, b)] for a relative [b] and a non-empty [a] that
    does not end in a slash, which is how the script calls it. *)
Definition path_join (a b : string) : string := a +:+ "/" +:+ b.

Definition generated_dir : string := "source/_generated".

(** [overview_filename] *)
Definition overview_filename (name : string) : string :=
  path_join generated_dir (filename_from_cppname name +:+ ".rst").

(** [subpage_filename] *)
Definition subpage_filename (class_ name : string) : string :=
  path_join generated_dir
    (filename_from_cppname (class_ +:+ "::" +:+ name) +:+ ".rst").

(** ** yml manipulation *)

Definition is_lt (c : ascii) : bool := Ascii.eqb c "<".
Definition is_gt (c : ascii) : bool := Ascii.eqb c ">".
Definition is_amp (c : ascii) : bool := Ascii.eqb c "&".
Definition nonspace (c : ascii) : bool := negb (Char.isspace c).
Definition nonspace_nonamp (c : ascii) : bool :=
  negb (Char.isspace c) && negb (is_amp c).

(** The six substitutions of [doxy_normalize_yml_params], before the
    patch for a final [& ) >]. *)
Definition normalize_spacing (params : string) : string :=
  let params := Str.strip params in
  let params := Re.sub Re.spaces2 " " params in
  let params := Re.insert_space is_lt nonspace params in
  let params := Re.insert_space nonspace is_gt params in
  let params := Re.insert_space nonspace_nonamp is_amp params in
  let params := Re.insert_space is_amp nonspace_nonamp params in
  Re.sub Re.comma "," params.

(** [doxy_normalize_yml_params] *)
Definition doxy_normalize_yml_params (params : string) : string :=
  let params := normalize_spacing params in
  if Str.endswith "& ) >" params
  then Re.sub Re.amp_paren_gt_end "&)>" params
  else params.

(** [extract_yml_func_signature]; [None] is Python's [None]. *)
Definition extract_yml_func_signature (yml_entry : string)
  : string * option string :=
  let yml_entry := Str.strip yml_entry in
  let lpos := Str.find "(" yml_entry in
  if lpos =? -1 then (yml_entry, None)
  else
    let rpos := Str.rfind ")" yml_entry in
    let params :=
      "(" +:+ doxy_normalize_yml_params (Str.slice yml_entry (lpos + 1) rpos)
          +:+ Str.slice_from yml_entry rpos in
    if Str.startswith "template" yml_entry
    then (Str.slice yml_entry (Str.rfind_in " " yml_entry lpos + 1) lpos,
          Some params)
    else (Str.slice_to yml_entry lpos, Some params).

(** ** Spacing of a parameter list: what the normalization arrives at *)

Module Spacing.

(** A space goes between every two neighbours [b], [a] with [R b a]. *)
Fixpoint insert_where (R : ascii -> ascii -> bool) (s : string) : string :=
  match s with
  | EmptyString => EmptyString
  | String b s' =>
      String b
        match s' with
        | String a _ =>
            if R b a then String " " (insert_where R s')
            else insert_where R s'
        | EmptyString => EmptyString
        end
  end.

(** The neighbours between which one of the four insertions of
    [doxy_normalize_yml_params] puts a space. *)
Definition need (b a : ascii) : bool :=
  (is_lt b && nonspace a) || (nonspace b && is_gt a)
  || (nonspace_nonamp b && is_amp a) || (is_amp b && nonspace_nonamp a).

Definition is_comma (c : ascii) : bool := Ascii.eqb c ",".

(** Do all the neighbours [b], [a] in [s] satisfy [Q b a]. *)
Fixpoint pairs (Q : ascii -> ascii -> bool) (s : string) : bool :=
  match s with
  | EmptyString => true
  | String b s' =>
      match s' with
      | String a _ => Q b a && pairs Q s'
      | EmptyString => true
      end
  end.

(** No white space at the start, and none at the end. *)
Definition starts_ns (s : string) : bool :=
  match s with
  | String c _ => nonspace c
  | EmptyString => true
  end.

Fixpoint ends_ns (s : string) : bool :=
  match s with
  | EmptyString => true
  | String c s' =>
      match s' with
      | EmptyString => nonspace c
      | String _ _ => ends_ns s'
      end
  end.

(** Not two white spaces in a row. *)
Definition apart (b a : ascii) : bool :=
  negb (Char.isspace b && Char.isspace a).

(** Neighbours after the insertions: apart, and with a space wherever
    one is needed. *)
Definition spaced (b a : ascii) : bool := apart b a && negb (need b a).

(** Neighbours in a normalized list: apart, no white space next to a
    comma, and no space missing except next to a comma. *)
Definition settled (b a : ascii) : bool :=
  apart b a
  && negb (Char.isspace b && is_comma a)
  && negb (is_comma b && Char.isspace a)
  && (negb (need b a) || is_comma b || is_comma a).

Definition starts_comma (s : string) : bool :=
  match s with
  | String c _ => is_comma c
  | EmptyString => false
  end.

(** The second step of [doxy_normalize_yml_params], and its last. *)
Definition collapse (s : string) : string := Re.sub Re.spaces2 " " s.
Definition tighten (s : string) : string := Re.sub Re.comma "," s.

(** The strings that [normalize_spacing] arrives at, and leaves as
    they are. *)
Definition normal (y : string) : Prop :=
  starts_ns y = true /\ ends_ns y = true /\ pairs settled y = true.

End Spacing.

(** ** Strings beyond U+00FF

    [filename_from_cppname] once more, on a [str] given by its code
    points, to see what [string] leaves out.  The rows of the Unicode
    database held here are those of U+0000 to U+00FF, that of U+0130
    (LATIN CAPITAL LETTER I WITH DOT ABOVE) and that of U+0307
    (COMBINING DOT ABOVE); a string with any other code point is
    outside, and the function below gives [None] for it. *)

Module Wide.

Definition ustring := list N.

(** The code points of a [string]. *)
Fixpoint codes (s : string) : ustring :=
  match s with
  | EmptyString => []
  | String c s' => Char.code c :: codes s'
  end.

Definition latin1 (c : N) : bool := (c <? 256)%N.

(** The code points whose rows are held. *)
Definition known (c : N) : bool :=
  latin1 c || (c =? 304)%N || (c =? 775)%N.

(** [str.isspace] on one character, which is also [\s]: neither
    U+0130 nor U+0307 is white space. *)
Definition isspace (c : N) : bool :=
  latin1 c && Char.isspace (ascii_of_N c).

(** [\w]: U+0130 is a letter, U+0307 is a combining mark and so no
    word character. *)
Definition isword (c : N) : bool :=
  if latin1 c then Char.isword (ascii_of_N c) else (c =? 304)%N.

(** [str.lower] on one character: the lower-case form of U+0130 is the
    two characters U+0069 U+0307. *)
Definition lower_char (c : N) : ustring :=
  if latin1 c then [Char.code (Char.lower (ascii_of_N c))]
  else if (c =? 304)%N then [105; 775]%N
  else [c].

(** [s.lower()] *)
Definition lower (s : ustring) : ustring := flat_map lower_char s.

(** [s.startswith(p)] *)
Fixpoint startswith (p s : ustring) : bool :=
  match p, s with
  | [], _ => true
  | a :: p', b :: s' => if (a =? b)%N then startswith p' s' else false
  | _ :: _, [] => false
  end.

Definition matcher := ustring -> option nat.

Fixpoint sub_go (m : matcher) (rep : ustring) (skip : nat) (s : ustring)
  : ustring :=
  match s with
  | [] => []
  | c :: s' =>
      match skip with
      | S k => sub_go m rep k s'
      | O =>
          match m s with
          | Some (S k) => rep ++ sub_go m rep k s'
          | _ => c :: sub_go m rep 0 s'
          end
      end
  end.

(** [re.sub(pattern, rep, s)] *)
Definition sub (m : matcher) (rep : ustring) (s : ustring) : ustring :=
  sub_go m rep 0 s.

(** Length of the longest prefix of white space: a greedy [\s*]. *)
Fixpoint spaces (s : ustring) : nat :=
  match s with
  | c :: s' => if isspace c then S (spaces s') else O
  | [] => O
  end.

(** A literal pattern. *)
Definition lit (p : string) : matcher :=
  fun s => if startswith (codes p) s then Some (String.length p) else None.

(** [operator\s*\*] *)
Definition operator_star : matcher :=
  fun s =>
    if startswith (codes "operator") s then
      let r := drop 8 s in
      let k := spaces r in
      match drop k r with
      | c :: _ => if (c =? 42)%N then Some (8 + k + 1)%nat else None
      | [] => None
      end
    else None.

(** [$]: at the end of the string, or before its final newline. *)
Definition at_end (s : ustring) : bool :=
  match s with
  | [] => true
  | [c] => (c =? 10)%N
  | _ :: _ :: _ => false
  end.

(** [operator<$] *)
Definition operator_less_end : matcher :=
  fun s =>
    if startswith (codes "operator<") s && at_end (drop 9 s)
    then Some 9%nat else None.

(** [[\W]] *)
Definition nonword : matcher :=
  fun s =>
    match s with
    | c :: _ => if isword c then None else Some 1%nat
    | [] => None
    end.

(** [filename_from_cppname] *)
Definition filename_from_cppname (name : ustring) : option ustring :=
  if forallb known name then
    let name := sub operator_star (codes "operator_star") name in
    let name := sub (lit "operator!=") (codes "operator_not_eq") name in
    let name := sub (lit "operator()") (codes "call_operator") name in
    let name := sub operator_less_end (codes "operator_less") name in
    let name := sub (lit "operator<<") (codes "insertion_operator") name in
    let name := sub (lit "operator==") (codes "operator_equal_to") name in
    let name := sub (lit "operator>") (codes "operator_greater") name in
    let name := sub nonword (codes "_") name in
    Some (lower name)
  else None.

End Wide.

(** ** Exceptions and state

    A computation of the script reads and writes the state [S] (module
    globals, the disk) and either returns or raises; what it did to the
    state before raising stays done. *)

Inductive exn : Set :=
  | IsADirectoryError | FileNotFoundError | NotADirectoryError
  | FileExistsError | KeyError | StopIteration | AssertionError
  | AttributeError | ValueError | IndexError | TypeError | RecursionError.

Inductive outcome (A : Type) : Type :=
  | Ret (a : A)
  | Exc (e : exn).
Arguments Ret {A} a.
Arguments Exc {A} e.

Definition M (S A : Type) : Type := S -> outcome A * S.

Definition ret {S A} (a : A) : M S A := fun s => (Ret a, s).
Definition raise {S A} (e : exn) : M S A := fun s => (Exc e, s).
Definition bind {S A B} (m : M S A) (k : A -> M S B) : M S B :=
  fun s =>
    match m s with
    | (Ret a, s') => k a s'
    | (Exc e, s') => (Exc e, s')
    end.
Definition get {S} : M S S := fun s => (Ret s, s).
Definition modify {S} (f : S -> S) : M S unit := fun s => (Ret tt, f s).

Declare Scope py_scope.
Delimit Scope py_scope with py.
Notation "x <- m ;; k" := (bind m (fun x => k))
  (at level 100, m at next level, right associativity) : py_scope.
Notation "m ;;; k" := (bind m (fun _ => k))
  (at level 100, right associativity) : py_scope.

(** [for x in l: body x] *)
Fixpoint for_each {S A} (l : list A) (body : A -> M S unit) : M S unit :=
  match l with
  | [] => ret tt
  | x :: l' => (body x ;;; for_each l' body)%py
  end.

(** The line that [__warn] writes to [sys.stderr], with its colour
    codes. *)
Definition warning_line (fname msg : string) : string :=
  String "027" "[38;5;208mWARNING in " +:+ ("docs/" +:+ fname) +:+ ": "
  +:+ msg +:+ String "027" "[0m" +:+ String "010" "".

(** ** The disk and the counters *)

Module Files.

(** What a path names: a regular file with its bytes, or a directory. *)
Inductive node : Set :=
  | File (bytes : string)
  | Dir.

(** The module globals the output policy uses, with the disk and the
    two output streams. *)
Record state : Type := mkState {
  REWRITES_ATTEMPTED : Z;
  REWRITES_ACTUAL : Z;
  WARNINGS : Z;
  RST_FILES_WRITTEN : gmap string bool;
  disk : gmap string node;
  stdout : list string;
  stderr : list string
}.

(** The globals when the module is loaded. *)
Definition initial (d : gmap string node) : state :=
  mkState 0 0 0 ∅ d [] [].

Definition set_attempted (f : Z -> Z) (s : state) : state :=
  mkState (f (REWRITES_ATTEMPTED s)) (REWRITES_ACTUAL s) (WARNINGS s)
          (RST_FILES_WRITTEN s) (disk s) (stdout s) (stderr s).
Definition set_actual (f : Z -> Z) (s : state) : state :=
  mkState (REWRITES_ATTEMPTED s) (f (REWRITES_ACTUAL s)) (WARNINGS s)
          (RST_FILES_WRITTEN s) (disk s) (stdout s) (stderr s).
Definition set_warnings (f : Z -> Z) (s : state) : state :=
  mkState (REWRITES_ATTEMPTED s) (REWRITES_ACTUAL s) (f (WARNINGS s))
          (RST_FILES_WRITTEN s) (disk s) (stdout s) (stderr s).
Definition set_written (f : gmap string bool -> gmap string bool)
  (s : state) : state :=
  mkState (REWRITES_ATTEMPTED s) (REWRITES_ACTUAL s) (WARNINGS s)
          (f (RST_FILES_WRITTEN s)) (disk s) (stdout s) (stderr s).
Definition set_disk (f : gmap string node -> gmap string node)
  (s : state) : state :=
  mkState (REWRITES_ATTEMPTED s) (REWRITES_ACTUAL s) (WARNINGS s)
          (RST_FILES_WRITTEN s) (f (disk s)) (stdout s) (stderr s).
Definition print (line : string) (s : state) : state :=
  mkState (REWRITES_ATTEMPTED s) (REWRITES_ACTUAL s) (WARNINGS s)
          (RST_FILES_WRITTEN s) (disk s) (stdout s ++ [line]) (stderr s).
Definition eprint (line : string) (s : state) : state :=
  mkState (REWRITES_ATTEMPTED s) (REWRITES_ACTUAL s) (WARNINGS s)
          (RST_FILES_WRITTEN s) (disk s) (stdout s) (stderr s ++ [line]).

(** Reading in text mode: [open(fname, "r")] has universal newlines, so
    [f.read()] gives a line feed for each CR LF and for each lone CR. *)
Fixpoint read_text (bytes : string) : string :=
  match bytes with
  | EmptyString => EmptyString
  | String "013" rest =>
      String "010"
        match rest with
        | String "010" rest' => read_text rest'
        | _ => read_text rest
        end
  | String c rest => String c (read_text rest)
  end.

(** Writing in text mode on a POSIX system: a line feed is written as
    [os.linesep], which is a line feed; nothing else is changed. *)
Definition write_text (contents : string) : string := contents.

(** [os.path.exists(fname) and os.path.isfile(fname)] *)
Definition is_file (d : gmap string node) (fname : string) : bool :=
  match d !! fname with
  | Some (File _) => true
  | _ => false
  end.

(** [open(fname, "r").read()] *)
Definition read_file (fname : string) : M state string :=
  fun s =>
    match disk s !! fname with
    | Some (File b) => (Ret (read_text b), s)
    | Some Dir => (Exc IsADirectoryError, s)
    | None => (Exc FileNotFoundError, s)
    end.

(** *** Paths

    The disk maps the paths of what exists to what they name.  Paths
    are relative to the directory the script runs in ([docs]) and are
    taken as they are written; they stand for what the system resolves
    them to when they are in normal form, as are all the paths the
    script forms.  There are no symbolic links and no permissions. *)

(** A relative path in normal form: components separated by single
    slashes, none of them empty, [.] or [..], and no NUL character. *)
Definition normal (path : string) : bool :=
  forallb (fun c => negb (String.eqb c "") && negb (String.eqb c ".")
                    && negb (String.eqb c "..")
                    && negb (Str.occurs "000" c))
          (Str.split "/" path).

(** The directories on the way to [path]: what stands before each of
    its slashes, the outermost first. *)
Fixpoint parents (path : string) : list string :=
  match path with
  | EmptyString => []
  | String c rest =>
      let below := List.map (String c) (parents rest) in
      if Ascii.eqb c "/" then EmptyString :: below else below
  end.

(** What stops the system on its way through the directories [dirs]:
    one that is missing ([ENOENT]) or that is no directory
    ([ENOTDIR]). *)
Fixpoint blocked (d : gmap string node) (dirs : list string) : option exn :=
  match dirs with
  | [] => None
  | a :: rest =>
      match d !! a with
      | Some Dir => blocked d rest
      | Some (File _) => Some NotADirectoryError
      | None => Some FileNotFoundError
      end
  end.

(** The error of a call that has to reach the directory of [path]; the
    empty path names nothing. *)
Definition no_way (d : gmap string node) (path : string) : option exn :=
  if String.eqb path "" then Some FileNotFoundError
  else blocked d (parents path).

(** [open(fname, "w")]: the file is created, or cut to length zero,
    when its directory can be reached and [fname] is no directory. *)
Definition open_w (fname : string) : M state unit :=
  fun s =>
    match no_way (disk s) fname with
    | Some e => (Exc e, s)
    | None =>
        match disk s !! fname with
        | Some Dir => (Exc IsADirectoryError, s)
        | _ => (Ret tt, set_disk <[fname := File ""]> s)
        end
    end.

(** [f.write(contents)] on a file just opened with ["w"], then close. *)
Definition write_all (fname contents : string) : M state unit :=
  modify (set_disk <[fname := File (write_text contents)]>).

(** [__info(msg)] and [__info(msg, fname)] *)
Definition info (msg : string) (fname : option string) : M state unit :=
  match fname with
  | Some f => modify (print (f +:+ ": " +:+ msg +:+ "
"))
  | None => modify (print (msg +:+ "
"))
  end.

(** [__warn] *)
Definition warn (fname msg : string) : M state unit :=
  (modify (set_warnings (Z.add 1)) ;;;
   modify (eprint (warning_line fname msg)))%py.

(** [__write_file_if_changed] *)
Definition write_file_if_changed (fname contents : string) : M state unit :=
  (modify (set_attempted (Z.add 1)) ;;;
   modify (set_written <[fname := true]>) ;;;
   s <- get ;;
   same <- (if is_file (disk s) fname
            then (file_contents <- read_file fname ;;
                  ret (String.eqb file_contents contents))
            else ret false) ;;
   if same : bool then ret tt
   else
     (open_w fname ;;;
      info ("Rewriting docs/" +:+ fname +:+ " ...") None ;;;
      modify (set_actual (Z.add 1)) ;;;
      write_all fname contents))%py.

(** Is [n] the name of an entry of directory [d], given the path [p] of
    something on the disk: [p] is [d/n] and [n] has no slash. *)
Definition entry_of (d p : string) : option string :=
  let pre := d +:+ "/" in
  if Str.startswith pre p then
    let n := Str.drop (String.length pre) p in
    if Str.contains "/" n || String.eqb n "" then None else Some n
  else None.

(** [os.listdir(d)]: the names of the entries of [d], in the order the
    system gives them. *)
Definition listdir (d : string) : M state (list string) :=
  fun s =>
    match disk s !! d with
    | Some Dir =>
        (Ret (omap (fun kv => entry_of d kv.1) (map_to_list (disk s))), s)
    | Some (File _) => (Exc NotADirectoryError, s)
    | None => (Exc FileNotFoundError, s)
    end.

(** [os.remove(fname)] *)
Definition remove (fname : string) : M state unit :=
  fun s =>
    match disk s !! fname with
    | Some (File _) => (Ret tt, set_disk (delete fname) s)
    | Some Dir => (Exc IsADirectoryError, s)
    | None => (Exc FileNotFoundError, s)
    end.

(** [os.mkdir(d)] *)
Definition mkdir (d : string) : M state unit :=
  fun s =>
    match no_way (disk s) d with
    | Some e => (Exc e, s)
    | None =>
        match disk s !! d with
        | Some _ => (Exc FileExistsError, s)
        | None => (Ret tt, set_disk <[d := Dir]> s)
        end
    end.

(** [try: m except FileExistsError: pass] *)
Definition pass_if_exists (m : M state unit) : M state unit :=
  fun s =>
    match m s with
    | (Exc FileExistsError, s') => (Ret tt, s')
    | r => r
    end.

(** The body of the loop of [__clean_up], for one name of the listing. *)
Definition clean_one (fname : string) : M state unit :=
  (let fname := path_join generated_dir fname in
   s <- get ;;
   if decide (fname ∈ dom (RST_FILES_WRITTEN s)) then ret tt
   else (info fname (Some "deleting!!!") ;;; remove fname))%py.

(** [__clean_up] *)
Definition clean_up : M state unit :=
  (names <- listdir generated_dir ;;
   for_each names clean_one)%py.

(** A page the run emits: the overview page of a symbol, written by
    [rst_generate_overview], or the subpage of one of its sections,
    written by [rst_generate_subpages]; [out] is the text computed for
    it. *)
Inductive page : Type :=
  | Overview (name out : string)
  | Subpage (name subname out : string).

Definition page_filename (p : page) : string :=
  match p with
  | Overview name _ => overview_filename name
  | Subpage name subname _ => subpage_filename name subname
  end.

Definition page_out (p : page) : string :=
  match p with
  | Overview _ out => out
  | Subpage _ _ out => out
  end.

(** The part of [main] that produces the output directory.  Processing
    the yml files reaches the disk and [__RST_FILES_WRITTEN] only through
    the calls [__write_file_if_changed(overview_filename(name), out)] and
    [__write_file_if_changed(subpage_filename(name, subname), out)];
    [pages] lists these calls in order, over all the yml files. *)
Definition main_output (pages : list page) : M state unit :=
  (pass_if_exists (mkdir generated_dir) ;;;
   for_each pages (fun p =>
     write_file_if_changed (page_filename p) (page_out p)) ;;;
   clean_up)%py.

(** Does the text read from the file [fname] equal [contents]. *)
Definition unchanged (d : gmap string node) (fname contents : string)
  : bool :=
  match d !! fname with
  | Some (File b) => String.eqb (read_text b) contents
  | _ => false
  end.

Fixpoint has_cr (s : string) : bool :=
  match s with
  | EmptyString => false
  | String c s' => Ascii.eqb c "013" || has_cr s'
  end.


(** A disk with a page of an earlier run that no yml file asks for any
    more, and one that is up to date. *)
Definition old_disk : gmap string node :=
  {[ "source" := Dir;
     "source/_generated" := Dir;
     "source/_generated/stale.rst" := File "old";
     "source/_generated/a.rst" := File "text" ]}.

End Files.

(** ** Descriptor trees

    What [BeautifulSoup] gives for doxygen's xml: a node is a string
    ([NavigableString], whose [name] is [None]) or a tag with its
    attributes and its children in order. *)

#[warnings="-register-all"]
Inductive xml : Type :=
  | Text (s : string)
  | Elem (name : string) (attrs : list (string * string))
         (children : list xml).

Module Xml.

(** [x.name], [None] for a string. *)
Definition name (x : xml) : option string :=
  match x with
  | Text _ => None
  | Elem n _ _ => Some n
  end.

(** [x.name == n] *)
Definition named (n : string) (x : xml) : bool :=
  match x with
  | Text _ => false
  | Elem m _ _ => String.eqb m n
  end.

(** [attrs.get(k)] *)
Fixpoint attr (k : string) (attrs : list (string * string))
  : option string :=
  match attrs with
  | [] => None
  | (k', v) :: rest => if String.eqb k' k then Some v else attr k rest
  end.

(** ["k" in x.attrs and x.attrs["k"] == v] *)
Definition attr_is (k v : string) (attrs : list (string * string)) : bool :=
  match attr k attrs with
  | Some v' => String.eqb v' v
  | None => false
  end.

(** [x.text]: the strings below [x], in document order. *)
Fixpoint text (x : xml) : string :=
  match x with
  | Text s => s
  | Elem _ _ cs =>
      (fix go (l : list xml) : string :=
         match l with
         | [] => EmptyString
         | c :: l' => text c +:+ go l'
         end) cs
  end.

(** The tags strictly below [x], in document order. *)
Fixpoint descendants (x : xml) : list xml :=
  match x with
  | Text _ => []
  | Elem _ _ cs =>
      (fix go (l : list xml) : list xml :=
         match l with
         | [] => []
         | c :: l' =>
             match c with
             | Text _ => go l'
             | Elem _ _ _ => c :: descendants c ++ go l'
             end
         end) cs
  end.

(** [x.find_all(n)] *)
Definition find_all (n : string) (x : xml) : list xml :=
  List.filter (named n) (descendants x).

(** [x.find(n)], and [x.n] for a tag name [n]. *)
Definition find (n : string) (x : xml) : option xml :=
  head (find_all n x).

(** The children of a tag: what [for c in x] runs over. *)
Definition children (x : xml) : list xml :=
  match x with
  | Text _ => []
  | Elem _ _ cs => cs
  end.

(** [next(c for c in items if c.name == n)] *)
Definition first_named (n : string) (items : list xml) : option xml :=
  head (List.filter (named n) items).

(** Nesting depth: a bound on the calls [convert_to_rst] nests. *)
Fixpoint height (x : xml) : nat :=
  match x with
  | Text _ => O
  | Elem _ _ cs =>
      S ((fix go (l : list xml) : nat :=
            match l with
            | [] => O
            | c :: l' => Nat.max (height c) (go l')
            end) cs)
  end.

End Xml.

(** ** The markup renderer *)

Module Render.

(** The list object that the parameter [context] of a call is bound to:
    the one list that is the default value of the parameter, shared by
    all the calls that pass no context, or the list of the caller. *)
Inductive cref : Set :=
  | Default
  | Own.

Record lists : Type := mkLists {
  default_context : list string;
  own_context : list string
}.

Definition ctx (c : cref) (s : lists) : list string :=
  match c with
  | Default => default_context s
  | Own => own_context s
  end.

Definition set_ctx (c : cref) (l : list string) (s : lists) : lists :=
  match c with
  | Default => mkLists l (own_context s)
  | Own => mkLists (default_context s) l
  end.

(** The list as it is now. *)
Definition context (c : cref) : M lists (list string) :=
  fun s => (Ret (ctx c s), s).

(** [context.append(v)] *)
Definition append (c : cref) (v : string) : M lists unit :=
  modify (fun s => set_ctx c (ctx c s ++ [v]) s).

(** [context.pop()] *)
Definition pop (c : cref) : M lists string :=
  fun s =>
    match rev (ctx c s) with
    | [] => (Exc IndexError, s)
    | v :: r => (Ret v, set_ctx c (rev r) s)
    end.

(** [context.count(v)] *)
Definition count (v : string) (l : list string) : nat :=
  length (List.filter (String.eqb v) l).

(** [v in context] *)
Definition mem (v : string) (l : list string) : bool :=
  existsb (String.eqb v) l.

(** [len(context) > 0 and context[-1] == v] *)
Definition top_is (v : string) (l : list string) : bool :=
  match last l with
  | Some w => String.eqb w v
  | None => false
  end.

(** The local function [indent] *)
Definition indent (context : list string) : string :=
  Str.blanks (3 * (count "memberdef" context + count "compounddef" context
                   + count "parameterdescription" context
                   + count "programlisting" context)).

Definition lift {A} (o : outcome A) : M lists A := fun s => (o, s).

Definition opt_or {A} (e : exn) (o : option A) : outcome A :=
  match o with
  | Some a => Ret a
  | None => Exc e
  end.

(** The text of a [definition] that starts with [using]. *)
Definition using_rst (t : string) : outcome string :=
  match Str.split "=" t with
  | [lhs; rhs] =>
      let lhs := Str.strip (Str.slice_from lhs (Str.rfind "::" lhs + 2)) in
      if Str.find "detail::" rhs =? -1 then
        let rhs := Str.strip (Re.sub (Re.lit "typename") "" rhs) in
        let rhs := Str.strip (Re.sub (Re.lit "typedef") "" rhs) in
        Ret (lhs +:+ " = " +:+ rhs)
      else
        Ret (Str.strip (Re.sub (Re.lit "using") "" lhs))
  | _ => Exc ValueError
  end.

(** The loop that collects [return_type]: the pieces up to and with the
    first one that ends in [libsemigroups]. *)
Fixpoint upto_libsemigroups (y : list string) : list string :=
  match y with
  | [] => []
  | z :: y' =>
      if Str.endswith "libsemigroups" z then [z]
      else z :: upto_libsemigroups y'
  end.

(** [y[-2]] *)
Definition last_but_one (y : list string) : option string :=
  match rev y with
  | _ :: z :: _ => Some z
  | _ => None
  end.

(** The text of any other [definition]. *)
Definition member_rst (t : string) : outcome string :=
  let y := Str.split "::" t in
  let last_ := default EmptyString (last y) in
  if String.eqb last_ "operator=" then
    let y0 := default EmptyString (head y) in
    Ret (Str.slice_to y0 (Str.find "&" y0 + 1) +:+ last_)
  else
    match last_but_one y with
    | None => Exc IndexError
    | Some y2 =>
        if negb (Str.startswith last_ y2) then
          let return_type := Str.join "::" (upto_libsemigroups y) in
          Ret (Str.slice_to return_type (Str.rfind " " return_type + 1)
               +:+ last_)
        else Ret last_
    end.

Definition definition_rst (t : string) : outcome string :=
  if Str.startswith "using" t then using_rst t else member_rst t.

(** One entry of a [templateparamlist]. *)
Definition tparam_rst (y : xml) : outcome string :=
  match Xml.find "type" y with
  | None => Exc AttributeError
  | Some ty =>
      Ret (Xml.text ty +:+
           match Xml.find "declname" y with
           | Some d => " " +:+ Xml.text d
           | None => EmptyString
           end)
  end.

Fixpoint collect {A B} (f : A -> outcome B) (l : list A)
  : outcome (list B) :=
  match l with
  | [] => Ret []
  | a :: l' =>
      match f a with
      | Exc e => Exc e
      | Ret b =>
          match collect f l' with
          | Exc e => Exc e
          | Ret bs => Ret (b :: bs)
          end
      end
  end.

Definition templateparamlist_rst (x : xml) : outcome string :=
  match collect tparam_rst (Xml.find_all "param" x) with
  | Exc e => Exc e
  | Ret params => Ret ("template <" +:+ Str.join ", " params +:+ ">")
  end.

(** What a string child adds. *)
Definition string_rst (x : string) : string :=
  let x := Str.strip x in
  (match x with
   | EmptyString => EmptyString
   | String c _ =>
       if negb (String.eqb x ".") && negb (Char.isupper c)
       then " " else EmptyString
   end) +:+ x.

(** [x.attrs["kind"]] *)
Definition kind_of (attrs : list (string * string)) : M lists string :=
  lift (opt_or KeyError (Xml.attr "kind" attrs)).

(** [for y in l: result += body y] *)
Fixpoint concat_each {A} (l : list A) (body : A -> M lists string)
  : M lists string :=
  match l with
  | [] => ret EmptyString
  | y :: l' =>
      (a <- body y ;; b <- concat_each l' body ;; ret (a +:+ b))%py
  end.

Section Convert.

(** The table [PREFIXES], from the [kind] of a compound or member to the
    directive that opens its markup.  The script uses it and does not
    define it, so it is left open here; a kind without an entry raises. *)
Variable PREFIXES : string -> option string.

(** [rec] stands for [convert_to_rst] itself in the calls below. *)
Variable rec : xml -> cref -> M lists string.

(** [convert_to_rst(y.find(n), context)]: [__accepts] refuses [None]. *)
Definition rec_find (n : string) (y : xml) (c : cref) : M lists string :=
  match Xml.find n y with
  | Some d => rec d c
  | None => raise AssertionError
  end.

(** [y.find(n).text] *)
Definition find_text (n : string) (y : xml) : M lists string :=
  lift (opt_or AttributeError (option_map Xml.text (Xml.find n y))).

(** [indent(context)], for the list as it is when this is evaluated. *)
Definition indent_now (c : cref) : M lists string :=
  (l <- context c ;; ret (indent l))%py.

(** [lead + indent(context) + mid + convert_to_rst(x, context)] *)
Definition indented (lead mid : string) (x : xml) (c : cref)
  : M lists string :=
  (i <- indent_now c ;; r <- rec x c ;; ret (lead +:+ i +:+ mid +:+ r))%py.

(** One turn of the loop [for x in xml]: what it adds to [result]. *)
Definition item (c : cref) (x : xml) : M lists string :=
  match x with
  | Text s => ret (string_rst s)
  | Elem n attrs _ =>
      (l <- context c ;;
       if mem "enum" l && String.eqb n "name" then
         ret (Str.strip (Xml.text x))
       else if mem "enum" l && String.eqb n "enumvalue" then
         indented "

" ".. cpp:enumerator:: " x c
       else if String.eqb n "definition" then
         lift (definition_rst (Xml.text x))
       else if String.eqb n "argsstring" then
         ret (Xml.text x)
       else if String.eqb n "briefdescription" then
         indented "

" "" x c
       else if String.eqb n "detaileddescription" then
         indented "
" "" x c
       else if String.eqb n "templateparamlist" then
         lift (templateparamlist_rst x)
       else if String.eqb n "computeroutput" then
         ret (if (Str.len (Xml.text x) =? 0) then EmptyString
              else " ``" +:+ Xml.text x +:+ "``")
       else if String.eqb n "formula" then
         ret (" :math:`" +:+ Re.sub (Re.lit "$") "" (Xml.text x) +:+ "`")
       else if String.eqb n "title" then
         (i <- indent_now c ;;
          ret ("

" +:+ i +:+ ":" +:+ Str.lower (Xml.text x) +:+ ": "))
       else if String.eqb n "para" then
         (r <- rec x c ;;
          l' <- context c ;;
          if top_is "detaileddescription" l' || top_is "briefdescription" l'
          then ret (r +:+ "

" +:+ indent l')
          else ret r)
       else if String.eqb n "simplesect" then
         (k <- kind_of attrs ;;
          if String.eqb k "return" then indented "

" ":returns: " x c
          else if String.eqb k "par" then rec x c
          else if String.eqb k "see" then indented "

" ".. seealso:: " x c
          else ret EmptyString)
       else if String.eqb n "parameterlist" then
         (k <- kind_of attrs ;;
          if String.eqb k "templateparam" then
            concat_each (Xml.find_all "parameteritem" x) (fun y =>
              i <- indent_now c ;;
              pn <- find_text "parametername" y ;;
              d <- rec_find "parameterdescription" y c ;;
              ret ("

" +:+ i +:+ ":tparam " +:+ pn +:+ ": " +:+ d))
          else if String.eqb k "param" then
            concat_each (Xml.find_all "parameteritem" x) (fun y =>
              i <- indent_now c ;;
              pn <- find_text "parametername" y ;;
              d <- rec_find "parameterdescription" x c ;;
              ret ("

" +:+ i +:+ ":param " +:+ pn +:+ ": " +:+ d))
          else if String.eqb k "exception" then
            concat_each (Xml.find_all "parameteritem" x) (fun y =>
              i <- indent_now c ;;
              i' <- indent_now c ;;
              pn <- rec_find "parametername" y c ;;
              d <- rec_find "parameterdescription" y c ;;
              ret ("

" +:+ i +:+ ":throws:
" +:+ i' +:+ "   " +:+ pn +:+ d))
          else ret EmptyString)
       else if String.eqb n "ref" then
         ret (" :cpp:" +:+
              (if Xml.attr_is "kindref" "member" attrs
               then "member" else "any")
              +:+ ":`" +:+ Xml.text x +:+ "` ")
       else if String.eqb n "emphasis" then
         ret (" *" +:+ Xml.text x +:+ "*")
       else if String.eqb n "bold" then
         (i <- indent_now c ;;
          ret ("

" +:+ i +:+ "**" +:+ Xml.text x +:+ "**"))
       else if String.eqb n "compoundname" then
         ret (Str.slice_from (Xml.text x) (Str.rfind "::" (Xml.text x) + 2))
       else if String.eqb n "ulink" then
         (url <- lift (opt_or KeyError (Xml.attr "url" attrs)) ;;
          ret (" `" +:+ Xml.text x +:+ " <" +:+ url +:+ ">`_"))
       else if String.eqb n "itemizedlist" then
         (r <- rec x c ;; ret ("
" +:+ r))
       else if String.eqb n "listitem" then
         indented "
" "* " x c
       else if String.eqb n "programlisting" then
         (i <- indent_now c ;;
          r <- rec x Default ;;
          ret ("

" +:+ i +:+ ".. code-block::
" +:+ r))
       else if String.eqb n "codeline" then
         (i <- indent_now c ;;
          r <- rec x Default ;;
          ret ("
" +:+ i +:+ r))
       else if String.eqb n "highlight" then
         rec x Default
       else if String.eqb n "sp" then
         ret " "
       else ret EmptyString)%py
  end.

(** [PREFIXES[xml.attrs["kind"]]] *)
Definition prefix_of (attrs : list (string * string)) : M lists string :=
  (k <- kind_of attrs ;; lift (opt_or KeyError (PREFIXES k)))%py.

(** The children of a [compounddef] in the order they are rendered:
    its [templateparamlist], when it has one, comes first. *)
Definition compound_items (cs : list xml) : list xml :=
  match Xml.first_named "templateparamlist" cs with
  | Some t =>
      t :: List.filter (fun x => negb (Xml.named "templateparamlist" x)) cs
  | None => cs
  end.

(** The children of an enum in the order they are rendered: the name,
    the brief description (the empty string when there is none), then
    the others. *)
Definition enum_items (cs : list xml) : M lists (list xml) :=
  (n <- lift (opt_or StopIteration (Xml.first_named "name" cs)) ;;
   let bd := default (Text EmptyString)
                     (Xml.first_named "briefdescription" cs) in
   ret (n :: bd ::
        List.filter (fun x => negb (Xml.named "briefdescription" x)
                              && negb (Xml.named "name" x)) cs))%py.

(** The body of [convert_to_rst] for the tag [n] with attributes
    [attrs] and children [cs]. *)
Definition body (n : string) (attrs : list (string * string))
    (cs : list xml) (c : cref) : M lists string :=
  (append c n ;;;
   (if Xml.attr_is "kind" "enum" attrs then append c "enum" else ret tt) ;;;
   prefix <- (if String.eqb n "compounddef" || String.eqb n "memberdef"
              then prefix_of attrs else ret EmptyString) ;;
   let is_list :=
     String.eqb n "compounddef"
     && bool_decide (is_Some (Xml.first_named "templateparamlist" cs)) in
   let cs := if String.eqb n "compounddef" then compound_items cs else cs in
   items <- (if negb is_list && Xml.attr_is "kind" "enum" attrs
             then enum_items cs else ret cs) ;;
   result <- concat_each items (item c) ;;
   l <- context c ;;
   (if top_is "enum" l then (pop c ;;; ret tt) else ret tt) ;;;
   top <- pop c ;;
   if String.eqb top "itemizedlist"
   then (i <- indent_now c ;; ret (prefix +:+ result +:+ "

" +:+ i))
   else ret (prefix +:+ result))%py.

End Convert.

(** [convert_to_rst], for as many nested calls as [fuel] allows; one
    call more is Python's [RecursionError].  [__accepts] refuses what is
    not a tag. *)
Fixpoint convert (PREFIXES : string -> option string) (fuel : nat)
    (x : xml) (c : cref) : M lists string :=
  match x with
  | Text _ => raise AssertionError
  | Elem n attrs cs =>
      match fuel with
      | O => raise RecursionError
      | S fuel' => body PREFIXES (convert PREFIXES fuel') n attrs cs c
      end
  end.

(** [convert_to_rst(xml, context)]: the calls nest no deeper than the
    tree. *)
Definition convert_to_rst (PREFIXES : string -> option string)
    (x : xml) (c : cref) : M lists string :=
  convert PREFIXES (Xml.height x) x c.

(** The tag names that a branch of the loop of [convert_to_rst] tests. *)
Definition handled : list string :=
  ["name"; "enumvalue"; "definition"; "argsstring"; "briefdescription";
   "detaileddescription"; "templateparamlist"; "computeroutput"; "formula";
   "title"; "para"; "simplesect"; "parameterlist"; "ref"; "emphasis";
   "bold"; "compoundname"; "ulink"; "itemizedlist"; "listitem";
   "programlisting"; "codeline"; "highlight"; "sp"].

(** The table without entries. *)
Definition no_prefixes : string -> option string := fun _ => None.

(** A code block of one line. *)
Definition listing : xml :=
  Elem "programlisting" []
    [Elem "codeline" [] [Elem "highlight" [] [Text "x;"]]].

(** A computation that neither reads nor writes the caller's list: on
    the lists [(d, o)] it does what it does on [(d, [])], and leaves
    [o] as it is. *)
Definition frame {A} (m : M lists A) : Prop :=
  forall d o,
    m (mkLists d o)
    = ((m (mkLists d [])).1,
       mkLists (default_context (m (mkLists d [])).2) o).

(** What the loop adds for a child rendered without context: [f] of
    the text [r] that the call on the default list returns. *)
Definition added (f : string -> string) (r : outcome string * lists)
    (own : list string) : outcome string * lists :=
  (match r.1 with
   | Ret t => Ret (f t)
   | Exc e => Exc e
   end,
   mkLists (default_context r.2) own).

(** The end of [convert_to_rst]: the two pops and the return. *)
Definition finish (c : cref) (prefix result : string) : M lists string :=
  (l <- context c ;;
   (if top_is "enum" l then (pop c ;;; ret tt) else ret tt) ;;;
   top <- pop c ;;
   if String.eqb top "itemizedlist"
   then (i <- indent_now c ;; ret (prefix +:+ result +:+ "

" +:+ i))
   else ret (prefix +:+ result))%py.

(** Two computations that do the same in every state. *)
Definition eqm {A} (m1 m2 : M lists A) : Prop := forall s, m1 s = m2 s.

(** Two stand-ins for [convert_to_rst] that do the same on the trees of
    height at most [h]. *)
Definition agree (h : nat) (rec1 rec2 : xml -> cref -> M lists string)
  : Prop :=
  forall y c, (Xml.height y <= h)%nat -> eqm (rec1 y c) (rec2 y c).

(** A computation that leaves both lists as they were when it returns. *)
Definition pres {A} (m : M lists A) : Prop :=
  forall s a s', m s = (Ret a, s') -> s' = s.

(** The tags on which the two pops at the end of [convert_to_rst] undo
    its pushes: any tag not itself called [enum], and any enum. *)
Definition pops_match (x : xml) : Prop :=
  match x with
  | Text _ => True
  | Elem n attrs _ => n <> "enum" \/ Xml.attr_is "kind" "enum" attrs = true
  end.

End Render.

(** ** The symbol database *)

Module Doxy.

(** What [__DOXY_DICT] holds under a name: the tag of a compound or of a
    member that is no function, [None] for a file without [compounddef],
    or, for functions and friends, a dict from parameter strings to tags.
    A tag can be assigned to like a dict, which sets an attribute of it;
    [assigned] are the attributes so set. *)
Inductive value : Type :=
  | VNone
  | VTag (x : xml) (assigned : gmap string xml)
  | VDict (d : gmap string xml).

(** What [doxy_xml] returns: an entry of the dict, or one item of it;
    an item of a tag is an attribute of it. *)
Inductive result : Type :=
  | RValue (v : value)
  | RTag (x : xml)
  | RStr (s : string).

(** A file opened and parsed with [BeautifulSoup]: the file of the
    class [class_], or a namespace file met in the scan of [build/xml]. *)
Inductive event : Type :=
  | ParsedClass (class_ path : string)
  | ParsedNamespace (path : string).

(** The globals of the database, the caches that [lru_cache] keeps for
    [doxy_xml] and [doxy_warn], and the parses done so far. *)
Record state : Type := mkState {
  DOXY_DICT : gmap string value;
  WARNINGS : Z;
  stderr : list string;
  xml_cache : gmap (string * option string) result;
  warn_cache : gset (string * string * option string);
  parsed : list event
}.

Definition initial : state := mkState ∅ 0 [] ∅ ∅ [].

Definition set_dict (f : gmap string value -> gmap string value)
  (s : state) : state :=
  mkState (f (DOXY_DICT s)) (WARNINGS s) (stderr s) (xml_cache s)
          (warn_cache s) (parsed s).
Definition log (e : event) (s : state) : state :=
  mkState (DOXY_DICT s) (WARNINGS s) (stderr s) (xml_cache s)
          (warn_cache s) (parsed s ++ [e]).
Definition set_xml_cache
  (f : gmap (string * option string) result
       -> gmap (string * option string) result) (s : state) : state :=
  mkState (DOXY_DICT s) (WARNINGS s) (stderr s) (f (xml_cache s))
          (warn_cache s) (parsed s).
Definition set_warn_cache
  (f : gset (string * string * option string)
       -> gset (string * string * option string)) (s : state) : state :=
  mkState (DOXY_DICT s) (WARNINGS s) (stderr s) (xml_cache s)
          (f (warn_cache s)) (parsed s).
Definition warned (line : string) (s : state) : state :=
  mkState (DOXY_DICT s) (WARNINGS s + 1) (stderr s ++ [line]) (xml_cache s)
          (warn_cache s) (parsed s).

(** [re.sub("([A-Z])", r"_\1", s)] *)
Fixpoint underscore_capitals (s : string) : string :=
  match s with
  | EmptyString => EmptyString
  | String c s' =>
      if Char.between 65 90 c
      then String "_" (String c (underscore_capitals s'))
      else String c (underscore_capitals s')
  end.

(** The name that doxygen gives to the file of a compound. *)
Definition mangle (name : string) : string :=
  let name := Re.sub (Re.lit "_") "__" name in
  let name := Re.sub (Re.lit "::") "_1_1" name in
  Str.lower (underscore_capitals name).

Section Database.

(** The files of [build/xml], each with the document it parses to;
    they do not change while the script looks symbols up. *)
Variable xmls : gmap string xml.

(** [isfile(path)] *)
Definition isfile (path : string) : bool := bool_decide (is_Some (xmls !! path)).

(** [doxy_filename]; it is memoized, which cannot be seen, as the files
    stay what they are. *)
Definition doxy_filename (name : string) : string :=
  let name := mangle name in
  if isfile ("build/xml/class" +:+ name +:+ ".xml")
  then "build/xml/class" +:+ name +:+ ".xml"
  else "build/xml/struct" +:+ name +:+ ".xml".

(** The loop [while pos != -1 and not isfile(doxy_filename(class_))],
    for at most [fuel] turns: each turn cuts [class_] at [pos] and sets
    [pos] to where the last [::] was in the uncut [class_]. *)
Fixpoint enclosing (fuel : nat) (class_ : string) (pos : Z) : string :=
  if negb (pos =? -1) && negb (isfile (doxy_filename class_)) then
    match fuel with
    | O => class_
    | S fuel' =>
        enclosing fuel' (Str.slice_to class_ pos) (Str.rfind "::" class_)
    end
  else class_.

(** The turns that the loop can take from [class_] and [pos]. *)
Definition turns (class_ : string) (pos : Z) : nat :=
  2 * String.length class_ + (if pos =? Str.rfind "::" class_ then 0 else 1).

(** [x.find("type").text.strip()] for each [x] of [l] *)
Definition types_of (l : list xml) : outcome (list string) :=
  Render.collect
    (fun p => match Xml.find "type" p with
              | Some t => Ret (Str.strip (Xml.text t))
              | None => Exc AttributeError
              end) l.

(** [x in l], for strings *)
Definition among (l : list string) (x : string) : bool :=
  existsb (String.eqb x) l.

(** The parameter string under which a function or friend is filed:
    the types of its parameters without those of its template
    parameters, and its qualifiers. *)
Definition signature_of (x : xml) : outcome string :=
  match
    match Xml.find "templateparamlist" x with
    | Some t =>
        match types_of (Xml.find_all "param" t) with
        | Ret l => Ret (Some l)
        | Exc e => Exc e
        end
    | None => Ret None
    end
  with
  | Exc e => Exc e
  | Ret tparam =>
      match types_of (Xml.find_all "param" x) with
      | Exc e => Exc e
      | Ret param =>
          let param :=
            match tparam with
            | Some tp => List.filter (fun t => negb (among tp t)) param
            | None => param
            end in
          let param := "(" +:+ Str.join "," param +:+ ")" in
          let attrs := match x with Elem _ a _ => a | Text _ => [] end in
          match Xml.find "argsstring" x with
          | None => Exc AttributeError
          | Some a =>
              let args := Xml.text a in
              let param :=
                if Xml.attr_is "const" "yes" attrs
                   || Str.endswith " const" args
                then param +:+ " const" else param in
              let param :=
                if Xml.attr_is "noexcept" "yes" attrs
                then param +:+ " noexcept" else param in
              let param :=
                if Str.endswith "=default" args
                then param +:+ " = default" else param in
              let param :=
                if Str.endswith "=delete" args
                then param +:+ " = delete" else param in
              let param :=
                if Str.endswith " override" args
                then param +:+ " override" else param in
              let param :=
                if Str.endswith "=0" args
                then param +:+ " = 0" else param in
              Ret param
          end
      end
  end.

Definition lift {A} (o : outcome A) : M state A := fun s => (o, s).

(** [x.find("name").text] *)
Definition name_text (x : xml) : M state string :=
  lift (Render.opt_or AttributeError
          (option_map Xml.text (Xml.find "name" x))).

(** [__DOXY_DICT[name][param] = x] *)
Definition set_item (name param : string) (x : xml) : M state unit :=
  fun s =>
    match DOXY_DICT s !! name with
    | None => (Exc KeyError, s)
    | Some VNone => (Exc TypeError, s)
    | Some (VTag t a) =>
        (Ret tt, set_dict <[name := VTag t (<[param := x]> a)]> s)
    | Some (VDict d) =>
        (Ret tt, set_dict <[name := VDict (<[param := x]> d)]> s)
    end.

(** One turn of the loop over the [memberdef]s of the file of
    [class_]. *)
Definition index_member (class_ : string) (x : xml) : M state unit :=
  let attrs := match x with Elem _ a _ => a | Text _ => [] end in
  if match Xml.attr "prot" attrs with
     | Some prot => negb (String.eqb prot "public")
     | None => false
     end
  then ret tt
  else
  (n <- name_text x ;;
   let mem_def_name := class_ +:+ "::" +:+ n in
   s <- get ;;
   if match Xml.attr "kind" attrs with
      | Some k => negb (String.eqb k "function")
                  && negb (String.eqb k "friend")
      | None => false
      end
   then
     if bool_decide (is_Some (DOXY_DICT s !! mem_def_name))
     then raise AssertionError
     else modify (set_dict <[mem_def_name := VTag x ∅]>)
   else
     (param <- lift (signature_of x) ;;
      s <- get ;;
      (if bool_decide (is_Some (DOXY_DICT s !! mem_def_name))
       then ret tt
       else modify (set_dict <[mem_def_name := VDict ∅]>)) ;;;
      set_item mem_def_name param x))%py.

(** [BeautifulSoup(open(path, "r"), "xml")]: the parse is recorded. *)
Definition parse (e : event) (path : string) : M state xml :=
  fun s =>
    match xmls !! path with
    | Some doc => (Ret doc, log e s)
    | None => (Exc FileNotFoundError, s)
    end.

Definition in_dict (name : string) (s : state) : bool :=
  bool_decide (is_Some (DOXY_DICT s !! name)).

(** The branch of [doxy_xml] that reads the file of [class_]. *)
Definition load_class (class_ : string) : M state unit :=
  (doc <- parse (ParsedClass class_ (doxy_filename class_))
                (doxy_filename class_) ;;
   modify (set_dict <[class_ :=
             match Xml.find "compounddef" doc with
             | Some c => VTag c ∅
             | None => VNone
             end]>) ;;;
   for_each (Xml.find_all "memberdef" doc) (index_member class_))%py.

(** One turn of the loop over the [memberdef]s of a namespace file. *)
Definition index_namespace_member (ns : string) (x : xml) : M state unit :=
  (n <- name_text x ;;
   let y := ns +:+ "::" +:+ n in
   s <- get ;;
   if in_dict y s then ret tt
   else modify (set_dict <[y := VTag x ∅]>))%py.

(** One turn of the loop over [os.listdir("build/xml")]. *)
Definition scan_file (fname : string) : M state unit :=
  if negb (Str.startswith "namespace" fname) then ret tt
  else
    (doc <- parse (ParsedNamespace ("build/xml/" +:+ fname))
                  ("build/xml/" +:+ fname) ;;
     ns <- lift (Render.opt_or AttributeError
                   (option_map Xml.text (Xml.find "compoundname" doc))) ;;
     for_each (Xml.find_all "memberdef" doc) (index_namespace_member ns))%py.

(** [os.listdir("build/xml")] *)
Definition build_xml_names : list string :=
  omap (fun kv => Files.entry_of "build/xml" kv.1) (map_to_list xmls).

(** The branch of [doxy_xml] that scans the namespace files. *)
Definition scan_namespaces : M state unit :=
  for_each build_xml_names scan_file.

(** [__DOXY_DICT[name]], or [__DOXY_DICT[name][params]] *)
Definition lookup (name : string) (params : option string)
  : M state result :=
  fun s =>
    match DOXY_DICT s !! name, params with
    | None, _ => (Exc KeyError, s)
    | Some v, None => (Ret (RValue v), s)
    | Some VNone, Some p => (Exc TypeError, s)
    | Some (VDict d), Some p =>
        match d !! p with
        | Some x => (Ret (RTag x), s)
        | None => (Exc KeyError, s)
        end
    | Some (VTag t a), Some p =>
        match a !! p with
        | Some x => (Ret (RTag x), s)
        | None =>
            match Xml.attr p (match t with Elem _ at_ _ => at_ | Text _ => [] end) with
            | Some v => (Ret (RStr v), s)
            | None => (Exc KeyError, s)
            end
        end
    end.

(** Filling [__DOXY_DICT] for [name], when it has no entry. *)
Definition populate (name : string) : M state unit :=
  (s <- get ;;
   if in_dict name s then ret tt
   else
     let pos := Str.rfind "::" name in
     let class_ := enclosing (turns name pos) name pos in
     if isfile (doxy_filename class_) && negb (in_dict class_ s)
     then load_class class_
     else if negb (in_dict class_ s) then scan_namespaces
     else ret tt)%py.

(** The body of [doxy_xml] *)
Definition doxy_xml_body (name : string) (params : option string)
  : M state result :=
  (populate name ;;; lookup name params)%py.

(** [doxy_xml], memoized by [lru_cache]: a call that returns is kept
    under its arguments; a call that raises leaves no entry. *)
Definition doxy_xml (name : string) (params : option string)
  : M state result :=
  fun s =>
    match xml_cache s !! (name, params) with
    | Some r => (Ret r, s)
    | None =>
        match doxy_xml_body name params s with
        | (Ret r, s') => (Ret r, set_xml_cache <[(name, params) := r]> s')
        | (Exc e, s') => (Exc e, s')
        end
    end.

End Database.

(** [doxy_warn], memoized by [lru_cache]: its body runs [__warn]. *)
Definition doxy_warn (fname name : string) (params : option string)
  : M state unit :=
  fun s =>
    if decide ((fname, name, params) ∈ warn_cache s) then (Ret tt, s)
    else
      (Ret tt,
       set_warn_cache (union {[ (fname, name, params) ]})
         (warned (warning_line fname
                    ("no doxygen output found for " +:+ name
                     +:+ default EmptyString params)) s)).

(** The [try] statement that opens [doxy_tparams]: the lookup, with a
    dict or a [KeyError] turned into a warning; [None] stands for the
    [return ""] of the handler, [Some xml] for going on with [xml]. *)
Definition doxy_tparams_try (xmls : gmap string xml) (ymlfname name : string)
    (params : option string) : M state (option result) :=
  fun s =>
    match doxy_xml xmls name params s with
    | (Ret (RValue (VDict _)), s') | (Exc KeyError, s') =>
        match doxy_warn ymlfname name params s' with
        | (_, s'') => (Ret None, s'')
        end
    | (Ret r, s') => (Ret (Some r), s')
    | (Exc e, s') => (Exc e, s')
    end.

(** Looking up one key after the other, whatever each lookup gives. *)
Fixpoint lookups (xmls : gmap string xml)
    (keys : list (string * option string)) (s : state) : state :=
  match keys with
  | [] => s
  | (name, params) :: keys' =>
      lookups xmls keys' (doxy_xml xmls name params s).2
  end.

(** How often the file of the class [c] was parsed. *)
Fixpoint class_parses (c : string) (l : list event) : nat :=
  match l with
  | [] => O
  | ParsedClass c' _ :: l' =>
      if String.eqb c' c then S (class_parses c l') else class_parses c l'
  | ParsedNamespace _ :: l' => class_parses c l'
  end.

(** How often the namespace file [path] was parsed. *)
Fixpoint namespace_parses (path : string) (l : list event) : nat :=
  match l with
  | [] => O
  | ParsedNamespace p :: l' =>
      if String.eqb p path then S (namespace_parses path l')
      else namespace_parses path l'
  | ParsedClass _ _ :: l' => namespace_parses path l'
  end.

(** What a computation does to the state, whatever it returns or
    raises, lies in the relation [R]. *)
Definition keeps {A} (R : state -> state -> Prop) (m : M state A) : Prop :=
  forall s, R s (m s).2.

(** Between two states: entries were only added to [__DOXY_DICT], the
    caches and the warning count are as they were, and the file of the
    class [c] was not parsed. *)
Definition quiet (c : string) (s s' : state) : Prop :=
  dom (DOXY_DICT s) ⊆ dom (DOXY_DICT s') /\
  xml_cache s' = xml_cache s /\
  warn_cache s' = warn_cache s /\
  WARNINGS s' = WARNINGS s /\
  class_parses c (parsed s') = class_parses c (parsed s).

(** The file of the class [c] was parsed at most once, and if it was,
    [c] has an entry in [__DOXY_DICT]. *)
Definition parsed_once (c : string) (s : state) : Prop :=
  class_parses c (parsed s) = O \/
  (class_parses c (parsed s) = 1%nat /\ c ∈ dom (DOXY_DICT s)).

(** A computation that does not raise [e]. *)
Definition never {A} (e : exn) (m : M state A) : Prop :=
  forall s, (m s).1 <> Exc e.

(** A namespace file with one function, and a class file. *)
Definition some_xmls : gmap string xml :=
  {[ "build/xml/namespacelibsemigroups.xml" :=
       Elem "[document]" []
         [Elem "compounddef" [("kind", "namespace")]
            [Elem "compoundname" [] [Text "libsemigroups"];
             Elem "memberdef" [("kind", "function")]
               [Elem "name" [] [Text "foo"]]]];
     "build/xml/classlibsemigroups_1_1_bar.xml" :=
       Elem "[document]" []
         [Elem "compounddef" [("kind", "class")]
            [Elem "compoundname" [] [Text "libsemigroups::Bar"];
             Elem "memberdef" [("kind", "function"); ("prot", "public")]
               [Elem "name" [] [Text "size"];
                Elem "argsstring" [] [Text "() const"]]]] ]}.

End Doxy.
(** ** Names of symbols and pieces of a page *)

(** [strip_libsemigroups_prefix]; [name.split("::")] has at least one
    piece, so that [s[0]] is there. *)
Definition strip_libsemigroups_prefix (name : string) : string :=
  if (String.length name =? 0)%nat then name
  else
    match Str.split "::" name with
    | s0 :: rest =>
        if String.eqb s0 "libsemigroups" then Str.join "::" rest else name
    | [] => name
    end.

(** [unqualified_name] *)
Definition unqualified_name (name : string) : string :=
  if (String.length name =? 0)%nat then name
  else List.last (Str.split "::" name) EmptyString.

(** [sym * n] *)
Fixpoint times (sym : string) (n : nat) : string :=
  match n with
  | O => EmptyString
  | S k => sym +:+ times sym k
  end.

(** [rst_section]; [sym] is ["="] when the caller gives none. *)
Definition rst_section (name sym : string) : string :=
  let underline := times sym (String.length name) in
  String "010" "" +:+ name +:+ String "010" "" +:+ underline
  +:+ String "010" "".

(** [fnam[fnam.rfind("/") + 1 :]], the line that [rst_generate_overview]
    adds to the toctree for the subpage [fnam]. *)
Definition toctree_entry (fnam : string) : string :=
  Str.slice_from fnam (Str.rfind "/" fnam + 1).

(** Neighbours in a tidy parameter list: not two white spaces in a
    row, and no white space next to a comma. *)
Definition tidy (b a : ascii) : bool :=
  Spacing.apart b a
  && negb (Char.isspace b && Spacing.is_comma a)
  && negb (Spacing.is_comma b && Char.isspace a).

(** ** What a run may do to the disk *)

Module Policy.
Import Files.

(** Between two states: the counters and the record of the files
    written are as they were, and every path holds what it held, or
    held a regular file of [source/_generated] that was not recorded
    and is gone. *)
Definition only_removes (s s' : state) : Prop :=
  RST_FILES_WRITTEN s' = RST_FILES_WRITTEN s /\
  REWRITES_ATTEMPTED s' = REWRITES_ATTEMPTED s /\
  REWRITES_ACTUAL s' = REWRITES_ACTUAL s /\
  WARNINGS s' = WARNINGS s /\
  forall p,
    disk s' !! p = disk s !! p \/
    (disk s' !! p = None /\
     (p ∉ dom (RST_FILES_WRITTEN s)) /\
     (exists n, entry_of generated_dir p = Some n) /\
     exists b, disk s !! p = Some (File b)).

(** Between two states: one more file was attempted, at most one more
    was written, and no path but [fname] holds anything else. *)
Definition one_attempt (fname : string) (s s' : state) : Prop :=
  REWRITES_ATTEMPTED s' = REWRITES_ATTEMPTED s + 1 /\
  (REWRITES_ACTUAL s' = REWRITES_ACTUAL s \/
   REWRITES_ACTUAL s' = REWRITES_ACTUAL s + 1) /\
  WARNINGS s' = WARNINGS s /\
  forall p, p <> fname -> disk s' !! p = disk s !! p.

(** The loop of [main] over the pages, as [main_output] has it. *)
Definition write_pages (pages : list page) : M state unit :=
  for_each pages (fun p =>
    write_file_if_changed (page_filename p) (page_out p)).

End Policy.

(** ** The kind of a symbol *)

Module Kinds.
Import Doxy.

(** How a call ends: with a value, with an exception of Python's own,
    or with the [Exception] that [doxy_kind] raises with its message. *)
Inductive ending (A : Type) : Type :=
  | Returned (a : A)
  | Raised (e : exn)
  | Failed (msg : string).
Arguments Returned {A} a.
Arguments Raised {A} e.
Arguments Failed {A} msg.

(** What [xml.attrs["kind"]] is: a string of the file, or a tag that
    was assigned to the tag under that name. *)
Inductive kind : Type :=
  | KindStr (s : string)
  | KindTag (x : xml).

(** The database, and the cache that [lru_cache] keeps for
    [doxy_kind]. *)
Record kstate : Type := mkK {
  db : Doxy.state;
  kind_cache : gmap (string * string * option string) kind
}.

Definition kinitial : kstate := mkK initial ∅.

(** [x.attrs] *)
Definition attrs_of (x : xml) : list (string * string) :=
  match x with
  | Elem _ a _ => a
  | Text _ => []
  end.

(** [xml.attrs["kind"]], when [xml] is a tag and has it. *)
Definition tag_kind (r : result) : option kind :=
  match r with
  | RTag x => KindStr <$> Xml.attr "kind" (attrs_of x)
  | RValue (VTag x a) =>
      match a !! "kind" with
      | Some y => Some (KindTag y)
      | None => KindStr <$> Xml.attr "kind" (attrs_of x)
      end
  | RValue VNone | RValue (VDict _) | RStr _ => None
  end.

(** [result if result != "friend" else "function"] *)
Definition not_friend (k : kind) : kind :=
  match k with
  | KindStr s => if String.eqb s "friend" then KindStr "function" else k
  | KindTag _ => k
  end.

Definition could_not (name : string) : string :=
  "could not determine the kind of " +:+ name.

(** The body of [doxy_kind] *)
Definition doxy_kind_body (xmls : gmap string xml) (ymlfname name : string)
    (params : option string) (s : kstate) : ending kind * kstate :=
  match doxy_xml xmls name params (db s) with
  | (Exc e, d) => (Raised e, mkK d (kind_cache s))
  | (Ret r, d) =>
      match tag_kind r with
      | Some k => (Returned (not_friend k), mkK d (kind_cache s))
      | None =>
          (Failed (could_not name),
           mkK (warned (warning_line ymlfname (could_not name)) d)
               (kind_cache s))
      end
  end.

(** [doxy_kind], memoized by [lru_cache]: a call that returns is kept
    under its arguments; a call that raises leaves no entry. *)
Definition doxy_kind (xmls : gmap string xml) (ymlfname name : string)
    (params : option string) (s : kstate) : ending kind * kstate :=
  match kind_cache s !! (ymlfname, name, params) with
  | Some k => (Returned k, s)
  | None =>
      match doxy_kind_body xmls ymlfname name params s with
      | (Returned k, s') =>
          (Returned k,
           mkK (db s') (<[(ymlfname, name, params) := k]> (kind_cache s')))
      | (Raised e, s') => (Raised e, s')
      | (Failed msg, s') => (Failed msg, s')
      end
  end.

(** The calls that touch the database. *)
Inductive call : Type :=
  | CallXml (name : string) (params : option string)
  | CallWarn (fname name : string) (params : option string)
  | CallKind (ymlfname name : string) (params : option string).

(** One call after the other, whatever each call gives. *)
Fixpoint calls (xmls : gmap string xml) (l : list call) (s : kstate)
  : kstate :=
  match l with
  | [] => s
  | CallXml n p :: l' =>
      calls xmls l' (mkK (doxy_xml xmls n p (db s)).2 (kind_cache s))
  | CallWarn f n p :: l' =>
      calls xmls l' (mkK (doxy_warn f n p (db s)).2 (kind_cache s))
  | CallKind f n p :: l' => calls xmls l' (doxy_kind xmls f n p s).2
  end.

(** A member that [doxy_xml] files under its parameters: its [kind],
    if it has one, is [function] or [friend]. *)
Definition fn_like (x : xml) : bool :=
  negb match Xml.attr "kind" (attrs_of x) with
       | Some k => negb (String.eqb k "function")
                   && negb (String.eqb k "friend")
       | None => false
       end.

(** An entry of [__DOXY_DICT] all of whose items are such members. *)
Definition filed (v : value) : Prop :=
  match v with
  | VNone => True
  | VTag _ a => map_Forall (fun _ x => fn_like x = true) a
  | VDict d => map_Forall (fun _ x => fn_like x = true) d
  end.

Definition dict_sound (d : Doxy.state) : Prop :=
  map_Forall (fun _ v => filed v) (DOXY_DICT d).

(** What a lookup under a parameter string gives. *)
Definition under (r : result) : Prop :=
  match r with
  | RTag x => fn_like x = true
  | RStr _ => True
  | RValue _ => False
  end.

Definition db_sound (d : Doxy.state) : Prop :=
  dict_sound d /\
  forall n p r, xml_cache d !! (n, Some p) = Some r -> under r.

Definition sound (s : kstate) : Prop :=
  db_sound (db s) /\
  forall f n p k,
    kind_cache s !! (f, n, Some p) = Some k -> k = KindStr "function".

(** Between two states of the database: if the first is sound, so is
    the second. *)
Definition stays_sound (s s' : Doxy.state) : Prop :=
  dict_sound s -> dict_sound s'.

End Kinds.

(** * Properties *)

(** ** Appending strings *)

Lemma append_nil_r (s : string) : s +:+ EmptyString = s.
Proof.
  induction s as [|c s IH]; [done|].
  change (String c (s +:+ EmptyString) = String c s). by rewrite IH.
Qed.

Lemma append_assoc (a b c : string) : (a +:+ b) +:+ c = a +:+ b +:+ c.
Proof.
  induction a as [|x a IH]; [done|].
  change (String x ((a +:+ b) +:+ c) = String x (a +:+ b +:+ c)).
  by rewrite IH.
Qed.

Lemma startswith_drop pre p :
  Str.startswith pre p = true -> p = pre +:+ Str.drop (String.length pre) p.
Proof.
  revert p. induction pre as [|a pre IH]; intros [|b p]; cbn; try done.
  destruct (Ascii.eqb_spec a b) as [->|]; [|done].
  intros H. change (String b p = String b (pre +:+ Str.drop (String.length pre) p)).
  f_equal. by apply IH.
Qed.

(** ** Computations that return *)

Lemma bind_ret_inv {S A B} (m : M S A) (k : A -> M S B) s b s' :
  bind m k s = (Ret b, s') ->
  exists a s1, m s = (Ret a, s1) /\ k a s1 = (Ret b, s').
Proof.
  unfold bind. destruct (m s) as [[a|e] s1]; [|done]. intros H. by exists a, s1.
Qed.

(** ** The string functions on examples *)

Example filename_ex1 :
  filename_from_cppname "FroidurePin::operator ==" = "froidurepin__operator___".
Proof. reflexivity. Qed.

Example filename_ex2 :
  filename_from_cppname "Foo::operator<<" = "foo__insertion_operator".
Proof. reflexivity. Qed.

Example normalize_ex1 :
  doxy_normalize_yml_params "std::function<void(bool&)>"
  = "std::function< void(bool &)>".
Proof. reflexivity. Qed.

Example normalize_ex2 :
  doxy_normalize_yml_params "  int ,   T&&  x,std::vector<int>const&"
  = "int,T && x,std::vector< int >const &".
Proof. reflexivity. Qed.

(** ** Signatures of yml entries *)

Module SignatureFacts.

Import Str.

Lemma occurs_rev_onto a s acc :
  occurs a (Str.rev_onto s acc) = occurs a s || occurs a acc.
Proof.
  revert acc. induction s as [|c s IH]; intros acc; cbn; [done|].
  rewrite IH. cbn. by destruct (Ascii.eqb a c), (occurs a s).
Qed.

Lemma occurs_rev a s : occurs a (Str.rev s) = occurs a s.
Proof. unfold Str.rev. rewrite occurs_rev_onto. cbn. apply orb_false_r. Qed.

Lemma occurs_lstrip a s : occurs a s = false -> occurs a (Str.lstrip s) = false.
Proof.
  induction s as [|c s IH]; [done|]. cbn [Str.lstrip].
  destruct (Char.isspace c); [|done].
  cbn. intros [_ H]%orb_false_elim. by apply IH.
Qed.

Lemma occurs_strip a s : occurs a s = false -> occurs a (Str.strip s) = false.
Proof.
  intros H. unfold Str.strip, Str.rstrip.
  rewrite occurs_rev. apply occurs_lstrip. rewrite occurs_rev.
  by apply occurs_lstrip.
Qed.

Lemma find_char_none a s i :
  occurs a s = false -> Str.find_from (String a EmptyString) s i = -1.
Proof.
  revert i. induction s as [|c s IH]; intros i; [done|].
  cbn. intros [Hc Hs]%orb_false_elim. rewrite Hc. by apply IH.
Qed.

(** C6.  An entry without an opening parenthesis gives its stripped
    text and [None]; [foo(int, double)] gives [foo] and [(int,double)];
    [bar] gives [bar] and [None]; and the template entry gives the bare
    name [foo] with a parameter string. *)
Theorem extract_yml_func_signature_examples (s : string) :
  (occurs "(" s = false ->
   extract_yml_func_signature s = (Str.strip s, None)) /\
  extract_yml_func_signature "foo(int, double)" = ("foo", Some "(int,double)")
  /\
  extract_yml_func_signature "bar" = ("bar", None) /\
  exists params,
    extract_yml_func_signature "template <typename T> foo(T x)"
    = ("foo", Some params).
Proof.
  split; [|split; [reflexivity|split; [reflexivity|by eexists]]].
  intros H%occurs_strip. unfold extract_yml_func_signature.
  unfold Str.find. by rewrite (find_char_none _ _ _ H).
Qed.

Lemma extract_yml_func_signature_examples_witness :
  extract_yml_func_signature "  size  " = ("size", None).
Proof.
  by apply (extract_yml_func_signature_examples "  size  ").
Defined.

End SignatureFacts.

(** ** File names *)

Module FilenameFacts.
Import Char.

Lemma lower_plain c : Char.isword c = true -> plain (Char.lower c) = true.
Proof. destruct c as [[] [] [] [] [] [] [] []]; vm_compute; congruence. Qed.

Lemma plain_lower c : plain c = true -> Char.lower c = c.
Proof.
  unfold plain, Char.lower. intros [_ H]%andb_true_iff.
  by destruct (Char.isupper c).
Qed.

Lemma plain_word c : plain c = true -> Char.isword c = true.
Proof. unfold plain. by intros [H _]%andb_true_iff. Qed.

Lemma sub_nonword_word s : Str.all Char.isword (Re.sub Re.nonword "_" s) = true.
Proof.
  unfold Re.sub. induction s as [|c s IH]; [done|].
  cbn [Re.sub_go Re.nonword]. destruct (Char.isword c) eqn:E.
  - cbn [Str.all]. by rewrite E, IH.
  - change (Str.all Char.isword
              (String "_" (Re.sub_go Re.nonword "_" 0 s)) = true).
    cbn [Str.all]. by rewrite IH.
Qed.

Lemma lower_all_plain s :
  Str.all Char.isword s = true -> Str.all plain (Str.lower s) = true.
Proof.
  induction s as [|c s IH]; [done|].
  change (Str.lower (String c s)) with (String (lower c) (Str.lower s)).
  cbn [Str.all]. intros [Hc Hs]%andb_true_iff. by rewrite lower_plain, IH.
Qed.

Lemma lower_fixed s : Str.all plain s = true -> Str.lower s = s.
Proof.
  induction s as [|c s IH]; [done|].
  change (Str.lower (String c s)) with (String (lower c) (Str.lower s)).
  cbn [Str.all]. intros [Hc Hs]%andb_true_iff. by rewrite plain_lower, IH.
Qed.

(** Where a pattern never matches, [re.sub] changes nothing. *)
Lemma sub_no_match (Q : ascii -> bool) (m : Re.matcher) rep :
  (forall t, Str.all Q t = true -> m t = None) ->
  forall s, Str.all Q s = true -> Re.sub m rep s = s.
Proof.
  intros Hm. unfold Re.sub. induction s as [|c s IH]; [done|].
  intros H. cbn [Re.sub_go]. rewrite (Hm _ H).
  cbn in H. apply andb_true_iff in H as [_ H]. by rewrite IH.
Qed.

Lemma all_prefix Q p : forall t,
  Str.startswith p t = true -> Str.all Q t = true -> Str.all Q p = true.
Proof.
  induction p as [|a p IH]; intros [|b t]; cbn; try done.
  destruct (Ascii.eqb_spec a b) as [->|]; [|done].
  intros Hp [Hb Ht]%andb_true_iff. rewrite Hb. by apply (IH t).
Qed.

Lemma lit_no_match Q p t :
  Str.all Q p = false -> Str.all Q t = true -> Re.lit p t = None.
Proof.
  intros Hp Ht. unfold Re.lit. destruct (Str.startswith p t) eqn:E; [|done].
  by rewrite (all_prefix Q p t E Ht) in Hp.
Qed.

Lemma all_drop Q k : forall s,
  Str.all Q s = true -> Str.all Q (Str.drop k s) = true.
Proof.
  induction k as [|k IH]; intros [|c s]; cbn; try done.
  intros [_ H]%andb_true_iff. by apply IH.
Qed.

Lemma operator_star_no_match t :
  Str.all plain t = true -> Re.operator_star t = None.
Proof.
  intros Ht. unfold Re.operator_star.
  destruct (Str.startswith "operator" t); [|done].
  pose proof (all_drop plain (Re.spaces (Str.drop 8 t)) _
                (all_drop plain 8 _ Ht)) as H.
  destruct (Str.drop (Re.spaces (Str.drop 8 t)) (Str.drop 8 t))
    as [|c r]; [done|].
  cbn in H. apply andb_true_iff in H as [H _].
  destruct c as [[] [] [] [] [] [] [] []]; try done.
Qed.

Lemma operator_less_end_no_match t :
  Str.all plain t = true -> Re.operator_less_end t = None.
Proof.
  intros Ht. unfold Re.operator_less_end.
  destruct (Str.startswith "operator<" t) eqn:E; [|done].
  by pose proof (all_prefix plain _ _ E Ht).
Qed.

Lemma nonword_no_match t : Str.all plain t = true -> Re.nonword t = None.
Proof.
  destruct t as [|c t]; [done|]. cbn.
  intros [Hc%plain_word _]%andb_true_iff. by rewrite Hc.
Qed.

Lemma sub_lit_fixed p rep s :
  Str.all plain p = false -> Str.all plain s = true ->
  Re.sub (Re.lit p) rep s = s.
Proof.
  intros Hp. apply (sub_no_match plain). intros t. by apply lit_no_match.
Qed.

(** A name made of plain characters is its own file name. *)
Lemma filename_fixed s :
  Str.all plain s = true -> filename_from_cppname s = s.
Proof.
  intros H. unfold filename_from_cppname.
  rewrite (sub_no_match plain Re.operator_star _ operator_star_no_match s H).
  rewrite !(sub_lit_fixed _ _ s) by (exact H || reflexivity).
  rewrite (sub_no_match plain _ _ operator_less_end_no_match s H).
  rewrite !(sub_lit_fixed _ _ s) by (exact H || reflexivity).
  rewrite (sub_no_match plain _ _ nonword_no_match s H).
  by apply lower_fixed.
Qed.

Lemma filename_plain x : Str.all plain (filename_from_cppname x) = true.
Proof. unfold filename_from_cppname. apply lower_all_plain, sub_nonword_word. Qed.

(** *** The same function on code points *)

Lemma code_eqb a b : (code a =? code b)%N = Ascii.eqb a b.
Proof.
  destruct (Ascii.eqb_spec a b) as [->|Hne]; [apply N.eqb_refl|].
  apply N.eqb_neq. intros H. apply Hne. unfold code in H.
  apply (f_equal ascii_of_N) in H. by rewrite !ascii_N_embedding in H.
Qed.

Lemma code_latin1 c : Wide.latin1 (code c) = true.
Proof. apply N.ltb_lt, N_ascii_bounded. Qed.

Lemma code_back c : ascii_of_N (code c) = c.
Proof. apply ascii_N_embedding. Qed.

Lemma codes_app a b : Wide.codes (a +:+ b) = Wide.codes a ++ Wide.codes b.
Proof.
  induction a as [|c a IH]; [done|].
  change (String c a +:+ b) with (String c (a +:+ b)). cbn. by rewrite IH.
Qed.

Lemma codes_length s : length (Wide.codes s) = String.length s.
Proof. induction s as [|c s IH]; [done|]. cbn. by rewrite IH. Qed.

Lemma codes_drop n : forall s,
  drop n (Wide.codes s) = Wide.codes (Str.drop n s).
Proof. induction n as [|n IH]; intros [|c s]; cbn; done. Qed.

Lemma codes_startswith p : forall s,
  Wide.startswith (Wide.codes p) (Wide.codes s) = Str.startswith p s.
Proof.
  induction p as [|a p IH]; intros [|b s]; cbn; try done.
  by rewrite code_eqb, IH.
Qed.

Lemma codes_spaces s : Wide.spaces (Wide.codes s) = Re.spaces s.
Proof.
  induction s as [|c s IH]; [done|]. cbn. unfold Wide.isspace.
  rewrite code_latin1, code_back, IH. done.
Qed.

Lemma codes_known s : forallb Wide.known (Wide.codes s) = true.
Proof.
  induction s as [|c s IH]; [done|]. cbn [Wide.codes forallb].
  rewrite IH. unfold Wide.known. by rewrite code_latin1.
Qed.

Lemma codes_lower s : Wide.lower (Wide.codes s) = Wide.codes (Str.lower s).
Proof.
  induction s as [|c s IH]; [done|].
  change (Str.lower (String c s)) with (String (lower c) (Str.lower s)).
  cbn. unfold Wide.lower in IH. rewrite IH. unfold Wide.lower_char.
  by rewrite code_latin1, code_back.
Qed.

(** [re.sub] on the code points of a [string] is [re.sub] on the
    [string], for a pattern that matches alike. *)
Lemma codes_sub (wm : Wide.matcher) (m : Re.matcher) rep :
  (forall t, wm (Wide.codes t) = m t) ->
  forall s, Wide.sub wm (Wide.codes rep) (Wide.codes s)
            = Wide.codes (Re.sub m rep s).
Proof.
  intros Hm s. unfold Wide.sub, Re.sub. generalize 0%nat as skip.
  induction s as [|c s IH]; intros skip; [done|].
  cbn [Wide.codes Wide.sub_go Re.sub_go]. destruct skip as [|k]; [|apply IH].
  change (Char.code c :: Wide.codes s) with (Wide.codes (String c s)).
  rewrite Hm. destruct (m (String c s)) as [[|k]|].
  - cbn. by rewrite IH.
  - by rewrite codes_app, IH.
  - cbn. by rewrite IH.
Qed.

Lemma codes_lit p t : Wide.lit p (Wide.codes t) = Re.lit p t.
Proof. unfold Wide.lit, Re.lit. by rewrite codes_startswith. Qed.

Lemma codes_operator_star t :
  Wide.operator_star (Wide.codes t) = Re.operator_star t.
Proof.
  unfold Wide.operator_star, Re.operator_star.
  rewrite codes_startswith. destruct (Str.startswith "operator" t); [|done].
  cbn zeta. rewrite !codes_drop, codes_spaces.
  destruct (Str.drop _ (Str.drop 8 t)) as [|c r]; [done|].
  cbn [Wide.codes]. change 42%N with (code "*"). rewrite code_eqb.
  destruct (Ascii.eqb_spec c "*") as [->|Hne]; [done|].
  by destruct c as [[] [] [] [] [] [] [] []].
Qed.

Lemma codes_at_end t : Wide.at_end (Wide.codes t) = Re.at_end t.
Proof.
  destruct t as [|c [|c' t]]; try done. cbn.
  change 10%N with (code "010"). apply code_eqb.
Qed.

Lemma codes_operator_less_end t :
  Wide.operator_less_end (Wide.codes t) = Re.operator_less_end t.
Proof.
  unfold Wide.operator_less_end, Re.operator_less_end.
  by rewrite codes_startswith, codes_drop, codes_at_end.
Qed.

Lemma codes_nonword t : Wide.nonword (Wide.codes t) = Re.nonword t.
Proof.
  destruct t as [|c t]; [done|]. cbn. unfold Wide.isword.
  by rewrite code_latin1, code_back.
Qed.

(** On the code points of a [string], the function on code points is
    the function on [string]. *)
Lemma filename_codes s :
  Wide.filename_from_cppname (Wide.codes s)
  = Some (Wide.codes (filename_from_cppname s)).
Proof.
  unfold Wide.filename_from_cppname, filename_from_cppname.
  rewrite codes_known. cbn zeta.
  rewrite (codes_sub _ _ _ codes_operator_star).
  rewrite !(codes_sub _ _ _ (codes_lit _)).
  rewrite (codes_sub _ _ _ codes_operator_less_end).
  rewrite !(codes_sub _ _ _ (codes_lit _)).
  rewrite (codes_sub _ _ _ codes_nonword).
  by rewrite codes_lower.
Qed.

(** A string of code points up to U+00FF is a [string]. *)
Lemma latin1_codes u :
  forallb Wide.latin1 u = true -> exists s, u = Wide.codes s.
Proof.
  induction u as [|c u IH]; [by exists EmptyString|]. cbn.
  intros [Hc Hu]%andb_true_iff. destruct (IH Hu) as [s ->].
  exists (String (ascii_of_N c) s). cbn. unfold code.
  rewrite N_ascii_embedding; [done|]. by apply N.ltb_lt.
Qed.

(** C9, as stated, fails beyond U+00FF.  The file name of the one
    character U+0130 is its lower-case form U+0069 U+0307, and the file
    name of that is U+0069 U+005F: the combining dot is no word
    character, and the second pass replaces it. *)
Lemma filename_from_cppname_not_idempotent :
  Wide.filename_from_cppname [304%N] = Some [105%N; 775%N] /\
  Wide.filename_from_cppname [105%N; 775%N] = Some [105%N; 95%N] /\
  Wide.filename_from_cppname [105%N; 775%N] <> Some [105%N; 775%N].
Proof.
  split; [vm_compute; reflexivity|]. split; [vm_compute; reflexivity|].
  vm_compute. discriminate.
Qed.

(** C9, amended.  On a string of code points up to U+00FF,
    [filename_from_cppname] applied twice gives what it gives applied
    once; and equal names give equal file names. *)
Theorem filename_from_cppname_idempotent (x : Wide.ustring) :
  forallb Wide.latin1 x = true ->
  (exists y, Wide.filename_from_cppname x = Some y /\
             Wide.filename_from_cppname y = Some y) /\
  forall x', x = x' ->
    Wide.filename_from_cppname x = Wide.filename_from_cppname x'.
Proof.
  intros [s ->]%latin1_codes. split; [|by intros x' ->].
  exists (Wide.codes (filename_from_cppname s)).
  rewrite !filename_codes. split; [done|].
  by rewrite (filename_fixed _ (filename_plain s)).
Qed.

Lemma filename_from_cppname_idempotent_witness :
  exists y,
    Wide.filename_from_cppname (Wide.codes "FroidurePin::operator<<")
    = Some y /\
    Wide.filename_from_cppname y = Some y /\
    y = Wide.codes "froidurepin__insertion_operator".
Proof.
  destruct (filename_from_cppname_idempotent
              (Wide.codes "FroidurePin::operator<<")
              ltac:(vm_compute; reflexivity)) as [(y & H1 & H2) _].
  exists y. split; [exact H1|]. split; [exact H2|].
  vm_compute in H1. by injection H1 as <-.
Defined.

End FilenameFacts.

(** ** Normalizing a parameter list twice *)

Module NormalizeFacts.
Import Spacing.

(** *** Reversal and stripping *)

Lemma rev_onto_app s acc : Str.rev_onto s acc = Str.rev s +:+ acc.
Proof.
  unfold Str.rev. revert acc. induction s as [|c s IH]; intros acc; [done|].
  cbn [Str.rev_onto]. rewrite (IH (String c acc)), (IH (String c EmptyString)).
  by rewrite append_assoc.
Qed.

Lemma rev_cons c s : Str.rev (String c s) = Str.rev s +:+ String c EmptyString.
Proof. unfold Str.rev at 1. cbn [Str.rev_onto]. apply rev_onto_app. Qed.

Lemma rev_app s t : Str.rev (s +:+ t) = Str.rev t +:+ Str.rev s.
Proof.
  induction s as [|c s IH].
  - change (Str.rev t = Str.rev t +:+ EmptyString). by rewrite append_nil_r.
  - change (Str.rev (String c (s +:+ t)) = Str.rev t +:+ Str.rev (String c s)).
    by rewrite !rev_cons, IH, append_assoc.
Qed.

Lemma rev_involutive s : Str.rev (Str.rev s) = s.
Proof.
  induction s as [|c s IH]; [done|]. by rewrite rev_cons, rev_app, IH.
Qed.

Lemma lstrip_starts s : starts_ns (Str.lstrip s) = true.
Proof.
  induction s as [|c s IH]; [done|]. cbn [Str.lstrip].
  destruct (Char.isspace c) eqn:E; [done|]. cbn. unfold nonspace. by rewrite E.
Qed.

Lemma lstrip_fixed s : starts_ns s = true -> Str.lstrip s = s.
Proof.
  destruct s as [|c s]; [done|]. cbn. unfold nonspace.
  by destruct (Char.isspace c).
Qed.

(** [s] ends as [rev s] starts. *)
Lemma ends_ns_snoc s c : ends_ns (s +:+ String c EmptyString) = nonspace c.
Proof.
  induction s as [|b s IH]; [done|].
  change (ends_ns (String b (s +:+ String c EmptyString)) = nonspace c).
  cbn [ends_ns]. by destruct s.
Qed.

Lemma ends_rev s : ends_ns (Str.rev s) = starts_ns s.
Proof. destruct s as [|c s]; [done|]. rewrite rev_cons. apply ends_ns_snoc. Qed.

Lemma starts_rev s : starts_ns (Str.rev s) = ends_ns s.
Proof. by rewrite <- ends_rev, rev_involutive. Qed.

Lemma rstrip_fixed s : ends_ns s = true -> Str.rstrip s = s.
Proof.
  intros H. unfold Str.rstrip. rewrite lstrip_fixed by (by rewrite starts_rev).
  apply rev_involutive.
Qed.

Lemma lstrip_ends s : ends_ns s = true -> ends_ns (Str.lstrip s) = true.
Proof.
  induction s as [|c s IH]; [done|]. cbn [Str.lstrip].
  destruct (Char.isspace c) eqn:E; [|done].
  destruct s as [|d s]; [done|]. intros H. by apply IH.
Qed.

Lemma strip_starts s : starts_ns (Str.strip s) = true.
Proof.
  unfold Str.strip, Str.rstrip. rewrite starts_rev.
  apply lstrip_ends. rewrite ends_rev. apply lstrip_starts.
Qed.

Lemma strip_ends s : ends_ns (Str.strip s) = true.
Proof. unfold Str.strip, Str.rstrip. rewrite ends_rev. apply lstrip_starts. Qed.

Lemma strip_fixed s :
  starts_ns s = true -> ends_ns s = true -> Str.strip s = s.
Proof.
  intros H1 H2. unfold Str.strip. rewrite (lstrip_fixed s H1).
  by apply rstrip_fixed.
Qed.

(** *** Substitution, one character at a time *)

Lemma sub_go_skip m rep k : forall s,
  Re.sub_go m rep k s = Re.sub m rep (Str.drop k s).
Proof.
  unfold Re.sub. induction k as [|k IH]; intros [|c s]; try done.
  cbn [Re.sub_go Str.drop]. apply IH.
Qed.

Lemma sub_cons m rep c s :
  Re.sub m rep (String c s)
  = match m (String c s) with
    | Some (S k) => rep +:+ Re.sub m rep (Str.drop k s)
    | _ => String c (Re.sub m rep s)
    end.
Proof.
  unfold Re.sub at 1. cbn [Re.sub_go].
  destruct (m (String c s)) as [[|k]|]; try done. by rewrite sub_go_skip.
Qed.

Lemma drop_spaces s : Str.drop (Re.spaces s) s = Str.lstrip s.
Proof.
  induction s as [|c s IH]; [done|]. cbn.
  by destruct (Char.isspace c).
Qed.

Lemma spaces_zero s : starts_ns s = true -> Re.spaces s = O.
Proof.
  destruct s as [|c s]; [done|]. cbn. unfold nonspace.
  by destruct (Char.isspace c).
Qed.

Lemma string_len_ind (P : string -> Prop) :
  (forall s, (forall t, (String.length t < String.length s)%nat -> P t) -> P s) ->
  forall s, P s.
Proof.
  intros H s. remember (String.length s) as n eqn:Hn.
  revert s Hn. induction n as [n IH] using lt_wf_ind. intros s ->.
  apply H. intros t Ht. by apply (IH (String.length t)).
Qed.

Lemma lstrip_length s : (String.length (Str.lstrip s) <= String.length s)%nat.
Proof.
  induction s as [|c s IH]; [done|]. cbn [Str.lstrip].
  destruct (Char.isspace c); cbn; lia.
Qed.

(** *** Neighbours *)

Lemma pairs_cons Q c s :
  pairs Q (String c s)
  = match s with
    | String d _ => Q c d
    | EmptyString => true
    end && pairs Q s.
Proof. by destruct s. Qed.

Lemma pairs_tail Q c s : pairs Q (String c s) = true -> pairs Q s = true.
Proof. rewrite pairs_cons. by intros [_ H]%andb_true_iff. Qed.

Lemma pairs_lstrip Q s : pairs Q s = true -> pairs Q (Str.lstrip s) = true.
Proof.
  induction s as [|c s IH]; [done|]. cbn [Str.lstrip].
  destruct (Char.isspace c); [|done]. intros H. by apply IH, (pairs_tail Q c).
Qed.

Lemma apart_cons c s :
  nonspace c = true \/ starts_ns s = true ->
  pairs apart s = true -> pairs apart (String c s) = true.
Proof.
  intros H Hs. rewrite pairs_cons, Hs, andb_true_r.
  destruct s as [|d s]; [done|]. cbn [starts_ns] in H.
  unfold apart, nonspace in *.
  destruct H as [H|H]; destruct (Char.isspace c), (Char.isspace d); done.
Qed.

(** *** Collapsing white space: [\s{2,}] *)

Lemma collapse_cons c s :
  collapse (String c s)
  = if Char.isspace c && negb (starts_ns s)
    then String " " (collapse (Str.lstrip s))
    else String c (collapse s).
Proof.
  unfold collapse. rewrite sub_cons. unfold Re.spaces2.
  cbn [Re.spaces]. destruct (Char.isspace c) eqn:Ec; [|done].
  destruct s as [|d s]; [done|]. cbn [Re.spaces starts_ns].
  unfold nonspace. destruct (Char.isspace d) eqn:Ed; [|done].
  cbn [Nat.leb negb andb Str.lstrip]. rewrite Ed.
  change (String " " (Re.sub Re.spaces2 " "
            (Str.drop (S (Re.spaces s)) (String d s)))
          = String " " (Re.sub Re.spaces2 " " (Str.lstrip s))).
  cbn [Str.drop]. by rewrite drop_spaces.
Qed.

Lemma collapse_starts s : starts_ns (collapse s) = starts_ns s.
Proof.
  destruct s as [|c s]; [done|]. rewrite collapse_cons.
  cbn [starts_ns]. unfold nonspace.
  destruct (Char.isspace c) eqn:E, (starts_ns s); cbn; unfold nonspace;
    by rewrite ?E.
Qed.

Lemma collapse_apart : forall s, pairs apart (collapse s) = true.
Proof.
  induction s as [s IH] using string_len_ind.
  destruct s as [|c s]; [done|]. rewrite collapse_cons.
  destruct (Char.isspace c && negb (starts_ns s)) eqn:E.
  - apply apart_cons.
    + right. rewrite collapse_starts. apply lstrip_starts.
    + apply IH. pose proof (lstrip_length s). cbn. lia.
  - apply apart_cons; [|apply IH; cbn; lia].
    rewrite collapse_starts. unfold nonspace.
    destruct (Char.isspace c), (starts_ns s); auto.
Qed.

Lemma collapse_fixed s : pairs apart s = true -> collapse s = s.
Proof.
  induction s as [|c s IH]; [done|]. rewrite pairs_cons, collapse_cons.
  intros [Hc Hs]%andb_true_iff. rewrite (IH Hs).
  destruct s as [|d s]; [by rewrite andb_false_r|].
  cbn [starts_ns]. unfold apart, nonspace in *.
  by destruct (Char.isspace c), (Char.isspace d).
Qed.

Lemma ends_cons c t : t <> EmptyString -> ends_ns (String c t) = ends_ns t.
Proof. by destruct t. Qed.

Lemma lstrip_nonempty s :
  s <> EmptyString -> ends_ns s = true -> Str.lstrip s <> EmptyString.
Proof.
  induction s as [|c s IH]; [done|]. intros _. cbn [Str.lstrip].
  destruct (Char.isspace c) eqn:E; [|done].
  destruct s as [|d s].
  - cbn. unfold nonspace. by rewrite E.
  - intros H. by apply IH.
Qed.

Lemma collapse_nonempty s : s <> EmptyString -> collapse s <> EmptyString.
Proof.
  destruct s as [|c s]; [done|]. intros _. rewrite collapse_cons.
  by destruct (_ && _).
Qed.

Lemma collapse_ends : forall s, ends_ns s = true -> ends_ns (collapse s) = true.
Proof.
  induction s as [s IH] using string_len_ind.
  destruct s as [|c s]; [done|]. rewrite collapse_cons. intros H.
  destruct s as [|d s].
  - by rewrite andb_false_r.
  - rewrite ends_cons in H by done.
    destruct (Char.isspace c && negb (starts_ns (String d s))).
    + rewrite ends_cons.
      * apply IH; [|by apply lstrip_ends].
        pose proof (lstrip_length (String d s)). cbn in *. lia.
      * by apply collapse_nonempty, lstrip_nonempty.
    + rewrite ends_cons by (by apply collapse_nonempty).
      apply IH; [cbn; lia|done].
Qed.

(** *** The four insertions are one *)

Lemma insert_space_where B A s :
  Re.insert_space B A s = insert_where (fun b a => B b && A a) s.
Proof.
  induction s as [|b s IH]; [done|]. cbn [Re.insert_space insert_where].
  by rewrite IH.
Qed.

Lemma insert_where_ext R R' s :
  (forall b a, R b a = R' b a) -> insert_where R s = insert_where R' s.
Proof.
  intros H. induction s as [|b s IH]; [done|]. cbn [insert_where].
  rewrite IH. destruct s as [|a s]; [done|]. by rewrite H.
Qed.

Lemma insert_where_cons R b s :
  insert_where R (String b s)
  = String b
      match s with
      | String a _ =>
          if R b a then String " " (insert_where R s) else insert_where R s
      | EmptyString => EmptyString
      end.
Proof. done. Qed.

(** A second insertion that wants no white space on either side finds
    the places that the first one left, and no new ones. *)
Lemma insert_where_twice R1 R2 s :
  (forall b a, R2 b a = true -> nonspace b = true /\ nonspace a = true) ->
  insert_where R2 (insert_where R1 s)
  = insert_where (fun b a => R1 b a || R2 b a) s.
Proof.
  intros H2.
  assert (forall b, R2 b " "%char = false) as Hr.
  { intros b. destruct (R2 b " "%char) eqn:E; [|done]. by apply H2 in E as [_ ?]. }
  assert (forall a, R2 " "%char a = false) as Hl.
  { intros a. destruct (R2 " "%char a) eqn:E; [|done]. by apply H2 in E as [? _]. }
  induction s as [|b s IH]; [done|].
  destruct s as [|a s]; [done|].
  rewrite (insert_where_cons R1 b),
    (insert_where_cons (fun b a => R1 b a || R2 b a) b).
  rewrite <- IH.
  assert (exists W, insert_where R1 (String a s) = String a W) as [W ->]
    by (eexists; apply insert_where_cons).
  destruct (R1 b a) eqn:E1; cbn [orb].
  - cbn [insert_where]. by rewrite Hr, Hl.
  - by cbn [insert_where].
Qed.

Lemma is_lt_nonspace c : is_lt c = true -> nonspace c = true.
Proof. by intros ->%Ascii.eqb_eq. Qed.

Lemma is_gt_nonspace c : is_gt c = true -> nonspace c = true.
Proof. by intros ->%Ascii.eqb_eq. Qed.

Lemma is_amp_nonspace c : is_amp c = true -> nonspace c = true.
Proof. by intros ->%Ascii.eqb_eq. Qed.

Lemma nonamp_nonspace c : nonspace_nonamp c = true -> nonspace c = true.
Proof. unfold nonspace_nonamp. by intros [H _]%andb_true_iff. Qed.

Lemma need_nonspace b a :
  need b a = true -> nonspace b = true /\ nonspace a = true.
Proof.
  unfold need. intros H.
  repeat (apply orb_true_iff in H as [H|H]);
    apply andb_true_iff in H as [Hb Ha];
    auto using is_lt_nonspace, is_gt_nonspace, is_amp_nonspace,
      nonamp_nonspace.
Qed.

Lemma four_insertions s :
  Re.insert_space is_amp nonspace_nonamp
    (Re.insert_space nonspace_nonamp is_amp
       (Re.insert_space nonspace is_gt
          (Re.insert_space is_lt nonspace s)))
  = insert_where need s.
Proof.
  rewrite !insert_space_where.
  rewrite (insert_where_twice (fun b a => is_lt b && nonspace a)
             (fun b a => nonspace b && is_gt a))
    by (intros b a [Hb Ha]%andb_true_iff; split; auto using is_gt_nonspace).
  rewrite (insert_where_twice _ (fun b a => nonspace_nonamp b && is_amp a))
    by (intros b a [Hb Ha]%andb_true_iff;
        split; auto using is_amp_nonspace, nonamp_nonspace).
  rewrite (insert_where_twice _ (fun b a => is_amp b && nonspace_nonamp a))
    by (intros b a [Hb Ha]%andb_true_iff;
        split; auto using is_amp_nonspace, nonamp_nonspace).
  by apply insert_where_ext.
Qed.

Lemma normalize_spacing_eq s :
  normalize_spacing s
  = tighten (insert_where need (collapse (Str.strip s))).
Proof. unfold normalize_spacing. by rewrite four_insertions. Qed.

Lemma insert_where_starts R s : starts_ns (insert_where R s) = starts_ns s.
Proof. by destruct s. Qed.

Lemma insert_where_nonempty R s :
  s <> EmptyString -> insert_where R s <> EmptyString.
Proof. by destruct s. Qed.

Lemma insert_where_ends s : ends_ns (insert_where need s) = ends_ns s.
Proof.
  induction s as [|b s IH]; [done|]. rewrite insert_where_cons.
  destruct s as [|a s]; [done|].
  rewrite (ends_cons b (String a s)) by done.
  destruct (need b a).
  - rewrite ends_cons by done.
    rewrite ends_cons by (by apply insert_where_nonempty). done.
  - rewrite ends_cons by (by apply insert_where_nonempty). done.
Qed.

Lemma need_space_r b : need b " "%char = false.
Proof. destruct (need b " "%char) eqn:E; [|done]. by apply need_nonspace in E as [_ ?]. Qed.

Lemma need_space_l a c : Char.isspace c = true -> need c a = false.
Proof.
  intros Hc. destruct (need c a) eqn:E; [|done].
  apply need_nonspace in E as [E _]. unfold nonspace in E. by rewrite Hc in E.
Qed.

Lemma insert_where_spaced s :
  pairs apart s = true -> pairs spaced (insert_where need s) = true.
Proof.
  induction s as [|b s IH]; [done|]. rewrite pairs_cons, insert_where_cons.
  destruct s as [|a s]; [done|]. intros [Hba Hs]%andb_true_iff.
  specialize (IH Hs). rewrite insert_where_cons in IH.
  destruct (need b a) eqn:E.
  - rewrite pairs_cons, pairs_cons, insert_where_cons, IH, !andb_true_r.
    apply need_nonspace in E as [Hb Ha]. unfold spaced, apart.
    rewrite need_space_r, (need_space_l a " "%char) by done.
    unfold nonspace in *.
    by destruct (Char.isspace b), (Char.isspace a).
  - rewrite pairs_cons, insert_where_cons, IH, andb_true_r.
    unfold spaced. by rewrite Hba, E.
Qed.

(** *** Removing white space around commas: [\s*,\s*] *)

Lemma comma_cons c s :
  Re.comma (String c s)
  = if Char.isspace c then
      match Str.lstrip s with
      | String "," r => Some (S (Re.spaces s) + 1 + Re.spaces r)%nat
      | _ => None
      end
    else if is_comma c then Some (S (Re.spaces s)) else None.
Proof.
  unfold Re.comma. cbn [Re.spaces]. destruct (Char.isspace c) eqn:Es.
  - cbn [Str.drop]. by rewrite drop_spaces.
  - cbn [Str.drop]. clear Es. by destruct c as [[] [] [] [] [] [] [] []].
Qed.

Lemma comma_not_space c : is_comma c = true -> Char.isspace c = false.
Proof. by intros ->%Ascii.eqb_eq. Qed.

Lemma tighten_comma s :
  tighten (String "," s) = String "," (tighten (Str.lstrip s)).
Proof.
  unfold tighten. rewrite sub_cons, comma_cons. cbn [Char.isspace is_comma].
  change (String "," (Re.sub Re.comma "," (Str.drop (Re.spaces s) s))
          = String "," (Re.sub Re.comma "," (Str.lstrip s))).
  by rewrite drop_spaces.
Qed.

Lemma tighten_space_comma c r :
  Char.isspace c = true ->
  tighten (String c (String "," r)) = String "," (tighten (Str.lstrip r)).
Proof.
  intros Hc. unfold tighten. rewrite sub_cons, comma_cons, Hc.
  change (String "," (Re.sub Re.comma ","
            (Str.drop (S (Re.spaces r)) (String "," r)))
          = String "," (Re.sub Re.comma "," (Str.lstrip r))).
  cbn [Str.drop]. by rewrite drop_spaces.
Qed.

Lemma tighten_keep c s :
  is_comma c = false ->
  (Char.isspace c = true -> starts_ns s = true /\ starts_comma s = false) ->
  tighten (String c s) = String c (tighten s).
Proof.
  intros Hc Hs. unfold tighten. rewrite sub_cons, comma_cons, Hc.
  destruct (Char.isspace c); [|done].
  destruct (Hs eq_refl) as [H1 H2]. rewrite (lstrip_fixed s H1).
  destruct s as [|d s]; [done|]. cbn [starts_comma] in H2.
  by destruct d as [[] [] [] [] [] [] [] []].
Qed.

(** What [tighten] does at the head of a string without two white
    spaces in a row. *)
Lemma tighten_cases c s :
  pairs apart (String c s) = true ->
  (is_comma c = true /\
   tighten (String c s) = String "," (tighten (Str.lstrip s))) \/
  (Char.isspace c = true /\ exists r, s = String "," r /\
   tighten (String c s) = String "," (tighten (Str.lstrip r))) \/
  (is_comma c = false /\
   (Char.isspace c = true -> starts_ns s = true /\ starts_comma s = false) /\
   tighten (String c s) = String c (tighten s)).
Proof.
  intros Hap. destruct (is_comma c) eqn:Ec.
  - left. split; [done|]. apply Ascii.eqb_eq in Ec as ->. apply tighten_comma.
  - destruct (Char.isspace c) eqn:Es.
    + destruct s as [|d s].
      * right; right. split; [done|]. split; [done|].
        by apply tighten_keep.
      * rewrite pairs_cons in Hap. apply andb_true_iff in Hap as [Hcd _].
        unfold apart in Hcd. rewrite Es in Hcd. cbn in Hcd.
        destruct (is_comma d) eqn:Ed.
        -- right; left. split; [done|]. apply Ascii.eqb_eq in Ed as ->.
           exists s. split; [done|]. by apply tighten_space_comma.
        -- right; right. split; [done|].
           assert (starts_ns (String d s) = true
                   /\ starts_comma (String d s) = false) as H
             by (by cbn; unfold nonspace; destruct (Char.isspace d)).
           split; [done|]. by apply tighten_keep.
    + right; right. split; [done|]. split; [done|].
      apply tighten_keep; [done|]. by rewrite Es.
Qed.

Lemma pairs_weaken (Q Q' : ascii -> ascii -> bool) s :
  (forall b a, Q b a = true -> Q' b a = true) ->
  pairs Q s = true -> pairs Q' s = true.
Proof.
  intros H. induction s as [|b s IH]; [done|]. rewrite !pairs_cons.
  intros [Hb Hs]%andb_true_iff. rewrite (IH Hs), andb_true_r.
  destruct s as [|a s]; [done|]. by apply H.
Qed.

Lemma spaced_apart s : pairs spaced s = true -> pairs apart s = true.
Proof.
  apply pairs_weaken. unfold spaced. by intros b a [H _]%andb_true_iff.
Qed.

Lemma settled_apart s : pairs settled s = true -> pairs apart s = true.
Proof.
  apply pairs_weaken. unfold settled.
  by intros b a [[[H _]%andb_true_iff _]%andb_true_iff _]%andb_true_iff.
Qed.

Lemma settled_comma_l a : nonspace a = true -> settled "," a = true.
Proof.
  unfold settled, apart, nonspace. intros H.
  destruct (Char.isspace a); [done|]. cbn. by rewrite orb_true_r.
Qed.

Lemma settled_comma_r b :
  Char.isspace b = false -> settled b "," = true.
Proof.
  unfold settled, apart. intros ->. cbn. by rewrite andb_false_r, orb_true_r.
Qed.

Lemma tighten_nonempty s : s <> EmptyString -> tighten s <> EmptyString.
Proof.
  destruct s as [|c s]; [done|]. intros _.
  unfold tighten. rewrite sub_cons. by destruct (Re.comma _) as [[|k]|].
Qed.

(** The first character of [tighten s]: a comma, or that of [s]. *)
Lemma tighten_head c s :
  pairs apart (String c s) = true ->
  exists h t, tighten (String c s) = String h t /\
    ((h = ","%char /\ (is_comma c = true \/ Char.isspace c = true)) \/
     (h = c /\ is_comma c = false /\
      (Char.isspace c = true -> starts_ns s = true /\ starts_comma s = false))).
Proof.
  intros [(Hc & ->)|[(Hc & r & -> & ->)|(Hc & Hs & ->)]]%tighten_cases;
    eexists _, _; (split; [done|]); auto.
Qed.

Lemma tighten_starts s :
  pairs apart s = true -> starts_ns s = true -> starts_ns (tighten s) = true.
Proof.
  destruct s as [|c s]; [done|]. intros Hap Hc.
  destruct (tighten_head c s Hap) as (h & t & -> & [[-> _]|[-> _]]); done.
Qed.

Lemma tighten_settled : forall x,
  pairs spaced x = true -> pairs settled (tighten x) = true.
Proof.
  induction x as [x IH] using string_len_ind.
  destruct x as [|c s]; [done|]. intros Hsp.
  pose proof (spaced_apart _ Hsp) as Hap.
  destruct (tighten_cases c s Hap)
    as [(Hc & ->)|[(Hc & r & -> & ->)|(Hc & Hs & ->)]].
  - (* a comma, and what follows its white space *)
    assert (pairs settled (tighten (Str.lstrip s)) = true) as Hz.
    { apply IH; [pose proof (lstrip_length s); cbn; lia|].
      by apply pairs_lstrip, (pairs_tail spaced c). }
    rewrite pairs_cons, Hz, andb_true_r.
    pose proof (lstrip_starts s) as Hst.
    destruct (Str.lstrip s) as [|e z] eqn:Ez; [done|].
    assert (pairs apart (String e z) = true) as Hapz.
    { rewrite <- Ez. by apply pairs_lstrip, (pairs_tail apart c). }
    destruct (tighten_head e z Hapz) as (h & t & -> & [[-> _]|[-> _]]);
      by apply settled_comma_l.
  - (* white space before a comma *)
    assert (pairs settled (tighten (Str.lstrip r)) = true) as Hz.
    { apply IH; [pose proof (lstrip_length r); cbn; lia|].
      by apply pairs_lstrip, (pairs_tail spaced ","), (pairs_tail spaced c). }
    rewrite pairs_cons, Hz, andb_true_r.
    pose proof (lstrip_starts r) as Hst.
    destruct (Str.lstrip r) as [|e z] eqn:Ez; [done|].
    assert (pairs apart (String e z) = true) as Hapz.
    { rewrite <- Ez.
      by apply pairs_lstrip, (pairs_tail apart ","), (pairs_tail apart c). }
    destruct (tighten_head e z Hapz) as (h & t & -> & [[-> _]|[-> _]]);
      by apply settled_comma_l.
  - (* a character that stays *)
    assert (pairs settled (tighten s) = true) as Hz.
    { apply IH; [cbn; lia|]. by apply (pairs_tail spaced c). }
    rewrite pairs_cons, Hz, andb_true_r.
    destruct s as [|d s']; [done|].
    rewrite pairs_cons in Hsp. apply andb_true_iff in Hsp as [Hcd _].
    destruct (tighten_head d s' (pairs_tail apart c _ Hap))
      as (h & t & -> & [[-> Hd]|(-> & Hd & _)]).
    + apply settled_comma_r. destruct (Char.isspace c) eqn:Es; [|done].
      destruct (Hs eq_refl) as [H1 H2]. cbn in H1, H2. unfold nonspace in H1.
      destruct Hd as [Hd|Hd]; [congruence|]. by rewrite Hd in H1.
    + unfold spaced in Hcd. apply andb_true_iff in Hcd as [H1 H2].
      unfold settled. rewrite H1, H2, Hc, Hd. cbn. by rewrite andb_false_r.
Qed.

Lemma ends_nonspace_single c : ends_ns (String c EmptyString) = nonspace c.
Proof. done. Qed.

Lemma tighten_ends : forall x,
  pairs apart x = true -> ends_ns x = true -> ends_ns (tighten x) = true.
Proof.
  induction x as [x IH] using string_len_ind.
  destruct x as [|c s]; [done|]. intros Hap He.
  assert (forall z, Str.lstrip z <> EmptyString ->
            (String.length z < String.length (String c s))%nat ->
            pairs apart z = true -> ends_ns z = true ->
            ends_ns (tighten (Str.lstrip z)) = true) as Hrest.
  { intros z Hne Hlen Hapz Hez. apply IH.
    - pose proof (lstrip_length z). lia.
    - by apply pairs_lstrip.
    - by apply lstrip_ends. }
  destruct (tighten_cases c s Hap)
    as [(Hc & ->)|[(Hc & r & -> & ->)|(Hc & Hs & ->)]].
  - destruct (Str.lstrip s) as [|e z] eqn:Ez; [done|].
    rewrite ends_cons by (by apply tighten_nonempty). rewrite <- Ez.
    assert (s <> EmptyString) as Hne by (by intros ->).
    rewrite ends_cons in He by done.
    apply Hrest; [by rewrite Ez|cbn; lia|by apply (pairs_tail apart c)|done].
  - destruct (Str.lstrip r) as [|e z] eqn:Ez; [done|].
    rewrite ends_cons by (by apply tighten_nonempty). rewrite <- Ez.
    assert (r <> EmptyString) as Hne by (by intros ->).
    rewrite ends_cons, ends_cons in He by done.
    apply Hrest; [by rewrite Ez|cbn; lia| |done].
    by apply (pairs_tail apart ","), (pairs_tail apart c).
  - destruct s as [|d s']; [done|].
    rewrite ends_cons by (by apply tighten_nonempty).
    rewrite ends_cons in He by done.
    apply IH; [cbn; lia|by apply (pairs_tail apart c)|done].
Qed.

(** On a settled string the insertions put spaces next to commas only,
    and [tighten] takes them away again. *)
Lemma tighten_insert_fixed y :
  pairs settled y = true -> tighten (insert_where need y) = y.
Proof.
  induction y as [|c y IH]; [done|]. intros Hy.
  specialize (IH (pairs_tail settled c y Hy)).
  rewrite insert_where_cons. destruct y as [|d y].
  - (* one character *)
    destruct (is_comma c) eqn:Ec.
    + apply Ascii.eqb_eq in Ec as ->. by rewrite tighten_comma.
    + by rewrite tighten_keep.
  - rewrite pairs_cons in Hy. apply andb_true_iff in Hy as [Hcd _].
    unfold settled in Hcd.
    apply andb_true_iff in Hcd as [[[H1 H2]%andb_true_iff H3]%andb_true_iff H4].
    assert (exists W, insert_where need (String d y) = String d W) as [W HW]
      by (eexists; apply insert_where_cons).
    rewrite HW in *.
    destruct (is_comma c) eqn:Ec.
    + (* after a comma *)
      apply Ascii.eqb_eq in Ec as ->. cbn in H3.
      assert (Str.lstrip (String d W) = String d W) as Hl.
      { apply lstrip_fixed. cbn. unfold nonspace.
        by destruct (Char.isspace d). }
      destruct (need "," d); rewrite tighten_comma.
      * change (Str.lstrip (String " " (String d W)))
          with (Str.lstrip (String d W)).
        by rewrite Hl, IH.
      * by rewrite Hl, IH.
    + destruct (Char.isspace c) eqn:Es.
      * (* white space, which nothing is put after *)
        rewrite (need_space_l d c Es).
        rewrite tighten_keep, IH; [done|done|]. intros _.
        cbn [starts_ns starts_comma]. unfold nonspace.
        unfold apart in H1. rewrite Es in H1. cbn in H1, H2.
        apply negb_true_iff in H2. by rewrite H1, H2.
      * destruct (need c d) eqn:En.
        -- (* a space is put, before a comma *)
           cbn in H4. apply Ascii.eqb_eq in H4 as ->.
           rewrite tighten_keep by (done || by rewrite Es).
           rewrite tighten_space_comma by done.
           rewrite tighten_comma in IH. by rewrite IH.
        -- rewrite tighten_keep by (done || by rewrite Es). by rewrite IH.
Qed.

Lemma normalize_spacing_normal s : normal (normalize_spacing s).
Proof.
  rewrite normalize_spacing_eq.
  set (v := collapse (Str.strip s)).
  assert (pairs apart v = true) as Hv by apply collapse_apart.
  assert (starts_ns v = true) as Hv1
    by (unfold v; rewrite collapse_starts; apply strip_starts).
  assert (ends_ns v = true) as Hv2 by apply collapse_ends, strip_ends.
  pose proof (insert_where_spaced v Hv) as Hx.
  split_and!.
  - apply tighten_starts; [by apply spaced_apart|].
    by rewrite insert_where_starts.
  - apply tighten_ends; [by apply spaced_apart|].
    by rewrite insert_where_ends.
  - by apply tighten_settled.
Qed.

Lemma normalize_spacing_fixed y : normal y -> normalize_spacing y = y.
Proof.
  intros (H1 & H2 & H3). rewrite normalize_spacing_eq.
  rewrite strip_fixed by done.
  rewrite collapse_fixed by (by apply settled_apart).
  by apply tighten_insert_fixed.
Qed.

Lemma normalize_spacing_idempotent s :
  normalize_spacing (normalize_spacing s) = normalize_spacing s.
Proof. apply normalize_spacing_fixed, normalize_spacing_normal. Qed.

(** *** The patch for a final [& ) >] *)

Lemma endswith_app p n :
  Str.endswith p n = true -> exists P, n = P +:+ p.
Proof.
  unfold Str.endswith. intros H%startswith_drop.
  exists (Str.rev (Str.drop (String.length (Str.rev p)) (Str.rev n))).
  rewrite <- (rev_involutive n) at 1. rewrite H at 1.
  by rewrite rev_app, rev_involutive.
Qed.

Lemma app_cons c (P X : string) : String c P +:+ X = String c (P +:+ X).
Proof. done. Qed.

Lemma at_end_long a b P X :
  Re.at_end (Str.drop 4 (String a (String b P) +:+ "& ) >" +:+ X)) = false.
Proof.
  destruct P as [|p1 [|p2 [|p3 P]]]; try done.
  cbn. by destruct P.
Qed.

Lemma sub_patch P :
  Re.sub Re.amp_paren_gt_end "&)>" (P +:+ "& ) >") = P +:+ "&)>".
Proof.
  induction P as [|c P IH]; [done|].
  rewrite !app_cons, sub_cons, IH.
  assert (Re.amp_paren_gt_end (String c (P +:+ "& ) >")) = None) as ->; [|done].
  unfold Re.amp_paren_gt_end.
  destruct (Str.startswith _ _) eqn:E; [|done].
  destruct P as [|a [|b P]]; [done..|].
  change (Str.drop 5 (String c (String a (String b P) +:+ "& ) >")))
      with (Str.drop 4 (String a (String b P) +:+ "& ) >" +:+ "")).
  by rewrite at_end_long.
Qed.

Lemma starts_app P X :
  starts_ns (P +:+ X) = if String.eqb P "" then starts_ns X else starts_ns P.
Proof. by destruct P. Qed.

Lemma ends_app P X : X <> EmptyString -> ends_ns (P +:+ X) = ends_ns X.
Proof.
  intros HX. induction P as [|c P IH]; [done|].
  rewrite app_cons, ends_cons; [done|]. by destruct P, X.
Qed.

Lemma pairs_app Q P q X :
  pairs Q (P +:+ String q X)
  = pairs Q (P +:+ String q EmptyString) && pairs Q (String q X).
Proof.
  induction P as [|c P IH].
  - by destruct X.
  - rewrite !app_cons, (pairs_cons Q c (P +:+ String q X)),
      (pairs_cons Q c (P +:+ String q EmptyString)), IH.
    destruct P as [|d P]; cbn [String.append]; by rewrite andb_assoc.
Qed.

Lemma insert_where_app R P q X Y :
  insert_where R (String q X) = insert_where R (String q Y) ->
  insert_where R (P +:+ String q X) = insert_where R (P +:+ String q Y).
Proof.
  intros H. induction P as [|c P IH]; [done|].
  rewrite !app_cons, !insert_where_cons, IH. by destruct P.
Qed.

(** Without its last two spaces a normal string that ends in [& ) >]
    is normalized to itself again. *)
Lemma normalize_spacing_patched P :
  normal (P +:+ "& ) >") ->
  normalize_spacing (P +:+ "&)>") = P +:+ "& ) >".
Proof.
  intros Hn. pose proof Hn as (H1 & H2 & H3).
  transitivity (normalize_spacing (P +:+ "& ) >"));
    [|by apply normalize_spacing_fixed].
  rewrite !normalize_spacing_eq.
  rewrite (strip_fixed (P +:+ "& ) >")) by done.
  rewrite (collapse_fixed (P +:+ "& ) >")) by (by apply settled_apart).
  rewrite starts_app in H1. apply settled_apart in H3.
  rewrite pairs_app in H3. apply andb_true_iff in H3 as [H3 _].
  rewrite strip_fixed.
  - rewrite collapse_fixed by (by rewrite pairs_app, H3).
    f_equal. by apply insert_where_app.
  - rewrite starts_app. by destruct (String.eqb P "").
  - by rewrite ends_app.
Qed.

(** C5.  [doxy_normalize_yml_params] applied twice gives what it gives
    applied once, on every string, also when the result ends in
    [& ) >] and is tightened to [&)>]. *)
Theorem doxy_normalize_yml_params_idempotent (s : string) :
  doxy_normalize_yml_params (doxy_normalize_yml_params s)
  = doxy_normalize_yml_params s.
Proof.
  pose proof (normalize_spacing_normal s) as Hn.
  destruct (Str.endswith "& ) >" (normalize_spacing s)) eqn:E.
  - destruct (endswith_app _ _ E) as [P HP].
    assert (doxy_normalize_yml_params s = P +:+ "&)>") as Hf.
    { unfold doxy_normalize_yml_params. rewrite E, HP. apply sub_patch. }
    rewrite Hf. unfold doxy_normalize_yml_params.
    rewrite HP in Hn, E.
    rewrite (normalize_spacing_patched P Hn), E. apply sub_patch.
  - assert (doxy_normalize_yml_params s = normalize_spacing s) as Hf
      by (unfold doxy_normalize_yml_params; by rewrite E).
    rewrite Hf. unfold doxy_normalize_yml_params.
    by rewrite normalize_spacing_idempotent, E.
Qed.

End NormalizeFacts.

(** ** Output policy: writing only what changed *)

Module FilesFacts.
Import Files.

Lemma read_text_no_cr b : has_cr b = false -> read_text b = b.
Proof.
  induction b as [|c b IH]; [done|]. cbn [has_cr].
  intros [Hc Hb]%orb_false_elim.
  assert (c <> "013"%char) as Hne by (intros ->; discriminate).
  replace (read_text (String c b)) with (String c (read_text b)).
  - by rewrite IH.
  - destruct c as [[] [] [] [] [] [] [] []]; try reflexivity. done.
Qed.

Lemma write_file_if_changed_same s fname contents :
  unchanged (disk s) fname contents = true ->
  write_file_if_changed fname contents s
  = (Ret tt, set_written <[fname := true]> (set_attempted (Z.add 1) s)).
Proof.
  unfold unchanged, write_file_if_changed, bind, modify, get, ret.
  cbn. unfold is_file, read_file. cbn.
  destruct (disk s !! fname) as [[b|]|] eqn:E; try discriminate.
  cbn. rewrite E. by intros ->.
Qed.

Lemma write_file_if_changed_differs s fname contents :
  no_way (disk s) fname = None ->
  disk s !! fname <> Some Dir ->
  unchanged (disk s) fname contents = false ->
  write_file_if_changed fname contents s
  = (Ret tt,
     set_disk <[fname := File contents]>
       (set_actual (Z.add 1)
          (print (("Rewriting docs/" +:+ fname +:+ " ...") +:+ "
")
             (set_disk <[fname := File ""]>
                (set_written <[fname := true]>
                   (set_attempted (Z.add 1) s)))))).
Proof.
  unfold unchanged, write_file_if_changed, bind, modify, get, ret.
  cbn. unfold is_file, read_file, open_w. cbn. intros Hw.
  destruct (disk s !! fname) as [[b|]|] eqn:E; cbn; rewrite ?E, ?Hw; cbn;
    rewrite ?E; try done.
  intros _ ->. cbn. rewrite Hw. cbn. by rewrite E.
Qed.

(** The way to a path is barred by a missing directory or by a file. *)
Lemma no_way_error d path e :
  no_way d path = Some e -> e = FileNotFoundError \/ e = NotADirectoryError.
Proof.
  unfold no_way. destruct (String.eqb path ""); [left; congruence|].
  induction (parents path) as [|a l IH]; [done|]. cbn.
  destruct (d !! a) as [[b|]|]; [right|by apply IH|left]; congruence.
Qed.

(** The error of [open(fname, "w")], when it raises. *)
Lemma write_file_if_changed_raises s fname contents e :
  unchanged (disk s) fname contents = false ->
  no_way (disk s) fname = Some e \/
  (no_way (disk s) fname = None /\ disk s !! fname = Some Dir /\
   e = IsADirectoryError) ->
  write_file_if_changed fname contents s
  = (Exc e, set_written <[fname := true]> (set_attempted (Z.add 1) s)).
Proof.
  unfold unchanged, write_file_if_changed, bind, modify, get, ret.
  cbn. unfold is_file, read_file, open_w. cbn.
  intros Hu [Hw|(Hw & Hd & ->)].
  - destruct (disk s !! fname) as [[b|]|] eqn:E; cbn; rewrite ?E, ?Hw;
      try done.
    rewrite Hu. cbn. by rewrite Hw.
  - rewrite Hd. cbn. by rewrite Hw, Hd.
Qed.

(** A call either finds the file up to date, or writes it, or raises
    the error of [open(fname, "w")]. *)
Lemma write_file_if_changed_cases s fname contents :
  let old := set_written <[fname := true]> (set_attempted (Z.add 1) s) in
  write_file_if_changed fname contents s = (Ret tt, old) /\
    unchanged (disk s) fname contents = true \/
  write_file_if_changed fname contents s
  = (Ret tt,
     set_disk <[fname := File contents]>
       (set_actual (Z.add 1)
          (print (("Rewriting docs/" +:+ fname +:+ " ...") +:+ "
")
             (set_disk <[fname := File ""]> old)))) /\
    unchanged (disk s) fname contents = false \/
  exists e, write_file_if_changed fname contents s = (Exc e, old).
Proof.
  cbn zeta. destruct (unchanged (disk s) fname contents) eqn:U.
  - left. split; [|done]. by apply write_file_if_changed_same.
  - destruct (no_way (disk s) fname) as [e|] eqn:W.
    + right; right. exists e. apply write_file_if_changed_raises; [done|].
      by left.
    + destruct (disk s !! fname) as [[b|]|] eqn:Hd.
      * right; left. split; [|done].
        apply write_file_if_changed_differs; [done|by rewrite Hd|done].
      * right; right. exists IsADirectoryError.
        apply write_file_if_changed_raises; [done|]. by right.
      * right; left. split; [|done].
        apply write_file_if_changed_differs; [done|by rewrite Hd|done].
Qed.






End FilesFacts.

(** ** Output policy: no orphan survives a run *)

Module CleanUpFacts.
Import Files.

(** An entry of the listing names the path it came from. *)
Lemma entry_of_path d p n : entry_of d p = Some n -> p = path_join d n.
Proof.
  unfold entry_of, path_join.
  destruct (Str.startswith (d +:+ "/") p) eqn:E; [|done].
  destruct (_ || _); [done|]. intros [= <-].
  rewrite <- append_assoc. by apply startswith_drop.
Qed.

Lemma listdir_names s names s' :
  listdir generated_dir s = (Ret names, s') ->
  s' = s /\
  forall p n, entry_of generated_dir p = Some n -> is_Some (disk s !! p) ->
              n ∈ names.
Proof.
  unfold listdir. destruct (disk s !! generated_dir) as [[|]|]; try done.
  intros [= <- <-]. split; [done|]. intros p n Hn [x Hx].
  apply list_elem_of_omap. exists (p, x). split; [|done].
  by apply elem_of_map_to_list.
Qed.

Lemma clean_one_spec n s s' :
  clean_one n s = (Ret tt, s') ->
  RST_FILES_WRITTEN s' = RST_FILES_WRITTEN s /\
  disk s' = if decide (path_join generated_dir n ∈ dom (RST_FILES_WRITTEN s))
            then disk s else delete (path_join generated_dir n) (disk s).
Proof.
  unfold clean_one, bind, get, ret. cbn.
  destruct (decide _) as [Hin|Hout]; [by intros [= <-]|].
  unfold info, remove, modify. cbn.
  destruct (disk s !! path_join generated_dir n) as [[b|]|]; try done.
  by intros [= <-].
Qed.

(** The loop of [__clean_up] only removes: a path that is absent stays
    absent. *)
Lemma clean_loop_absent p names : forall s s',
  for_each names clean_one s = (Ret tt, s') ->
  disk s !! p = None -> disk s' !! p = None.
Proof.
  induction names as [|n names IH]; intros s s'; cbn.
  - by intros [= <-].
  - unfold bind at 1. destruct (clean_one n s) as [[[]|e] s1] eqn:E1; [|done].
    intros Hrest Hp. apply (IH _ _ Hrest).
    apply clean_one_spec in E1 as [_ ->].
    destruct (decide _); [done|]. by apply lookup_delete_None; right.
Qed.

(** The loop of [__clean_up]: a path that was recorded keeps what it
    holds, and a listed path that was not recorded is gone. *)
Lemma clean_loop_spec names : forall s s',
  for_each names clean_one s = (Ret tt, s') ->
  RST_FILES_WRITTEN s' = RST_FILES_WRITTEN s /\
  (forall p, p ∈ dom (RST_FILES_WRITTEN s) -> disk s' !! p = disk s !! p) /\
  (forall n, n ∈ names ->
     path_join generated_dir n ∉ dom (RST_FILES_WRITTEN s) ->
     disk s' !! path_join generated_dir n = None).
Proof.
  induction names as [|n names IH]; intros s s'; cbn.
  - intros [= <-]. split; [done|]. split; [done|]. intros n Hn.
    by apply elem_of_nil in Hn.
  - unfold bind at 1. destruct (clean_one n s) as [[[]|e] s1] eqn:E1; [|done].
    intros Hrest. apply clean_one_spec in E1 as [HW1 Hd1].
    pose proof (IH _ _ Hrest) as (HW & Hkeep & Hgone). rewrite HW1 in *.
    split; [done|]. split.
    + intros p Hp. rewrite (Hkeep p Hp), Hd1.
      destruct (decide _) as [|Hn]; [done|]. apply lookup_delete_ne.
      intros Heq. by subst p.
    + intros m Hm Hout. apply elem_of_cons in Hm as [->|Hm]; [|by apply Hgone].
      apply (clean_loop_absent _ _ _ _ Hrest). rewrite Hd1.
      destruct (decide _); [done|]. apply lookup_delete_eq.
Qed.

Lemma clean_up_spec s s' :
  clean_up s = (Ret tt, s') ->
  RST_FILES_WRITTEN s' = RST_FILES_WRITTEN s /\
  (forall p, p ∈ dom (RST_FILES_WRITTEN s) -> disk s' !! p = disk s !! p) /\
  (forall p n, entry_of generated_dir p = Some n ->
     p ∉ dom (RST_FILES_WRITTEN s) -> disk s' !! p = None).
Proof.
  unfold clean_up, bind.
  destruct (listdir generated_dir s) as [[names|e] s1] eqn:El; [|done].
  apply listdir_names in El as [-> Hnames]. intros Hloop.
  pose proof (clean_loop_spec _ _ _ Hloop) as (HW & Hkeep & Hgone).
  split; [done|]. split; [done|]. intros p n Hn Hout.
  destruct (disk s !! p) as [x|] eqn:Hp.
  - pose proof (entry_of_path _ _ _ Hn) as ->. apply Hgone; [|done].
    apply (Hnames _ _ Hn). by rewrite Hp.
  - by apply (clean_loop_absent _ _ _ _ Hloop).
Qed.

(** Every call of [__write_file_if_changed] records its file name,
    whatever else it does. *)
Lemma write_file_if_changed_records fname contents s :
  RST_FILES_WRITTEN (write_file_if_changed fname contents s).2
  = <[fname := true]> (RST_FILES_WRITTEN s).
Proof.
  destruct (FilesFacts.write_file_if_changed_cases s fname contents)
    as [[-> _]|[[-> _]|[e ->]]]; done.
Qed.

(** [os.mkdir] in its [try] statement, however it ends: it touches
    neither the record, nor the counters, nor the output, nor any path
    but its own, and nothing at all when the path exists. *)
Lemma mkdir_effect d s :
  let s0 := (pass_if_exists (mkdir d) s).2 in
  RST_FILES_WRITTEN s0 = RST_FILES_WRITTEN s /\
  REWRITES_ATTEMPTED s0 = REWRITES_ATTEMPTED s /\
  REWRITES_ACTUAL s0 = REWRITES_ACTUAL s /\
  stdout s0 = stdout s /\
  (forall p, p <> d -> disk s0 !! p = disk s !! p) /\
  (is_Some (disk s !! d) -> s0 = s).
Proof.
  unfold pass_if_exists, mkdir.
  destruct (no_way (disk s) d) as [e|].
  { by destruct e; cbn; split_and!. }
  destruct (disk s !! d) as [x|] eqn:E; cbn; split_and!; try done.
  intros p Hp. by apply lookup_insert_ne.
Qed.

Lemma write_loop_records pages : forall s p,
  p ∈ dom (RST_FILES_WRITTEN
             (for_each pages (fun pg =>
                write_file_if_changed (page_filename pg) (page_out pg)) s).2) ->
  p ∈ dom (RST_FILES_WRITTEN s) \/
  exists pg, pg ∈ pages /\ page_filename pg = p.
Proof.
  induction pages as [|pg pages IH]; intros s p; cbn; [by left|].
  unfold bind at 1.
  pose proof (write_file_if_changed_records (page_filename pg) (page_out pg) s)
    as Hrec.
  destruct (write_file_if_changed _ _ s) as [[[]|e] s1]; cbn in *.
  - intros [H|(pg' & Hin & <-)]%IH.
    + rewrite Hrec in H. apply dom_insert in H.
      apply elem_of_union in H as [->%elem_of_singleton|H]; [|by left].
      right. exists pg. split; [left|done].
    + right. exists pg'. split; [by right|done].
  - rewrite Hrec. intros H. apply dom_insert in H.
    apply elem_of_union in H as [->%elem_of_singleton|H]; [|by left].
    right. exists pg. split; [left|done].
Qed.

Lemma NoDup_omap_inj {A B} (f : A -> option B) (l : list A) :
  (forall x y z, x ∈ l -> y ∈ l -> f x = Some z -> f y = Some z -> x = y) ->
  NoDup l -> NoDup (omap f l).
Proof.
  intros Hinj Hl. induction Hl as [|x l Hx Hl IH]; [constructor|].
  cbn. destruct (f x) as [z|] eqn:Ez.
  - constructor.
    + intros (y & Hy & Ey)%list_elem_of_omap.
      assert (x = y) as -> by (eapply Hinj; [left|by right|done..]). done.
    + apply IH. intros a b c Ha Hb. apply Hinj; by right.
  - apply IH. intros a b c Ha Hb. apply Hinj; by right.
Qed.

Lemma path_join_inj d n n' : path_join d n = path_join d n' -> n = n'.
Proof.
  unfold path_join. induction d as [|c d IH]; cbn; [by intros [=]|].
  intros [= H]. by apply IH.
Qed.

(** The names that [os.listdir] gives are distinct, and each names
    something on the disk. *)
Lemma listdir_NoDup s names s' :
  listdir generated_dir s = (Ret names, s') ->
  NoDup names /\
  forall n, n ∈ names -> is_Some (disk s !! path_join generated_dir n).
Proof.
  unfold listdir. destruct (disk s !! generated_dir) as [[|]|]; try done.
  intros [= <- <-]. split.
  - apply NoDup_omap_inj; [|apply NoDup_map_to_list].
    intros [p x] [p' x'] n Hp Hp' Hn Hn'. cbn in Hn, Hn'.
    apply entry_of_path in Hn, Hn'. subst p p'.
    apply elem_of_map_to_list in Hp, Hp'. congruence.
  - intros n ([p x] & Hp & Hn)%list_elem_of_omap. cbn in Hn.
    apply entry_of_path in Hn as ->. apply elem_of_map_to_list in Hp.
    by rewrite Hp.
Qed.

(** The loop of [__clean_up] runs to its end when what it has to
    remove are regular files. *)
Lemma clean_loop_returns names : forall s,
  NoDup names ->
  (forall n, n ∈ names ->
     path_join generated_dir n ∈ dom (RST_FILES_WRITTEN s) \/
     exists b, disk s !! path_join generated_dir n = Some (File b)) ->
  exists s', for_each names clean_one s = (Ret tt, s').
Proof.
  induction names as [|n names IH]; intros s Hnd Hok; [by eexists|].
  apply NoDup_cons in Hnd as [Hn Hnd]. cbn [for_each]. unfold bind at 1.
  destruct (clean_one n s) as [o s1] eqn:E1.
  assert (o = Ret tt /\ RST_FILES_WRITTEN s1 = RST_FILES_WRITTEN s /\
          forall n', n' ∈ names ->
            disk s1 !! path_join generated_dir n'
            = disk s !! path_join generated_dir n') as (-> & HW & Hd).
  { unfold clean_one, bind, get, ret in E1. cbn in E1.
    destruct (decide _) as [Hin|Hout]; [by injection E1 as <- <-|].
    destruct (Hok n) as [?|[b Hb]]; [left|done|].
    unfold info, remove, modify in E1. cbn in E1. rewrite Hb in E1.
    injection E1 as <- <-. split; [done|]. split; [done|]. intros n' Hn'.
    cbn. apply lookup_delete_ne. intros Heq%path_join_inj. by subst n'. }
  apply IH; [done|]. intros n' Hn'. rewrite HW, (Hd n' Hn').
  apply Hok. by right.
Qed.

(** [__clean_up] returns when [source/_generated] is a directory whose
    entries, as far as they were not recorded, are regular files. *)
Lemma clean_up_returns s :
  disk s !! generated_dir = Some Dir ->
  (forall p n, entry_of generated_dir p = Some n ->
     p ∉ dom (RST_FILES_WRITTEN s) -> disk s !! p <> Some Dir) ->
  exists s', clean_up s = (Ret tt, s').
Proof.
  intros Hdir Hfiles. unfold clean_up, bind.
  destruct (listdir generated_dir s) as [[names|e] s1] eqn:El.
  - pose proof (listdir_NoDup _ _ _ El) as [Hnd Hsome].
    assert (s1 = s) as -> by (by apply listdir_names in El as [-> _]).
    apply clean_loop_returns; [done|]. intros n Hn.
    destruct (decide (path_join generated_dir n ∈ dom (RST_FILES_WRITTEN s)))
      as [Hin|Hout]; [by left|right].
    destruct (Hsome n Hn) as [[b|] Hx]; [by exists b|].
    unfold listdir in El. rewrite Hdir in El. injection El as <-.
    apply list_elem_of_omap in Hn as ([p x] & Hp & Hn). cbn in Hn.
    pose proof (entry_of_path _ _ _ Hn) as ->.
    by destruct (Hfiles _ n Hn Hout).
  - unfold listdir in El. by rewrite Hdir in El.
Qed.

(** C2.  When the run returns, every entry left in [source/_generated]
    was recorded in [__RST_FILES_WRITTEN] by a call of
    [__write_file_if_changed] of this run, whether or not that call
    wrote; and [__clean_up], when it returns, has removed every entry of
    that directory that was not recorded; it does return when the
    directory holds no subdirectory that was not recorded. *)
Theorem no_orphan_survives (pages : list page) (d : gmap string node)
    (s' : state) :
  main_output pages (initial d) = (Ret tt, s') ->
  (forall p n, entry_of generated_dir p = Some n -> is_Some (disk s' !! p) ->
     p ∈ dom (RST_FILES_WRITTEN s') /\
     exists pg, pg ∈ pages /\ page_filename pg = p) /\
  (forall s t, clean_up s = (Ret tt, t) ->
     forall p n, entry_of generated_dir p = Some n ->
       p ∉ dom (RST_FILES_WRITTEN s) -> disk t !! p = None) /\
  (forall s, disk s !! generated_dir = Some Dir ->
     (forall p n, entry_of generated_dir p = Some n ->
        p ∉ dom (RST_FILES_WRITTEN s) -> disk s !! p <> Some Dir) ->
     exists t, clean_up s = (Ret tt, t)).
Proof.
  intros Hrun. split; [|split; [|apply clean_up_returns]].
  - unfold main_output in Hrun. unfold bind at 1 in Hrun.
    destruct (pass_if_exists _ _) as [[[]|e] s0] eqn:E0; [|done].
    assert (RST_FILES_WRITTEN s0 = ∅) as HW0.
    { pose proof (mkdir_effect generated_dir (initial d)) as [HW _].
      cbn zeta in HW. by rewrite E0 in HW. }
    unfold bind at 1 in Hrun.
    pose proof (write_loop_records pages s0) as Hrec.
    destruct (for_each pages _ s0) as [[[]|e] s1]; [|done]. cbn in Hrec.
    apply clean_up_spec in Hrun as (HW & _ & Hgone).
    intros p n Hn Hp. rewrite HW.
    destruct (decide (p ∈ dom (RST_FILES_WRITTEN s1))) as [Hin|Hout].
    + split; [done|]. destruct (Hrec p Hin) as [H|H]; [|done].
      rewrite HW0, dom_empty in H. by apply elem_of_empty in H.
    + rewrite (Hgone p n Hn Hout) in Hp. by destruct Hp.
  - intros s t Hc p n Hn Hout.
    by apply clean_up_spec in Hc as (_ & _ & Hgone); apply (Hgone p n).
Qed.

Lemma no_orphan_survives_witness :
  exists s',
    main_output [Overview "A" "text"] (initial old_disk) = (Ret tt, s') /\
    disk s' !! "source/_generated/stale.rst" = None /\
    disk s' !! "source/_generated/a.rst" = Some (File "text") /\
    REWRITES_ACTUAL s' = 0 /\
    forall p n, entry_of generated_dir p = Some n -> is_Some (disk s' !! p) ->
      p ∈ dom (RST_FILES_WRITTEN s').
Proof.
  eexists. split; [vm_compute; reflexivity|].
  split; [vm_compute; reflexivity|].
  split; [vm_compute; reflexivity|].
  split; [vm_compute; reflexivity|].
  intros p n Hn Hp.
  eapply (no_orphan_survives [Overview "A" "text"] old_disk);
    [vm_compute; reflexivity | exact Hn | exact Hp].
Defined.

End CleanUpFacts.

(** ** The renderer: tags it does not know *)

Module RenderFacts.
Import Render.

Lemma not_handled_eqb n m : n ∉ handled -> m ∈ handled -> String.eqb n m = false.
Proof. intros Hn Hm. apply String.eqb_neq. by intros ->. Qed.

(** C3, as stated, fails: the text below a tag that the loop does not
    know is dropped, here the [hello] under [foo]. *)
Lemma unknown_child_text_is_dropped :
  convert_to_rst no_prefixes
    (Elem "para" [] [Elem "foo" [] [Text "hello"]]) Own (mkLists [] [])
  = (Ret "", mkLists [] []).
Proof. reflexivity. Qed.

(** C3, amended.  A child whose tag the loop does not know adds nothing
    to the output and raises nothing: the loop does not go into it, so
    the text below it is left out.  A call of [convert_to_rst] made on
    such a tag itself, when the tag is none of [compounddef],
    [memberdef] and [enum] by name, is not of kind [enum], and has only
    strings as children, returns what the strings give, with no markup
    of its own, and leaves the context as it was. *)
Theorem unknown_tag_is_skipped (P : string -> option string)
    (rec : xml -> cref -> M lists string) (c : cref) (n : string)
    (attrs : list (string * string)) (cs : list xml) (s : lists) :
  n ∉ handled ->
  item rec c (Elem n attrs cs) s = (Ret EmptyString, s) /\
  (Xml.attr_is "kind" "enum" attrs = false ->
   n <> "compounddef" -> n <> "memberdef" -> n <> "enum" ->
   forall ts,
     convert_to_rst P (Elem n attrs (map Text ts)) c s
     = (Ret (fold_right (fun t r => string_rst t +:+ r) EmptyString ts), s)).
Proof.
  intros Hn. split.
  - unfold item, bind, context. cbn.
    rewrite !(not_handled_eqb n) by (done || (unfold handled; set_solver)).
    by rewrite !andb_false_r.
  - intros Hk Hc Hm He ts.
    assert (forall fuel s0,
      concat_each (map Text ts) (item (convert P fuel) c) s0
      = (Ret (fold_right (fun t r => string_rst t +:+ r) EmptyString ts), s0))
      as Hloop.
    { intros fuel s0. induction ts as [|t ts IH]; [done|].
      cbn [map concat_each foldr item]. unfold bind, ret. by rewrite IH. }
    unfold convert_to_rst. cbn [Xml.height convert].
    unfold body. rewrite Hk.
    apply String.eqb_neq in Hc, Hm. rewrite Hc, Hm. cbn [orb andb negb].
    assert (ctx c (set_ctx c (ctx c s ++ [n]) s) = ctx c s ++ [n]) as Hctx
      by (by destruct c).
    assert (set_ctx c (ctx c s) (set_ctx c (ctx c s ++ [n]) s) = s) as Hback
      by (by destruct c, s).
    unfold bind, append, modify, ret, context. rewrite Hloop.
    unfold top_is, pop. rewrite Hctx, last_snoc.
    apply String.eqb_neq in He. rewrite He, Hctx, rev_unit, rev_involutive.
    assert (String.eqb n "itemizedlist" = false) as ->
      by (apply not_handled_eqb; [done | unfold handled; set_solver]).
    by rewrite Hback.
Qed.

Lemma unknown_tag_is_skipped_witness :
  item (convert no_prefixes 0) Own (Elem "foo" [] [Text "hello"])
       (mkLists [] ["para"])
  = (Ret EmptyString, mkLists [] ["para"]) /\
  convert_to_rst no_prefixes (Elem "foo" [] [Text "hello"]) Own
                 (mkLists [] ["para"])
  = (Ret " hello", mkLists [] ["para"]).
Proof.
  assert ("foo" ∉ handled) as Hn.
  { unfold handled. intros H.
    repeat (apply elem_of_cons in H as [H|H]; [discriminate H|]).
    by apply elem_of_nil in H. }
  destruct (unknown_tag_is_skipped no_prefixes (convert no_prefixes 0) Own
              "foo" [] [Text "hello"] (mkLists [] ["para"]) Hn) as [H1 H2].
  split; [exact H1|].
  exact (H2 eq_refl ltac:(discriminate) ltac:(discriminate)
            ltac:(discriminate) ["hello"]).
Defined.

End RenderFacts.

(** ** The renderer: code blocks and the two context lists *)

Module CodeBlockFacts.
Import Render.

Lemma frame_ret {A} (a : A) : frame (ret a).
Proof. done. Qed.

Lemma frame_raise {A} e : frame (@raise lists A e).
Proof. done. Qed.

Lemma frame_lift {A} (o : outcome A) : frame (lift o).
Proof. done. Qed.

Lemma frame_bind {A B} (m : M lists A) (k : A -> M lists B) :
  frame m -> (forall a, frame (k a)) -> frame (bind m k).
Proof.
  intros Hm Hk d o. unfold bind. rewrite (Hm d o).
  destruct (m (mkLists d [])) as [[a|e] [d' o']] eqn:E; cbn.
  - rewrite (Hk a d' o). rewrite (Hk a d' o'). done.
  - done.
Qed.

Lemma frame_if {A} (b : bool) (m1 m2 : M lists A) :
  frame m1 -> frame m2 -> frame (if b then m1 else m2).
Proof. by destruct b. Qed.

Lemma frame_context : frame (context Default).
Proof. done. Qed.

Lemma frame_append v : frame (append Default v).
Proof. done. Qed.

Lemma frame_pop : frame (pop Default).
Proof. intros d o. unfold pop. cbn. by destruct (rev d). Qed.

Lemma frame_concat_each {A} (l : list A) (body : A -> M lists string) :
  (forall y, frame (body y)) -> frame (concat_each l body).
Proof.
  intros Hb. induction l as [|y l IH]; [done|]. cbn [concat_each].
  apply frame_bind; [done|]. intros a.
  apply frame_bind; [done|]. intros b. apply frame_ret.
Qed.

Ltac frame_step :=
  first
    [ apply frame_ret | apply frame_raise | apply frame_lift
    | apply frame_context | apply frame_append | apply frame_pop
    | apply frame_if
    | apply frame_concat_each; intros ?
    | apply frame_bind; [|intros ?] ].

Section Frame.
Variable rec : xml -> cref -> M lists string.
Hypothesis rec_frame : forall y, frame (rec y Default).

Lemma frame_rec_find n y : frame (rec_find rec n y Default).
Proof. unfold rec_find. destruct (Xml.find n y); [done|apply frame_raise]. Qed.

Lemma frame_indent_now : frame (indent_now Default).
Proof. unfold indent_now. repeat frame_step. Qed.

Lemma frame_indented lead mid x : frame (indented rec lead mid x Default).
Proof.
  unfold indented.
  repeat first [apply rec_frame | apply frame_indent_now | frame_step].
Qed.

Lemma frame_item x : frame (item rec Default x).
Proof.
  destruct x as [t|n attrs cs]; [apply frame_ret|].
  unfold item, kind_of, find_text.
  repeat first
    [ apply rec_frame | apply frame_indent_now | apply frame_indented
    | apply frame_rec_find | frame_step ].
Qed.

Lemma frame_body P n attrs cs : frame (body P rec n attrs cs Default).
Proof.
  unfold body, prefix_of, kind_of, enum_items.
  repeat first [ apply frame_indent_now | apply frame_item | frame_step ].
Qed.

End Frame.

(** A call that passes no context works on the default list alone. *)
Lemma convert_default_frame P fuel : forall x, frame (convert P fuel x Default).
Proof.
  induction fuel as [|fuel IH]; intros x; destruct x as [t|n attrs cs];
    try apply frame_raise.
  cbn [convert]. by apply frame_body.
Qed.

(** C10, as stated, fails.  The text added for one and the same
    [programlisting] differs with the caller's context, which indents
    its first line; and when the caller itself runs on the default list,
    as a call without context does, the code lines are indented by the
    enclosing tags too. *)
Lemma code_block_depends_on_context :
  (item (convert no_prefixes 3) Own listing (mkLists [] [])).1
  <> (item (convert no_prefixes 3) Own listing (mkLists [] ["memberdef"])).1
  /\
  (convert_to_rst no_prefixes
     (Elem "parameterdescription" [] [listing]) Own (mkLists [] [])).1
  <> (convert_to_rst no_prefixes
        (Elem "parameterdescription" [] [listing]) Default (mkLists [] [])).1.
Proof. split; vm_compute; discriminate. Qed.

(** C10, amended.  For a [programlisting], [codeline] or [highlight]
    child met by a call whose context is a list of its own, the text
    returned by the recursive call is the one computed from the child
    and the default list alone, and the caller's list is neither read
    nor changed by it; the caller's list only sets the indentation that
    precedes that text.  (When the caller's context is the default list
    itself, there is one list, and nothing of the kind holds.) *)
Theorem code_block_text (P : string -> option string) (fuel : nat)
    (attrs : list (string * string)) (cs : list xml) (s : lists) :
  let sub n :=
    convert P fuel (Elem n attrs cs) Default
            (mkLists (default_context s) []) in
  item (convert P fuel) Own (Elem "programlisting" attrs cs) s
  = added (fun t => "

" +:+ indent (own_context s) +:+ ".. code-block::
" +:+ t) (sub "programlisting") (own_context s)
  /\
  item (convert P fuel) Own (Elem "codeline" attrs cs) s
  = added (fun t => "
" +:+ indent (own_context s) +:+ t) (sub "codeline") (own_context s)
  /\
  item (convert P fuel) Own (Elem "highlight" attrs cs) s
  = added (fun t => t) (sub "highlight") (own_context s).
Proof.
  intros sub. subst sub. destruct s as [d o]. cbn [default_context own_context].
  unfold added.
  repeat split;
    unfold item, bind, context, indent_now, ret;
    cbn -[convert indent mem]; rewrite ?andb_false_r;
    unfold bind; cbn -[convert indent mem];
    rewrite (convert_default_frame P fuel _ d o);
    by destruct (convert P fuel _ Default (mkLists d [])) as [[t|e] s'].
Qed.

End CodeBlockFacts.

(** ** The renderer: the context stack *)

Module ContextFacts.
Import Render.

Lemma pres_ret {A} (a : A) : pres (ret a).
Proof. by intros s b s' [= _ <-]. Qed.

Lemma pres_raise {A} e : pres (@raise lists A e).
Proof. by intros s b s' [=]. Qed.

Lemma pres_lift {A} (o : outcome A) : pres (lift o).
Proof. by intros s b s' [= _ <-]. Qed.

Lemma pres_context c : pres (context c).
Proof. by intros s b s' [= _ <-]. Qed.

Lemma pres_bind {A B} (m : M lists A) (k : A -> M lists B) :
  pres m -> (forall a, pres (k a)) -> pres (bind m k).
Proof.
  intros Hm Hk s b s' (a & s1 & H1 & H2)%bind_ret_inv.
  apply Hm in H1 as ->. by apply Hk in H2.
Qed.

Lemma pres_concat_each {A} (l : list A) (body : A -> M lists string) :
  (forall y, pres (body y)) -> pres (concat_each l body).
Proof.
  intros Hb. induction l as [|y l IH]; [apply pres_ret|]. cbn [concat_each].
  apply pres_bind; [done|]. intros a.
  apply pres_bind; [done|]. intros b. apply pres_ret.
Qed.

Lemma find_named n y d : Xml.find n y = Some d -> Xml.named n d = true.
Proof.
  unfold Xml.find, Xml.find_all. intros H%head_Some_elem_of.
  apply list_elem_of_In, filter_In in H. tauto.
Qed.

Ltac named_not_enum :=
  left; intros ->;
  repeat match goal with
         | H : (_ && _) = true |- _ => apply andb_true_iff in H as [? ?]
         end;
  match goal with
  | H : String.eqb "enum" _ = true |- _ => by vm_compute in H
  end.

Ltac pres_step :=
  first
    [ apply pres_ret | apply pres_raise | apply pres_lift
    | apply pres_context
    | apply pres_concat_each; intros ?
    | apply pres_bind; [|intros ?]
    | match goal with
      | |- pres (if ?b then _ else _) => destruct b eqn:?
      end ].

Section Balance.
Variable rec : xml -> cref -> M lists string.
Hypothesis rec_pres : forall y c, pops_match y -> pres (rec y c).

Lemma pres_rec_find n y c : n <> "enum" -> pres (rec_find rec n y c).
Proof.
  intros Hn. unfold rec_find.
  destruct (Xml.find n y) as [d|] eqn:E; [|apply pres_raise].
  apply rec_pres. apply find_named in E. destruct d as [|m a cs]; [done|].
  left. cbn in E. apply String.eqb_eq in E. by subst m.
Qed.

Lemma pres_indent_now c : pres (indent_now c).
Proof. unfold indent_now. repeat pres_step. Qed.

Lemma pres_indented lead mid x c :
  pops_match x -> pres (indented rec lead mid x c).
Proof.
  intros Hx. unfold indented.
  repeat first [by apply rec_pres | apply pres_indent_now | pres_step].
Qed.

Lemma pres_item c x : pres (item rec c x).
Proof.
  destruct x as [t|n attrs cs]; [apply pres_ret|].
  unfold item, kind_of, find_text.
  repeat first
    [ apply pres_indent_now
    | apply pres_indented; named_not_enum
    | apply rec_pres; named_not_enum
    | apply pres_rec_find; discriminate
    | pres_step ].
Qed.

Lemma pres_prefix P n attrs :
  pres (if String.eqb n "compounddef" || String.eqb n "memberdef"
        then prefix_of P attrs else ret EmptyString).
Proof. unfold prefix_of, kind_of. repeat pres_step. Qed.

Lemma pres_items (b : bool) cs : pres (if b then enum_items cs else ret cs).
Proof. unfold enum_items. repeat pres_step. Qed.

Lemma ctx_set c l s : ctx c (set_ctx c l s) = l.
Proof. by destruct c. Qed.

Lemma set_set c l l' s : set_ctx c l (set_ctx c l' s) = set_ctx c l s.
Proof. by destruct c. Qed.

Lemma set_ctx_same c s : set_ctx c (ctx c s) s = s.
Proof. by destruct c, s. Qed.

Lemma finish_plain c n prefix result s r s' :
  n <> "enum" ->
  finish c prefix result (set_ctx c (ctx c s ++ [n]) s) = (Ret r, s') ->
  s' = s.
Proof.
  intros Hn%String.eqb_neq. unfold finish, bind, context.
  unfold top_is. rewrite ctx_set, last_snoc, Hn. unfold ret at 1.
  unfold pop. rewrite ctx_set, rev_unit, rev_involutive, set_set, set_ctx_same.
  destruct (String.eqb n "itemizedlist"); unfold indent_now, bind, context, ret;
    by intros [= _ <-].
Qed.

Lemma finish_enum c n prefix result s r s' :
  finish c prefix result (set_ctx c ((ctx c s ++ [n]) ++ ["enum"]) s)
  = (Ret r, s') ->
  s' = s.
Proof.
  unfold finish, bind, context.
  unfold top_is. rewrite ctx_set, last_snoc. cbn [String.eqb Ascii.eqb Bool.eqb].
  unfold pop at 1. rewrite ctx_set, rev_unit, rev_involutive, set_set.
  unfold ret at 1.
  unfold pop. rewrite ctx_set, rev_unit, rev_involutive, set_set, set_ctx_same.
  destruct (String.eqb n "itemizedlist"); unfold indent_now, bind, context, ret;
    by intros [= _ <-].
Qed.

Lemma body_finish P n attrs cs c :
  body P rec n attrs cs c
  = (append c n ;;;
     (if Xml.attr_is "kind" "enum" attrs then append c "enum" else ret tt) ;;;
     prefix <- (if String.eqb n "compounddef" || String.eqb n "memberdef"
                then prefix_of P attrs else ret EmptyString) ;;
     items <- (if negb (String.eqb n "compounddef"
                        && bool_decide (is_Some
                             (Xml.first_named "templateparamlist" cs)))
                  && Xml.attr_is "kind" "enum" attrs
               then enum_items (if String.eqb n "compounddef"
                                then compound_items cs else cs)
               else ret (if String.eqb n "compounddef"
                         then compound_items cs else cs)) ;;
     result <- concat_each items (item rec c) ;;
     finish c prefix result)%py.
Proof. reflexivity. Qed.

Lemma body_balanced P n attrs cs c s r s' :
  n <> "enum" \/ Xml.attr_is "kind" "enum" attrs = true ->
  body P rec n attrs cs c s = (Ret r, s') -> s' = s.
Proof.
  intros Hok. rewrite body_finish.
  intros (? & s1 & H1 & H)%bind_ret_inv.
  apply bind_ret_inv in H as (? & s2 & H2 & H).
  apply bind_ret_inv in H as (prefix & s3 & H3 & H).
  apply bind_ret_inv in H as (items & s4 & H4 & H).
  apply bind_ret_inv in H as (result & s5 & H5 & H).
  apply pres_prefix in H3 as ->. apply pres_items in H4 as ->.
  apply (pres_concat_each _ _ (pres_item c)) in H5 as ->.
  assert (s1 = set_ctx c (ctx c s ++ [n]) s) as -> by (by injection H1).
  destruct (Xml.attr_is "kind" "enum" attrs).
  - assert (s2 = set_ctx c ((ctx c s ++ [n]) ++ ["enum"]) s) as ->.
    { injection H2 as _ <-. by rewrite ctx_set, set_set. }
    by apply finish_enum in H.
  - assert (s2 = set_ctx c (ctx c s ++ [n]) s) as -> by (by injection H2).
    destruct Hok as [Hn|]; [|done]. by apply finish_plain in H.
Qed.

End Balance.

(** Whatever the tree below, a call on a tag whose pops match its
    pushes gives back both lists as it found them. *)
Lemma convert_balanced P fuel : forall x c, pops_match x -> pres (convert P fuel x c).
Proof.
  induction fuel as [|fuel IH]; intros x c Hx; destruct x as [t|n attrs cs];
    try apply pres_raise.
  cbn [convert]. intros s r s'. by apply body_balanced.
Qed.




End ContextFacts.

(** ** The renderer: the calls nest no deeper than the tree *)

Module FuelFacts.
Import Render.

Lemma xml_forall_ind (P : xml -> Prop) :
  (forall s, P (Text s)) ->
  (forall n a cs, Forall P cs -> P (Elem n a cs)) ->
  forall x, P x.
Proof.
  intros Ht He. fix IH 1. intros [s|n a cs]; [apply Ht|]. apply He.
  induction cs as [|c cs IHcs]; constructor; [apply IH|apply IHcs].
Qed.

Lemma height_child n a cs c :
  c ∈ cs -> (Xml.height c < Xml.height (Elem n a cs))%nat.
Proof.
  cbn [Xml.height]. induction cs as [|c' cs IH]; intros H.
  - by apply elem_of_nil in H.
  - apply elem_of_cons in H as [->|H]; [lia|]. specialize (IH H). lia.
Qed.

Lemma descendants_elem n a cs d :
  d ∈ Xml.descendants (Elem n a cs) ->
  exists c, c ∈ cs /\ (d = c \/ d ∈ Xml.descendants c).
Proof.
  cbn [Xml.descendants]. induction cs as [|c cs IH]; intros H.
  - by apply elem_of_nil in H.
  - destruct c as [t|m b ds].
    + destruct (IH H) as (c' & Hc' & Hd). exists c'. split; [by right|done].
    + apply elem_of_cons in H as [->|H].
      * eexists. split; [left|]. by left.
      * apply elem_of_app in H as [H|H].
        -- eexists. split; [left|]. by right.
        -- destruct (IH H) as (c' & Hc' & Hd). exists c'.
           split; [by right|done].
Qed.

Lemma height_descendant : forall x d,
  d ∈ Xml.descendants x -> (Xml.height d < Xml.height x)%nat.
Proof.
  induction x as [s|n a cs IH] using xml_forall_ind; intros d Hd.
  - by apply elem_of_nil in Hd.
  - apply descendants_elem in Hd as (c & Hc & Hd).
    pose proof (height_child n a cs c Hc) as Hlt.
    destruct Hd as [->|Hd]; [done|].
    rewrite Forall_forall in IH. specialize (IH c Hc d Hd). lia.
Qed.

Lemma height_find_all n x y :
  y ∈ Xml.find_all n x -> (Xml.height y < Xml.height x)%nat.
Proof.
  unfold Xml.find_all. intros H. apply height_descendant.
  apply list_elem_of_In. apply list_elem_of_In, filter_In in H. tauto.
Qed.

Lemma height_find n x d :
  Xml.find n x = Some d -> (Xml.height d < Xml.height x)%nat.
Proof.
  unfold Xml.find. intros H%head_Some_elem_of. by apply height_find_all in H.
Qed.

Lemma eqm_refl {A} (m : M lists A) : eqm m m.
Proof. done. Qed.

Lemma eqm_bind {A B} (m1 m2 : M lists A) (k1 k2 : A -> M lists B) :
  eqm m1 m2 -> (forall a, eqm (k1 a) (k2 a)) -> eqm (bind m1 k1) (bind m2 k2).
Proof.
  intros Hm Hk s. unfold bind. rewrite (Hm s).
  destruct (m2 s) as [[a|e] s']; [apply Hk|done].
Qed.

(** The same, knowing what the first computation returns. *)
Lemma eqm_bind_post {A B} (Q : A -> Prop) (m : M lists A)
    (k1 k2 : A -> M lists B) :
  (forall s a s', m s = (Ret a, s') -> Q a) ->
  (forall a, Q a -> eqm (k1 a) (k2 a)) -> eqm (bind m k1) (bind m k2).
Proof.
  intros Hm Hk s. unfold bind.
  destruct (m s) as [[a|e] s'] eqn:E; [|done]. by eapply Hk, Hm.
Qed.

Lemma eqm_if {A} (b : bool) (m1 m2 n1 n2 : M lists A) :
  eqm m1 m2 -> eqm n1 n2 ->
  eqm (if b then m1 else n1) (if b then m2 else n2).
Proof. by destruct b. Qed.

Lemma eqm_concat_each {A} (l : list A) (b1 b2 : A -> M lists string) :
  (forall y, y ∈ l -> eqm (b1 y) (b2 y)) ->
  eqm (concat_each l b1) (concat_each l b2).
Proof.
  induction l as [|y l IH]; intros H; [done|]. cbn [concat_each].
  apply eqm_bind; [apply H; left|]. intros a.
  apply eqm_bind; [|done]. apply IH. intros z Hz. apply H. by right.
Qed.

Section Agree.
Variables rec1 rec2 : xml -> cref -> M lists string.
Variable h : nat.
Hypothesis Hrec : agree h rec1 rec2.

Lemma eqm_rec_find n y c :
  (Xml.height y <= h)%nat -> eqm (rec_find rec1 n y c) (rec_find rec2 n y c).
Proof.
  intros Hy. unfold rec_find. destruct (Xml.find n y) as [d|] eqn:E; [|done].
  apply Hrec. apply height_find in E. lia.
Qed.

Lemma eqm_indented lead mid x c :
  (Xml.height x <= h)%nat ->
  eqm (indented rec1 lead mid x c) (indented rec2 lead mid x c).
Proof.
  intros Hx. unfold indented. apply eqm_bind; [done|]. intros i.
  apply eqm_bind; [by apply Hrec|done].
Qed.

Ltac eqm_step Hx :=
  first
    [ apply eqm_refl
    | apply eqm_indented; exact Hx
    | apply Hrec; exact Hx
    | apply eqm_rec_find; exact Hx
    | apply eqm_rec_find;
      match goal with
      | H : _ ∈ Xml.find_all _ _ |- _ => apply height_find_all in H; lia
      end
    | apply eqm_if
    | apply eqm_concat_each; intros ? ?
    | apply eqm_bind; [|intros ?] ].

Lemma eqm_item c x :
  (Xml.height x <= h)%nat -> eqm (item rec1 c x) (item rec2 c x).
Proof.
  intros Hx. destruct x as [t|n attrs cs]; [done|].
  unfold item. repeat eqm_step Hx.
Qed.

Lemma first_named_in n (l : list xml) x : Xml.first_named n l = Some x -> x ∈ l.
Proof.
  unfold Xml.first_named. intros H%head_Some_elem_of.
  apply list_elem_of_In. apply list_elem_of_In, filter_In in H. tauto.
Qed.

Lemma compound_items_in cs x : x ∈ compound_items cs -> x ∈ cs.
Proof.
  unfold compound_items.
  destruct (Xml.first_named "templateparamlist" cs) as [t|] eqn:E; [|done].
  intros [->|H]%elem_of_cons; [by apply first_named_in in E|].
  apply list_elem_of_In. apply list_elem_of_In, filter_In in H. tauto.
Qed.

Lemma enum_items_in cs s items s' x :
  enum_items cs s = (Ret items, s') -> x ∈ items ->
  x ∈ cs \/ x = Text EmptyString.
Proof.
  unfold enum_items, bind, lift, ret.
  destruct (Xml.first_named "name" cs) as [n|] eqn:En; [|done].
  cbn. intros [= <- _] [->|[->|H]%elem_of_cons]%elem_of_cons.
  - left. by apply first_named_in in En.
  - destruct (Xml.first_named "briefdescription" cs) as [b|] eqn:Eb.
    + left. by apply first_named_in in Eb.
    + by right.
  - left. apply list_elem_of_In. apply list_elem_of_In, filter_In in H. tauto.
Qed.

Lemma eqm_body P n attrs cs c :
  (forall x, x ∈ cs -> (Xml.height x <= h)%nat) ->
  eqm (body P rec1 n attrs cs c) (body P rec2 n attrs cs c).
Proof.
  intros Hcs. rewrite !ContextFacts.body_finish.
  apply eqm_bind; [done|]. intros _.
  apply eqm_bind; [done|]. intros _.
  apply eqm_bind; [done|]. intros prefix.
  apply (eqm_bind_post (fun items => forall x, x ∈ items ->
                                       (Xml.height x <= h)%nat)).
  - intros s items s' Hitems x Hx.
    assert (forall y, y ∈ (if String.eqb n "compounddef"
                           then compound_items cs else cs) -> y ∈ cs) as Hsub.
    { intros y. destruct (String.eqb n "compounddef"); [|done].
      apply compound_items_in. }
    destruct (_ && _).
    + destruct (enum_items_in _ _ _ _ x Hitems Hx) as [H| ->]; [|cbn; lia].
      by apply Hcs, Hsub.
    + injection Hitems as <- _. by apply Hcs, Hsub.
  - intros items Hitems. apply eqm_bind; [|done].
    apply eqm_concat_each. intros x Hx. by apply eqm_item, Hitems.
Qed.

End Agree.

(** Fuel beyond the height of the tree changes nothing. *)
Lemma convert_fuel P : forall k x n c,
  (Xml.height x <= k)%nat -> (k <= n)%nat ->
  eqm (convert P n x c) (convert P k x c).
Proof.
  induction k as [|k IH]; intros x n c Hx Hn.
  - destruct x as [t|m a cs]; [by destruct n|]. cbn in Hx. lia.
  - destruct x as [t|m a cs]; [by destruct n|].
    destruct n as [|n]; [lia|]. cbn [convert].
    apply (eqm_body _ _ k).
    + intros y c' Hy. apply IH; [done|lia].
    + intros y Hy. pose proof (height_child m a cs y Hy). lia.
Qed.

(** [convert_to_rst] never runs out of nested calls: it returns, or it
    raises one of the script's own errors, and with any larger bound it
    does the same. *)
Lemma convert_to_rst_fuel P x c n s :
  (Xml.height x <= n)%nat -> convert P n x c s = convert_to_rst P x c s.
Proof. intros H. by apply convert_fuel. Qed.

End FuelFacts.

(** ** The symbol database: walking out to the enclosing scopes *)

Module EnclosingFacts.
Import Doxy.

Lemma startswith_length p : forall s,
  Str.startswith p s = true -> (String.length p <= String.length s)%nat.
Proof.
  induction p as [|a p IH]; intros [|b s]; cbn; try done; try lia.
  destruct (Ascii.eqb a b); [|done]. intros H%IH. lia.
Qed.

Lemma rfind_from_bound p : p <> EmptyString -> forall s i best,
  Str.rfind_from p s i best = best \/
  i <= Str.rfind_from p s i best
    <= i + Str.len s - Str.len p.
Proof.
  intros Hp. unfold Str.len.
  induction s as [|c s IH]; intros i best; cbn [Str.rfind_from].
  - left. by destruct p.
  - destruct (Str.startswith p (String c s)) eqn:E.
    + apply startswith_length in E.
      destruct (IH (i + 1) i) as [->|H]; right; cbn [String.length] in *; lia.
    + destruct (IH (i + 1) best) as [->|H]; [by left|right].
      cbn [String.length]. lia.
Qed.

Lemma rfind_scope c :
  Str.rfind "::" c = -1 \/ 0 <= Str.rfind "::" c <= Str.len c - 2.
Proof.
  unfold Str.rfind.
  destruct (rfind_from_bound "::" ltac:(done) c 0 (-1)) as [H|H]; [by left|].
  right. unfold Str.len in *. cbn [String.length] in H. lia.
Qed.

Lemma take_length n : forall s,
  String.length (Str.take n s) = Nat.min n (String.length s).
Proof.
  induction n as [|n IH]; intros [|c s]; cbn; try done. by rewrite IH.
Qed.

Lemma take_all n : forall s, (String.length s <= n)%nat -> Str.take n s = s.
Proof.
  induction n as [|n IH]; intros [|c s]; cbn; try done; try lia.
  intros H. rewrite IH; [done|lia].
Qed.

(** Each turn of the loop brings the end nearer. *)
Lemma turns_decrease c p :
  p <> -1 ->
  (turns (Str.slice_to c p) (Str.rfind "::" c) < turns c p)%nat.
Proof.
  intros Hp. unfold turns, Str.slice_to.
  pose proof (take_length (Str.clamp c p) c) as Hlen.
  destruct (Z.eqb_spec p (Str.rfind "::" c)) as [->|Hne].
  - destruct (rfind_scope c) as [H|H]; [done|].
    assert (Str.clamp c (Str.rfind "::" c) = Z.to_nat (Str.rfind "::" c)) as Hc.
    { unfold Str.clamp. destruct (Z.ltb_spec (Str.rfind "::" c) 0); [lia|].
      f_equal. lia. }
    rewrite Hc in *. unfold Str.len in H.
    destruct (_ =? _); lia.
  - destruct (Nat.lt_ge_cases (Str.clamp c p) (String.length c)) as [Hlt|Hge].
    + destruct (_ =? _); lia.
    + rewrite (take_all _ _ Hge), Z.eqb_refl. lia.
Qed.

Section Fuel.
Variable xmls : gmap string xml.

Lemma enclosing_step fuel c p :
  enclosing xmls fuel c p
  = if negb (p =? -1) && negb (isfile xmls (doxy_filename xmls c)) then
      match fuel with
      | O => c
      | S fuel' =>
          enclosing xmls fuel' (Str.slice_to c p) (Str.rfind "::" c)
      end
    else c.
Proof. by destruct fuel. Qed.

Lemma enclosing_any_fuel : forall k c p n m,
  (turns c p <= k)%nat -> (k <= n)%nat -> (k <= m)%nat ->
  enclosing xmls n c p = enclosing xmls m c p.
Proof.
  induction k as [|k IH]; intros c p n m Hk Hn Hm;
    rewrite (enclosing_step n), (enclosing_step m);
    destruct (Z.eqb_spec p (-1)) as [->|Hp]; try done;
    destruct (isfile xmls (doxy_filename xmls c)); try done; cbn [negb andb].
  - exfalso. unfold turns in Hk.
    destruct c as [|a c]; [|cbn in Hk; lia].
    change (Str.rfind "::" "") with (-1) in Hk.
    destruct (Z.eqb_spec p (-1)); [done|cbn in Hk; lia].
  - pose proof (turns_decrease c p Hp).
    destruct n as [|n], m as [|m]; try lia. apply (IH _ _ n m); lia.
Qed.

(** The loop ends within [turns] turns: more fuel gives the same
    scope. *)
Lemma enclosing_fuel c p n :
  (turns c p <= n)%nat ->
  enclosing xmls n c p = enclosing xmls (turns c p) c p.
Proof. intros H. by apply (enclosing_any_fuel (turns c p)). Qed.

End Fuel.

End EnclosingFacts.

(** ** The symbol database: what is parsed, and how often *)

Module DoxyFacts.
Import Doxy.

Global Instance quiet_preorder c : PreOrder (quiet c).
Proof.
  split.
  - by intros s.
  - intros s1 s2 s3 (Hd & Hx & Hw & Hn & Hp) (Hd' & Hx' & Hw' & Hn' & Hp').
    unfold quiet. split_and!; [by etrans|congruence..].
Qed.

Section Keeps.
Context (R : state -> state -> Prop) `{!PreOrder R}.

Lemma keeps_ret {A} (a : A) : keeps R (ret a).
Proof. by intros s. Qed.

Lemma keeps_raise {A} e : keeps R (@raise state A e).
Proof. by intros s. Qed.

Lemma keeps_lift {A} (o : outcome A) : keeps R (lift o).
Proof. by intros s. Qed.

Lemma keeps_get : keeps R get.
Proof. by intros s. Qed.

Lemma keeps_bind {A B} (m : M state A) (k : A -> M state B) :
  keeps R m -> (forall a, keeps R (k a)) -> keeps R (bind m k).
Proof.
  intros Hm Hk s. unfold bind. pose proof (Hm s) as H1.
  destruct (m s) as [[a|e] s1]; [|done].
  etrans; [exact H1|apply Hk].
Qed.

Lemma keeps_for_each {A} (l : list A) (body : A -> M state unit) :
  (forall x, keeps R (body x)) -> keeps R (for_each l body).
Proof.
  intros Hb. induction l as [|x l IH]; [apply keeps_ret|].
  cbn [for_each]. by apply keeps_bind.
Qed.

Lemma keeps_modify (f : state -> state) :
  (forall s, R s (f s)) -> keeps R (modify f).
Proof. intros Hf s. apply Hf. Qed.

End Keeps.

Lemma class_parses_app c l l' :
  class_parses c (l ++ l') = (class_parses c l + class_parses c l')%nat.
Proof.
  induction l as [|[c' p|p] l IH]; cbn; [done| |done].
  destruct (String.eqb c' c); cbn; by rewrite IH.
Qed.

Lemma quiet_set_dict c k v s : quiet c s (set_dict <[k := v]> s).
Proof.
  unfold quiet. split_and!; try done. cbn. rewrite dom_insert. set_solver.
Qed.

Ltac keeps_step :=
  first
    [ apply (keeps_ret (quiet _)) | apply (keeps_raise (quiet _))
    | apply (keeps_lift (quiet _)) | apply (keeps_get (quiet _))
    | apply keeps_modify; intros ?; apply quiet_set_dict
    | apply (keeps_for_each (quiet _)); intros ?
    | apply (keeps_bind (quiet _)); [|intros ?]
    | match goal with
      | |- keeps _ (if ?b then _ else _) => destruct b
      | |- keeps _ (match ?o with Some _ => _ | None => _ end) => destruct o
      end ].

(** The final lookup leaves the state alone. *)
Lemma lookup_state name params s : (lookup name params s).2 = s.
Proof.
  unfold lookup.
  destruct (DOXY_DICT s !! name) as [[|t a|d]|], params as [p|]; try done.
  - destruct (a !! p); [done|]. by destruct (Xml.attr p _).
  - by destruct (d !! p).
Qed.

Section Quiet.
Variable xmls : gmap string xml.
Variable c : string.

Lemma quiet_set_item n p x : keeps (quiet c) (set_item n p x).
Proof.
  intros s. unfold set_item.
  destruct (DOXY_DICT s !! n) as [[|t a|d]|]; try done; apply quiet_set_dict.
Qed.

Lemma quiet_index_member cl x : keeps (quiet c) (index_member cl x).
Proof.
  unfold index_member, name_text.
  repeat first [apply quiet_set_item | keeps_step].
Qed.

Lemma quiet_index_namespace_member ns x :
  keeps (quiet c) (index_namespace_member ns x).
Proof. unfold index_namespace_member, name_text. repeat keeps_step. Qed.

Lemma quiet_log_namespace p s : quiet c s (log (ParsedNamespace p) s).
Proof.
  unfold quiet. split_and!; try done. cbn. rewrite class_parses_app. cbn. lia.
Qed.

Lemma quiet_log_class c' p s : c' <> c -> quiet c s (log (ParsedClass c' p) s).
Proof.
  intros Hc%String.eqb_neq. unfold quiet. split_and!; try done. cbn.
  rewrite class_parses_app. cbn. rewrite Hc. lia.
Qed.

Lemma quiet_scan_file fname : keeps (quiet c) (scan_file xmls fname).
Proof.
  unfold scan_file. destruct (negb _); [apply (keeps_ret (quiet c))|].
  apply (keeps_bind (quiet c)).
  - intros s. unfold parse. destruct (xmls !! _); [apply quiet_log_namespace|done].
  - intros doc. repeat first [apply quiet_index_namespace_member | keeps_step].
Qed.

Lemma quiet_scan_namespaces : keeps (quiet c) (scan_namespaces xmls).
Proof. apply (keeps_for_each (quiet c)). apply quiet_scan_file. Qed.

Lemma quiet_load_class c' : c' <> c -> keeps (quiet c) (load_class xmls c').
Proof.
  intros Hc. unfold load_class.
  apply (keeps_bind (quiet c)).
  - intros s. unfold parse. destruct (xmls !! _); [by apply quiet_log_class|done].
  - intros doc. repeat first [apply quiet_index_member | keeps_step].
Qed.

(** Reading the file of [c] parses it once and gives [c] an entry. *)
Lemma load_class_parsed_once s :
  isfile xmls (doxy_filename xmls c) = true ->
  class_parses c (parsed s) = O ->
  parsed_once c (load_class xmls c s).2.
Proof.
  intros Hf H0. unfold load_class, bind at 1, parse.
  unfold isfile in Hf. apply bool_decide_eq_true in Hf as [doc Hdoc].
  rewrite Hdoc. set (s1 := log _ s).
  unfold bind at 1. cbn [modify]. set (s2 := set_dict _ s1).
  pose proof (keeps_for_each (quiet c) (Xml.find_all "memberdef" doc)
                (index_member c) (quiet_index_member c) s2)
    as (Hd & _ & _ & _ & Hp).
  right. rewrite Hp. split.
  - subst s2 s1. cbn. rewrite class_parses_app, H0. cbn.
    by rewrite String.eqb_refl.
  - apply Hd. subst s2. cbn. rewrite dom_insert. set_solver.
Qed.

Lemma parsed_once_quiet s s' : quiet c s s' -> parsed_once c s -> parsed_once c s'.
Proof.
  intros (Hd & _ & _ & _ & Hp) [H0|[H1 Hin]]; [left|right]; rewrite Hp;
    [done|]. split; [done|]. by apply Hd.
Qed.

Lemma populate_parsed_once name s :
  parsed_once c s -> parsed_once c (populate xmls name s).2.
Proof.
  intros Hinv. unfold populate, bind, get.
  destruct (in_dict name s); [done|].
  set (cl := enclosing _ _ _ _).
  destruct (isfile xmls (doxy_filename xmls cl)) eqn:Hf; cbn [andb].
  - destruct (in_dict cl s) eqn:Hin; [done|]. cbn [negb].
    destruct (decide (cl = c)) as [->|Hne].
    + apply load_class_parsed_once; [done|].
      destruct Hinv as [H0|[_ Hc]]; [done|].
      unfold in_dict in Hin. apply bool_decide_eq_false in Hin.
      by apply elem_of_dom in Hc.
    + eapply parsed_once_quiet; [|done]. by apply quiet_load_class.
  - destruct (negb (in_dict cl s)); [|done].
    eapply parsed_once_quiet; [|done]. apply quiet_scan_namespaces.
Qed.

Lemma doxy_xml_parsed_once name params s :
  parsed_once c s -> parsed_once c (doxy_xml xmls name params s).2.
Proof.
  intros Hinv. unfold doxy_xml.
  destruct (xml_cache s !! (name, params)); [done|].
  unfold doxy_xml_body, bind.
  pose proof (populate_parsed_once name s Hinv) as H.
  destruct (populate xmls name s) as [[[]|e] s1]; [|done]. cbn in H.
  pose proof (lookup_state name params s1) as Hl.
  destruct (lookup name params s1) as [[r|e] s2]; cbn in Hl; by subst s2.
Qed.

Lemma lookups_parsed_once keys : forall s,
  parsed_once c s -> parsed_once c (lookups xmls keys s).
Proof.
  induction keys as [|[name params] keys IH]; intros s Hinv; [done|].
  cbn [lookups]. by apply IH, doxy_xml_parsed_once.
Qed.

End Quiet.

(** C8, as stated, fails for the namespace files: two lookups of
    names that are nowhere parse the namespace file twice. *)
Lemma namespace_file_parsed_again :
  namespace_parses "build/xml/namespacelibsemigroups.xml"
    (parsed (lookups some_xmls
               [("libsemigroups::bar", None); ("libsemigroups::baz", None)]
               initial))
  = 2%nat.
Proof. vm_compute. reflexivity. Qed.

(** C8, amended.  Over any sequence of lookups in one process the file
    of a class or struct is parsed at most once for that class name: it
    is parsed only when the name has no entry in [__DOXY_DICT], and
    parsing gives it one.  (The namespace files are not kept track of:
    each lookup that reaches the scan parses them all again.) *)
Theorem class_file_parsed_at_most_once (xmls : gmap string xml)
    (keys : list (string * option string)) (c : string) :
  (class_parses c (parsed (lookups xmls keys initial)) <= 1)%nat /\
  (class_parses c (parsed (lookups xmls keys initial)) = 1%nat ->
   c ∈ dom (DOXY_DICT (lookups xmls keys initial))).
Proof.
  assert (parsed_once c initial) as H0 by (by left).
  destruct (lookups_parsed_once xmls c keys initial H0) as [H|[H Hin]];
    rewrite H; split; (lia || done).
Qed.

Lemma class_file_parsed_at_most_once_witness :
  class_parses "libsemigroups::Bar"
    (parsed (lookups some_xmls
               [("libsemigroups::Bar::size", None);
                ("libsemigroups::Bar::size", Some "() const");
                ("libsemigroups::Bar::nope", None);
                ("libsemigroups::Bar", None)] initial))
  = 1%nat /\
  "libsemigroups::Bar" ∈ dom (DOXY_DICT
    (lookups some_xmls
               [("libsemigroups::Bar::size", None);
                ("libsemigroups::Bar::size", Some "() const");
                ("libsemigroups::Bar::nope", None);
                ("libsemigroups::Bar", None)] initial)).
Proof.
  assert (class_parses "libsemigroups::Bar"
    (parsed (lookups some_xmls
               [("libsemigroups::Bar::size", None);
                ("libsemigroups::Bar::size", Some "() const");
                ("libsemigroups::Bar::nope", None);
                ("libsemigroups::Bar", None)] initial)) = 1%nat) as H
    by (vm_compute; reflexivity).
  split; [exact H|].
  by apply (class_file_parsed_at_most_once some_xmls _ "libsemigroups::Bar").
Defined.

End DoxyFacts.

(** ** The symbol database: names that are not there *)

Module MissingFacts.
Import Doxy DoxyFacts.

Lemma never_ret {A} e (a : A) : never e (ret a).
Proof. by intros s. Qed.

Lemma never_raise {A} e e' : e' <> e -> never e (@raise state A e').
Proof. intros H s [= ?]. done. Qed.

Lemma never_lift {A} e (o : outcome A) : o <> Exc e -> never e (lift o).
Proof. intros H s. exact H. Qed.

Lemma never_get e : never e get.
Proof. by intros s. Qed.

Lemma never_modify e f : never e (modify f).
Proof. by intros s. Qed.

Lemma never_bind {A B} e (m : M state A) (k : A -> M state B) :
  never e m -> (forall a, never e (k a)) -> never e (bind m k).
Proof.
  intros Hm Hk s. unfold bind. pose proof (Hm s) as H.
  destruct (m s) as [[a|e'] s1]; [apply Hk|].
  cbn in *. intros [= ->]. by apply H.
Qed.

Lemma never_for_each {A} e (l : list A) (body : A -> M state unit) :
  (forall x, never e (body x)) -> never e (for_each l body).
Proof.
  intros Hb. induction l as [|x l IH]; [apply never_ret|].
  cbn [for_each]. by apply never_bind.
Qed.

Lemma collect_exc {A B} (f : A -> outcome B) (E : exn) l e :
  (forall a e, f a = Exc e -> e = E) ->
  Render.collect f l = Exc e -> e = E.
Proof.
  intros Hf. induction l as [|a l IH]; cbn; [done|].
  destruct (f a) as [b|e'] eqn:Ea; [|intros [= <-]; by apply (Hf a)].
  destruct (Render.collect f l); [done|]. intros [= <-]. by apply IH.
Qed.

Lemma types_of_exc l e : types_of l = Exc e -> e = AttributeError.
Proof.
  apply collect_exc. intros a e'. by destruct (Xml.find "type" a); intros [=].
Qed.

Lemma signature_of_exc x e : signature_of x = Exc e -> e = AttributeError.
Proof.
  unfold signature_of.
  destruct (Xml.find "templateparamlist" x) as [t|].
  - destruct (types_of (Xml.find_all "param" t)) eqn:E1;
      [|intros [= <-]; by apply types_of_exc in E1].
    destruct (types_of (Xml.find_all "param" x)) eqn:E2;
      [|intros [= <-]; by apply types_of_exc in E2].
    by destruct (Xml.find "argsstring" x); intros [=].
  - destruct (types_of (Xml.find_all "param" x)) eqn:E2;
      [|intros [= <-]; by apply types_of_exc in E2].
    by destruct (Xml.find "argsstring" x); intros [=].
Qed.

Lemma never_name_text x : never KeyError (name_text x).
Proof.
  unfold name_text. apply never_lift. by destruct (Xml.find "name" x).
Qed.

(** The assignment [__DOXY_DICT[mem_def_name][param] = x] finds the
    entry that the line before it makes sure of. *)
Lemma never_file_member k param x :
  never KeyError
    (s0 <- get ;;
     (if bool_decide (is_Some (DOXY_DICT s0 !! k))
      then ret tt
      else modify (set_dict <[k := VDict ∅]>)) ;;;
     set_item k param x)%py.
Proof.
  intros s. unfold bind, get. cbn.
  destruct (bool_decide (is_Some (DOXY_DICT s !! k))) eqn:E; cbn.
  - apply bool_decide_eq_true in E as [v Hv]. unfold set_item. rewrite Hv.
    by destruct v.
  - unfold set_item. cbn. by rewrite lookup_insert_eq.
Qed.

Lemma never_if {A} e (b : bool) (m1 m2 : M state A) :
  never e m1 -> never e m2 -> never e (if b then m1 else m2).
Proof. by destruct b. Qed.

Lemma never_index_member cl x : never KeyError (index_member cl x).
Proof.
  unfold index_member. apply never_if; [apply never_ret|].
  apply never_bind; [apply never_name_text|]. intros n.
  apply never_bind; [apply never_get|]. intros s0.
  apply never_if.
  - apply never_if; [by apply never_raise|apply never_modify].
  - apply never_bind.
    + apply never_lift. intros H. by apply signature_of_exc in H.
    + intros param. apply never_file_member.
Qed.

Section Missing.
Variable xmls : gmap string xml.

Lemma never_parse ev path : never KeyError (parse xmls ev path).
Proof. intros s. unfold parse. by destruct (xmls !! path). Qed.

Lemma never_load_class cl : never KeyError (load_class xmls cl).
Proof.
  unfold load_class. apply never_bind; [apply never_parse|]. intros doc.
  apply never_bind; [apply never_modify|]. intros _.
  apply never_for_each, never_index_member.
Qed.

Lemma never_index_namespace_member ns x :
  never KeyError (index_namespace_member ns x).
Proof.
  unfold index_namespace_member.
  apply never_bind; [apply never_name_text|]. intros n.
  apply never_bind; [apply never_get|]. intros s0.
  apply never_if; [apply never_ret|apply never_modify].
Qed.

Lemma never_scan_file fname : never KeyError (scan_file xmls fname).
Proof.
  unfold scan_file. apply never_if; [apply never_ret|].
  apply never_bind; [apply never_parse|]. intros doc.
  apply never_bind.
  - apply never_lift. by destruct (Xml.find "compoundname" doc).
  - intros ns. apply never_for_each, never_index_namespace_member.
Qed.

Lemma never_populate name : never KeyError (populate xmls name).
Proof.
  unfold populate. apply never_bind; [apply never_get|]. intros s0.
  apply never_if; [apply never_ret|].
  apply never_if; [apply never_load_class|].
  apply never_if; [|apply never_ret].
  apply never_for_each, never_scan_file.
Qed.

Lemma lookup_dict name params s t :
  DOXY_DICT s = DOXY_DICT t ->
  lookup name params t = ((lookup name params s).1, t).
Proof.
  intros H. unfold lookup. rewrite H.
  destruct (DOXY_DICT t !! name) as [[|x a|d]|], params as [p|]; try done.
  - destruct (a !! p); [done|]. by destruct (Xml.attr p _).
  - by destruct (d !! p).
Qed.

Lemma in_dict_dom name s : in_dict name s = true <-> name ∈ dom (DOXY_DICT s).
Proof.
  unfold in_dict. rewrite bool_decide_eq_true. by rewrite elem_of_dom.
Qed.

(** A member of a namespace file that was filed once is found filed
    when the file is scanned again. *)
Lemma namespace_member_again ns x s sa t :
  index_namespace_member ns x s = (Ret tt, sa) ->
  dom (DOXY_DICT sa) ⊆ dom (DOXY_DICT t) ->
  index_namespace_member ns x t = (Ret tt, t).
Proof.
  unfold index_namespace_member, name_text, bind, lift, get.
  destruct (Render.opt_or _ _) as [n|e]; [|done].
  destruct (in_dict (ns +:+ "::" +:+ n) s) eqn:E.
  - intros [= <-] Hsub. apply in_dict_dom in E.
    assert (in_dict (ns +:+ "::" +:+ n) t = true) as ->; [|done].
    apply in_dict_dom. by apply Hsub.
  - intros [= <-] Hsub.
    assert (in_dict (ns +:+ "::" +:+ n) t = true) as ->; [|done].
    apply in_dict_dom, Hsub. cbn. rewrite dom_insert. set_solver.
Qed.

Lemma namespace_members_again ns l : forall s sa t,
  for_each l (index_namespace_member ns) s = (Ret tt, sa) ->
  dom (DOXY_DICT sa) ⊆ dom (DOXY_DICT t) ->
  for_each l (index_namespace_member ns) t = (Ret tt, t).
Proof.
  induction l as [|x l IH]; intros s sa t; [done|]. cbn [for_each].
  intros (? & s1 & H1 & Hrest)%bind_ret_inv Hsub.
  pose proof (keeps_for_each (quiet "") l (index_namespace_member ns)
                (quiet_index_namespace_member "" ns) s1) as [Hd _].
  rewrite Hrest in Hd. cbn in Hd.
  unfold bind. destruct x0.
  rewrite (namespace_member_again ns x s s1 t H1) by (by etrans).
  by apply (IH s1 sa t).
Qed.

Lemma scan_file_again fname s sa t :
  scan_file xmls fname s = (Ret tt, sa) ->
  dom (DOXY_DICT sa) ⊆ dom (DOXY_DICT t) ->
  exists t', scan_file xmls fname t = (Ret tt, t') /\
             DOXY_DICT t' = DOXY_DICT t.
Proof.
  unfold scan_file. destruct (negb _); [by exists t|].
  unfold bind, parse, lift.
  destruct (xmls !! _) as [doc|]; [|done].
  destruct (Render.opt_or _ _) as [ns|e]; [|done].
  intros H Hsub. exists (log (ParsedNamespace ("build/xml/" +:+ fname)) t).
  split; [|done]. by eapply namespace_members_again.
Qed.

(** Scanning the namespace files a second time adds nothing to
    [__DOXY_DICT]. *)
Lemma scan_again names : forall s sa t,
  for_each names (scan_file xmls) s = (Ret tt, sa) ->
  dom (DOXY_DICT sa) ⊆ dom (DOXY_DICT t) ->
  exists t', for_each names (scan_file xmls) t = (Ret tt, t') /\
             DOXY_DICT t' = DOXY_DICT t.
Proof.
  induction names as [|f names IH]; intros s sa t; [by exists t|].
  cbn [for_each].
  intros ([] & s1 & H1 & Hrest)%bind_ret_inv Hsub.
  pose proof (keeps_for_each (quiet "") names (scan_file xmls)
                (quiet_scan_file xmls "") s1) as [Hd _].
  rewrite Hrest in Hd. cbn in Hd.
  destruct (scan_file_again f s s1 t H1) as (t1 & Ht1 & Hd1); [by etrans|].
  destruct (IH s1 sa t1 Hrest) as (t' & Ht' & Hd'); [by rewrite Hd1|].
  exists t'. unfold bind. rewrite Ht1. split; [done|congruence].
Qed.

Lemma cons_neq (a : ascii) (x : string) : x <> String a x.
Proof.
  intros H. apply (f_equal String.length) in H. cbn in H. lia.
Qed.

(** [populate] only adds entries, and leaves the cache of [doxy_xml]
    alone. *)
Lemma populate_grows name s :
  dom (DOXY_DICT s) ⊆ dom (DOXY_DICT (populate xmls name s).2) /\
  xml_cache (populate xmls name s).2 = xml_cache s.
Proof.
  unfold populate, bind, get. destruct (in_dict name s); [done|].
  set (cl := enclosing _ _ _ _).
  destruct (_ && _).
  - by destruct (quiet_load_class xmls (String "x" cl) cl (cons_neq _ _) s)
      as (? & ? & _).
  - destruct (negb _); [|done].
    by destruct (quiet_scan_namespaces xmls "" s) as (? & ? & _).
Qed.

(** Reading the file of a class gives the class an entry. *)
Lemma load_class_entry cl s :
  isfile xmls (doxy_filename xmls cl) = true ->
  cl ∈ dom (DOXY_DICT (load_class xmls cl s).2).
Proof.
  intros Hf. unfold load_class, bind at 1, parse.
  unfold isfile in Hf. apply bool_decide_eq_true in Hf as [doc Hdoc].
  rewrite Hdoc. set (s1 := log _ s).
  unfold bind at 1. cbn [modify]. set (s2 := set_dict _ s1).
  pose proof (keeps_for_each (quiet "") (Xml.find_all "memberdef" doc)
                (index_member cl) (quiet_index_member "" cl) s2)
    as (Hd & _).
  apply Hd. subst s2. cbn. rewrite dom_insert. set_solver.
Qed.

(** After [populate] has returned, running it again returns and adds
    nothing to [__DOXY_DICT]. *)
Lemma populate_again name s s1 :
  populate xmls name s = (Ret tt, s1) ->
  exists s2, populate xmls name s1 = (Ret tt, s2) /\
             DOXY_DICT s2 = DOXY_DICT s1.
Proof.
  unfold populate, bind, get.
  destruct (in_dict name s1) eqn:E1; [by exists s1|].
  destruct (in_dict name s) eqn:E; [intros [= <-]; congruence|].
  set (cl := enclosing _ _ _ _).
  destruct (isfile xmls (doxy_filename xmls cl)) eqn:Hf; cbn [andb].
  - destruct (in_dict cl s) eqn:Hin; cbn [negb].
    + intros [= <-]. rewrite Hin. by exists s.
    + intros Hl. pose proof (load_class_entry cl s Hf) as Hcl.
      rewrite Hl in Hcl. apply in_dict_dom in Hcl. cbn [snd] in Hcl.
      rewrite Hcl. by exists s1.
  - destruct (in_dict cl s) eqn:Hin; cbn [negb].
    + intros [= <-]. rewrite Hin. by exists s.
    + intros Hscan. destruct (in_dict cl s1); [by exists s1|]. cbn [negb].
      by apply (scan_again (build_xml_names xmls) s s1 s1).
Qed.

End Missing.

Lemma doxy_warn_once fname name params t :
  let t' := (doxy_warn fname name params t).2 in
  WARNINGS t' = WARNINGS t
                + (if decide ((fname, name, params) ∈ warn_cache t)
                   then 0 else 1) /\
  doxy_warn fname name params t' = (Ret tt, t').
Proof.
  unfold doxy_warn. destruct (decide _) as [Hin|Hout]; cbn.
  - rewrite decide_True by done. split; [lia|done].
  - rewrite decide_True by set_solver. done.
Qed.

(** C7, as stated, fails: with nothing in [build/xml] the lookup of
    [a::b] raises the first time and the second time; and the callers
    warn about it once for each yml file that names it. *)
Lemma missing_key_raises_twice :
  (doxy_xml ∅ "a::b" None initial).1 = Exc KeyError /\
  (doxy_xml ∅ "a::b" None (doxy_xml ∅ "a::b" None initial).2).1
  = Exc KeyError /\
  WARNINGS (doxy_tparams_try ∅ "y.yml" "a::b" None
              (doxy_tparams_try ∅ "x.yml" "a::b" None initial).2).2 = 2.
Proof. vm_compute. done. Qed.

(** C7, amended.  A lookup that raised the not-found condition
    ([KeyError]) raises it again when it is made again: [lru_cache]
    keeps nothing for a call that raised, the body runs anew, adds
    nothing to [__DOXY_DICT], and fails as before.  [doxy_warn] gives
    one warning for each distinct yml file, name and parameter string:
    its first call for them adds one to the warning count, and a
    further call adds nothing. *)
Theorem missing_key_raises_each_time (xmls : gmap string xml)
    (name : string) (params : option string) (s s' : state) :
  doxy_xml xmls name params s = (Exc KeyError, s') ->
  (exists s'', doxy_xml xmls name params s' = (Exc KeyError, s'') /\
               DOXY_DICT s'' = DOXY_DICT s') /\
  (forall fname t,
     let t' := (doxy_warn fname name params t).2 in
     WARNINGS t' = WARNINGS t
                   + (if decide ((fname, name, params) ∈ warn_cache t)
                      then 0 else 1) /\
     doxy_warn fname name params t' = (Ret tt, t')).
Proof.
  intros H. split; [|intros fname t; apply doxy_warn_once].
  unfold doxy_xml in H.
  destruct (xml_cache s !! (name, params)) eqn:Hc; [done|].
  destruct (doxy_xml_body xmls name params s) as [[r|e] sb] eqn:Hb; [done|].
  injection H as -> ->. unfold doxy_xml_body, bind in Hb.
  pose proof (never_populate xmls name s) as Hnever.
  pose proof (populate_grows xmls name s) as [_ Hcache].
  destruct (populate xmls name s) as [[[]|e] s1] eqn:Hp; cbn in *.
  - pose proof (lookup_state name params s1) as Hs. rewrite Hb in Hs.
    cbn in Hs. subst s1.
    destruct (populate_again xmls name s s' Hp) as (s2 & Hp2 & Hd2).
    exists s2. split; [|done]. unfold doxy_xml.
    rewrite Hcache, Hc. unfold doxy_xml_body, bind. rewrite Hp2.
    rewrite (lookup_dict name params s' s2) by done. by rewrite Hb.
  - injection Hb as -> ->. done.
Qed.

Lemma missing_key_raises_each_time_witness :
  exists s'',
    doxy_xml some_xmls "libsemigroups::nope" None
      (doxy_xml some_xmls "libsemigroups::nope" None initial).2
    = (Exc KeyError, s'').
Proof.
  destruct (missing_key_raises_each_time some_xmls "libsemigroups::nope" None
              initial
              (doxy_xml some_xmls "libsemigroups::nope" None initial).2)
    as [(s'' & H & _) _]; [vm_compute; reflexivity|].
  by exists s''.
Defined.

End MissingFacts.
(** ** Output policy: what a whole run does to the output directory *)

Module OutputFacts.
Import Files Policy.

(** A relation that every turn of a loop keeps is kept by the loop,
    however it ends. *)
Lemma for_each_keeps {S A} (R : S -> S -> Prop) `{!PreOrder R}
    (body : A -> M S unit) (l : list A) :
  (forall x, x ∈ l -> forall s, R s (body x s).2) ->
  forall s, R s (for_each l body s).2.
Proof.
  induction l as [|x l IH]; intros Hb s; cbn; [done|].
  unfold bind. pose proof (Hb x ltac:(left) s) as Hx.
  destruct (body x s) as [[[]|e] s1]; cbn in *; [|done].
  etrans; [exact Hx|]. apply IH. intros y Hy. apply Hb. by right.
Qed.

#[local] Instance only_removes_preorder : PreOrder only_removes.
Proof.
  split.
  - intros s. unfold only_removes. split_and!; try done. intros p. by left.
  - intros s1 s2 s3 (W1 & A1 & C1 & N1 & D1) (W2 & A2 & C2 & N2 & D2).
    unfold only_removes. split_and!; try congruence. intros p.
    destruct (D1 p) as [E1|(G1 & O1 & En1 & b1 & F1)],
             (D2 p) as [E2|(G2 & O2 & En2 & b2 & F2)].
    + left. congruence.
    + right. rewrite W1 in O2. split_and!; try done. exists b2. congruence.
    + right. split_and!; try done; [congruence|by exists b1].
    + congruence.
Qed.

(** The names of a listing are entries of the directory. *)
Lemma listdir_entry s names s' :
  listdir generated_dir s = (Ret names, s') ->
  forall n, n ∈ names ->
    entry_of generated_dir (path_join generated_dir n) = Some n.
Proof.
  unfold listdir. destruct (disk s !! generated_dir) as [[|]|]; try done.
  intros [= <- <-] n Hn.
  apply list_elem_of_omap in Hn as ([p x] & _ & Hp). cbn in Hp.
  by rewrite <- (CleanUpFacts.entry_of_path _ _ _ Hp).
Qed.

Lemma clean_one_only_removes n s :
  entry_of generated_dir (path_join generated_dir n) = Some n ->
  only_removes s (clean_one n s).2.
Proof.
  intros Hn. unfold clean_one, bind, get, ret. cbn.
  destruct (decide _) as [Hin|Hout]; [reflexivity|].
  unfold info, remove, modify. cbn.
  destruct (disk s !! path_join generated_dir n) as [[b|]|] eqn:E; cbn;
    unfold only_removes; cbn; split_and!; try done; try (by left).
  intros p. destruct (decide (p = path_join generated_dir n)) as [->|Hp].
  - right. rewrite lookup_delete_eq. split_and!; try done; [by exists n|by exists b].
  - left. by apply lookup_delete_ne.
Qed.

Lemma clean_up_keeps s : only_removes s (clean_up s).2.
Proof.
  unfold clean_up, bind.
  destruct (listdir generated_dir s) as [[names|e] s1] eqn:El.
  - pose proof (listdir_entry _ _ _ El) as Hnames.
    apply CleanUpFacts.listdir_names in El as [-> _].
    apply (for_each_keeps only_removes). intros n Hn s1.
    by apply clean_one_only_removes, Hnames.
  - assert (s1 = s) as ->; [|reflexivity].
    unfold listdir in El. by destruct (disk s !! generated_dir) as [[|]|];
      injection El.
Qed.

(** X1.  [__clean_up] only removes, and only what is its to remove:
    however it ends, every path holds what it held before, or it held a
    regular file directly in [source/_generated] that no call had
    recorded, and is gone.  The record and the counters stay. *)
Theorem clean_up_only_removes (s : state) :
  let s' := (clean_up s).2 in
  RST_FILES_WRITTEN s' = RST_FILES_WRITTEN s /\
  REWRITES_ATTEMPTED s' = REWRITES_ATTEMPTED s /\
  REWRITES_ACTUAL s' = REWRITES_ACTUAL s /\
  forall p,
    disk s' !! p = disk s !! p \/
    (disk s' !! p = None /\
     (p ∉ dom (RST_FILES_WRITTEN s)) /\
     (exists n, entry_of generated_dir p = Some n) /\
     exists b, disk s !! p = Some (File b)).
Proof.
  destruct (clean_up_keeps s) as (HW & HA & HC & _ & HD). by split_and!.
Qed.

(** *** One call of [__write_file_if_changed] *)

Lemma write_one_attempt f c s :
  one_attempt f s (write_file_if_changed f c s).2.
Proof.
  destruct (FilesFacts.write_file_if_changed_cases s f c)
    as [[-> _]|[[-> _]|[e ->]]]; unfold one_attempt; cbn.
  - split_and!; try done; [lia|by left].
  - split_and!; try done; [lia|right; lia|].
    intros p Hp. by rewrite !lookup_insert_ne.
  - split_and!; try done; [lia|by left].
Qed.

(** A call that returns leaves a regular file that holds the contents,
    or that reads as the contents. *)
Lemma write_holds f c s s1 :
  write_file_if_changed f c s = (Ret tt, s1) ->
  exists b, disk s1 !! f = Some (File b) /\ (b = c \/ read_text b = c).
Proof.
  destruct (FilesFacts.write_file_if_changed_cases s f c)
    as [[-> U]|[[-> _]|[e ->]]]; [| |done].
  - intros [= <-]. cbn. unfold unchanged in U.
    destruct (disk s !! f) as [[b|]|]; try done.
    exists b. split; [done|right]. by apply String.eqb_eq.
  - intros [= <-]. cbn. exists c. rewrite lookup_insert_eq. by split; [|left].
Qed.

(** *** The loop over the pages *)

Lemma write_pages_cons pg pages s :
  write_pages (pg :: pages) s
  = match write_file_if_changed (page_filename pg) (page_out pg) s with
    | (Ret _, s1) => write_pages pages s1
    | (Exc e, s1) => (Exc e, s1)
    end.
Proof. done. Qed.

Lemma write_pages_counts pages : forall s,
  let r := write_pages pages s in
  REWRITES_ACTUAL s <= REWRITES_ACTUAL r.2 /\
  REWRITES_ACTUAL r.2 - REWRITES_ACTUAL s
    <= REWRITES_ATTEMPTED r.2 - REWRITES_ATTEMPTED s /\
  REWRITES_ATTEMPTED r.2 - REWRITES_ATTEMPTED s <= Z.of_nat (length pages) /\
  (r.1 = Ret tt ->
   REWRITES_ATTEMPTED r.2 = REWRITES_ATTEMPTED s + Z.of_nat (length pages)).
Proof.
  induction pages as [|pg pages IH]; intros s.
  - cbn. split_and!; try lia.
  - cbn zeta. rewrite write_pages_cons.
    pose proof (write_one_attempt (page_filename pg) (page_out pg) s)
      as (HA & HC & _).
    destruct (write_file_if_changed _ _ s) as [[[]|e] s1];
      cbn [fst snd] in HA, HC |- *.
    + specialize (IH s1). cbn zeta in IH. destruct IH as (I1 & I2 & I3 & I4).
      rewrite length_cons, Nat2Z.inj_succ. split_and!; try lia.
      intros Hr. specialize (I4 Hr). lia.
    + rewrite length_cons, Nat2Z.inj_succ. split_and!; try lia. done.
Qed.

(** The loop leaves alone every path that is no file name of a page,
    and the record only grows. *)
Lemma write_pages_frame pages : forall s,
  let s' := (write_pages pages s).2 in
  dom (RST_FILES_WRITTEN s) ⊆ dom (RST_FILES_WRITTEN s') /\
  forall p, p ∉ page_filename <$> pages -> disk s' !! p = disk s !! p.
Proof.
  induction pages as [|pg pages IH]; intros s; [done|].
  cbn zeta. rewrite write_pages_cons.
  pose proof (write_one_attempt (page_filename pg) (page_out pg) s)
    as (_ & _ & _ & HD).
  pose proof (CleanUpFacts.write_file_if_changed_records
                (page_filename pg) (page_out pg) s) as HW.
  assert (dom (RST_FILES_WRITTEN s)
          ⊆ dom (<[page_filename pg := true]> (RST_FILES_WRITTEN s))) as Hsub
    by (rewrite dom_insert; apply union_subseteq_r).
  destruct (write_file_if_changed _ _ s) as [[[]|e] s1];
    cbn [fst snd] in HD, HW |- *.
  - destruct (IH s1) as [I1 I2]. rewrite <- HW in Hsub. split; [by etrans|].
    intros p Hp. rewrite fmap_cons, not_elem_of_cons in Hp.
    destruct Hp as [Hne Hp]. rewrite (I2 p Hp). by apply HD.
  - rewrite <- HW in Hsub. split; [done|].
    intros p Hp. rewrite fmap_cons, not_elem_of_cons in Hp. apply HD, Hp.
Qed.

(** After a loop that returns, the file of each page is recorded and
    holds the text of the page, when no two pages share a file. *)
Lemma write_pages_present pages : forall s s',
  write_pages pages s = (Ret tt, s') ->
  NoDup (page_filename <$> pages) ->
  forall pg, pg ∈ pages ->
    page_filename pg ∈ dom (RST_FILES_WRITTEN s') /\
    exists b, disk s' !! page_filename pg = Some (File b) /\
              (b = page_out pg \/ read_text b = page_out pg).
Proof.
  induction pages as [|pg0 pages IH]; intros s s' Hrun Hnd pg Hpg.
  - by apply elem_of_nil in Hpg.
  - rewrite write_pages_cons in Hrun.
    pose proof (CleanUpFacts.write_file_if_changed_records
                  (page_filename pg0) (page_out pg0) s) as HW.
    destruct (write_file_if_changed _ _ s) as [[[]|e] s1] eqn:E1; [|done].
    cbn [snd] in HW. rewrite fmap_cons in Hnd. apply NoDup_cons in Hnd as [Hout Hnd].
    apply elem_of_cons in Hpg as [->|Hpg]; [|by apply (IH s1)].
    pose proof (write_pages_frame pages s1) as [Hsub Hframe]. cbn zeta in *.
    rewrite Hrun in *. cbn [snd] in *. split.
    + apply Hsub. rewrite HW, dom_insert. by apply elem_of_union_l, elem_of_singleton.
    + rewrite (Hframe _ Hout). by apply (write_holds _ _ s).
Qed.

(** A loop over pages that are all up to date returns, and changes
    neither the disk nor the count of the files written. *)
Lemma write_pages_same pages : forall s,
  (forall pg, pg ∈ pages ->
     unchanged (disk s) (page_filename pg) (page_out pg) = true) ->
  exists s', write_pages pages s = (Ret tt, s') /\
    disk s' = disk s /\ REWRITES_ACTUAL s' = REWRITES_ACTUAL s /\
    stdout s' = stdout s /\
    forall pg, pg ∈ pages -> page_filename pg ∈ dom (RST_FILES_WRITTEN s').
Proof.
  induction pages as [|pg0 pages IH]; intros s Hsame.
  - exists s. split_and!; try done. intros pg Hpg. by apply elem_of_nil in Hpg.
  - rewrite write_pages_cons.
    rewrite (FilesFacts.write_file_if_changed_same s _ _
               (Hsame pg0 ltac:(left))).
    set (s1 := set_written _ _).
    destruct (IH s1) as (s' & Hrun & Hd & Ha & Ho & Hrec).
    { intros pg Hpg. apply Hsame. by right. }
    exists s'. split_and!; try done.
    intros pg [->|Hpg]%elem_of_cons; [|by apply Hrec].
    pose proof (write_pages_frame pages s1) as [Hsub _]. cbn zeta in Hsub.
    rewrite Hrun in Hsub. apply Hsub. subst s1. cbn. rewrite dom_insert.
    by apply elem_of_union_l, elem_of_singleton.
Qed.

(** *** The whole run *)

(** When [os.mkdir] in its [try] statement returns, [source] is a
    directory. *)
Lemma mkdir_returned s s0 :
  pass_if_exists (mkdir generated_dir) s = (Ret tt, s0) ->
  disk s !! "source" = Some Dir.
Proof.
  unfold pass_if_exists, mkdir.
  destruct (no_way (disk s) generated_dir) as [e|] eqn:W.
  { by destruct (FilesFacts.no_way_error _ _ _ W) as [->| ->]. }
  intros _. unfold no_way in W.
  change (String.eqb generated_dir "") with false in W.
  change (parents generated_dir) with ["source"] in W. cbn in W.
  by destruct (disk s !! "source") as [[b|]|].
Qed.

(** Where [source] and [source/_generated] are directories, it changes
    nothing. *)
Lemma mkdir_again s :
  disk s !! "source" = Some Dir -> disk s !! generated_dir = Some Dir ->
  pass_if_exists (mkdir generated_dir) s = (Ret tt, s).
Proof.
  intros Hs Hg. unfold pass_if_exists, mkdir, no_way.
  change (String.eqb generated_dir "") with false.
  change (parents generated_dir) with ["source"]. cbn [blocked].
  by rewrite Hs, Hg.
Qed.

Lemma page_filename_not_source pg : page_filename pg <> "source".
Proof.
  intros H. apply (f_equal (Str.startswith "source/")) in H.
  destruct pg; vm_compute in H; discriminate H.
Qed.

Lemma main_output_inv pages s s' :
  main_output pages s = (Ret tt, s') ->
  exists s0 sa,
    pass_if_exists (mkdir generated_dir) s = (Ret tt, s0) /\
    write_pages pages s0 = (Ret tt, sa) /\
    clean_up sa = (Ret tt, s').
Proof.
  unfold main_output. intros H.
  apply bind_ret_inv in H as ([] & s0 & H0 & H).
  apply bind_ret_inv in H as ([] & sa & Ha & Hc). by exists s0, sa.
Qed.

Lemma main_output_eq pages s :
  main_output pages s
  = match pass_if_exists (mkdir generated_dir) s with
    | (Ret _, s0) =>
        match write_pages pages s0 with
        | (Ret _, sa) => clean_up sa
        | (Exc e, sa) => (Exc e, sa)
        end
    | (Exc e, s0) => (Exc e, s0)
    end.
Proof. done. Qed.

(** X2.  The two numbers of the summary line: however the run ends,
    the files written are at most the files attempted, which are at
    most the pages; a run that returns has attempted every page. *)
Theorem rewrites_counted (pages : list page) (d : gmap string node) :
  let r := main_output pages (initial d) in
  0 <= REWRITES_ACTUAL r.2 <= REWRITES_ATTEMPTED r.2 /\
  REWRITES_ATTEMPTED r.2 <= Z.of_nat (length pages) /\
  (r.1 = Ret tt -> REWRITES_ATTEMPTED r.2 = Z.of_nat (length pages)).
Proof.
  cbn zeta. rewrite main_output_eq.
  pose proof (CleanUpFacts.mkdir_effect generated_dir (initial d))
    as (_ & HA0 & HC0 & _). cbn zeta in HA0, HC0.
  change (REWRITES_ATTEMPTED (initial d)) with 0 in HA0.
  change (REWRITES_ACTUAL (initial d)) with 0 in HC0.
  destruct (pass_if_exists (mkdir generated_dir) (initial d))
    as [[[]|e0] s0]; cbn [fst snd] in *.
  - pose proof (write_pages_counts pages s0) as (I1 & I2 & I3 & I4).
    destruct (write_pages pages s0) as [[[]|e] sa]; cbn [fst snd] in *.
    + destruct (clean_up_keeps sa) as (_ & HA & HC & _). rewrite HA, HC.
      split_and!; try lia. intros _. specialize (I4 eq_refl). lia.
    + split_and!; try lia. done.
  - rewrite HA0, HC0. split_and!; try lia. done.
Qed.

(** X3.  After a run that returns, each page that the run emitted is a
    regular file of the output directory, and holds the text of the
    page, as written or as read, when no two pages share a file. *)
Theorem pages_are_there (pages : list page) (d : gmap string node)
    (s' : state) :
  main_output pages (initial d) = (Ret tt, s') ->
  NoDup (page_filename <$> pages) ->
  forall pg, pg ∈ pages ->
    exists b, disk s' !! page_filename pg = Some (File b) /\
              (b = page_out pg \/ read_text b = page_out pg).
Proof.
  intros (s0 & sa & _ & Ha & Hc)%main_output_inv Hnd pg Hpg.
  destruct (write_pages_present _ _ _ Ha Hnd pg Hpg) as (Hrec & b & Hb & Ht).
  apply CleanUpFacts.clean_up_spec in Hc as (_ & Hkeep & _).
  exists b. by rewrite (Hkeep _ Hrec).
Qed.

Lemma pages_are_there_witness :
  exists s',
    main_output [Overview "A" "text"; Overview "B" "new"] (initial old_disk)
    = (Ret tt, s') /\
    exists b, disk s' !! "source/_generated/b.rst" = Some (File b) /\
              (b = "new" \/ read_text b = "new").
Proof.
  eexists. split; [vm_compute; reflexivity|].
  apply (pages_are_there [Overview "A" "text"; Overview "B" "new"] old_disk _
           ltac:(vm_compute; reflexivity)
           ltac:(apply (bool_decide_unpack _); vm_compute; exact I)
           (Overview "B" "new")).
  right; left.
Defined.

(** The loop of [__clean_up] over names that were all recorded does
    nothing. *)
Lemma clean_loop_nothing names : forall s,
  (forall n, n ∈ names ->
     path_join generated_dir n ∈ dom (RST_FILES_WRITTEN s)) ->
  for_each names clean_one s = (Ret tt, s).
Proof.
  induction names as [|n names IH]; intros s Hrec; [done|].
  cbn. unfold bind at 1.
  assert (clean_one n s = (Ret tt, s)) as ->.
  { unfold clean_one, bind, get, ret. cbn.
    destruct (decide _) as [|Hout]; [done|]. destruct Hout. apply Hrec. left. }
  apply IH. intros m Hm. apply Hrec. by right.
Qed.

Lemma clean_up_nothing s :
  disk s !! generated_dir = Some Dir ->
  (forall p n, entry_of generated_dir p = Some n -> is_Some (disk s !! p) ->
     p ∈ dom (RST_FILES_WRITTEN s)) ->
  clean_up s = (Ret tt, s).
Proof.
  intros Hdir Hrec. unfold clean_up, bind.
  destruct (listdir generated_dir s) as [[names|e] s1] eqn:El.
  - pose proof (listdir_entry _ _ _ El) as Hentry.
    pose proof (CleanUpFacts.listdir_NoDup _ _ _ El) as [_ Hsome].
    apply CleanUpFacts.listdir_names in El as [-> _].
    apply clean_loop_nothing. intros n Hn.
    by apply (Hrec _ n); [apply Hentry|apply Hsome].
  - unfold listdir in El. by rewrite Hdir in El.
Qed.

(** After a [__clean_up] that returns, the output directory is a
    directory still. *)
Lemma clean_up_dir s s' :
  clean_up s = (Ret tt, s') -> disk s' !! generated_dir = Some Dir.
Proof.
  intros Hc. pose proof (clean_up_keeps s) as (_ & _ & _ & _ & HD).
  rewrite Hc in HD. cbn [snd] in HD.
  assert (disk s !! generated_dir = Some Dir) as Hdir.
  { unfold clean_up, bind, listdir in Hc.
    by destruct (disk s !! generated_dir) as [[|]|]. }
  destruct (HD generated_dir) as [->|(_ & _ & [n Hn] & _)]; [done|].
  by vm_compute in Hn.
Qed.

(** After a run that returns, what the output directory holds is the
    file of a page. *)
Lemma main_output_entries pages d s' :
  main_output pages (initial d) = (Ret tt, s') ->
  forall p n, entry_of generated_dir p = Some n -> is_Some (disk s' !! p) ->
    exists pg, pg ∈ pages /\ page_filename pg = p.
Proof.
  intros (s0 & sa & H0 & Ha & Hc)%main_output_inv p n Hn Hp.
  pose proof (CleanUpFacts.mkdir_effect generated_dir (initial d)) as [HW0 _].
  cbn zeta in HW0. rewrite H0 in HW0. cbn [snd] in HW0.
  apply CleanUpFacts.clean_up_spec in Hc as (_ & _ & Hgone).
  destruct (decide (p ∈ dom (RST_FILES_WRITTEN sa))) as [Hin|Hout].
  - pose proof (CleanUpFacts.write_loop_records pages s0 p) as Hrec.
    fold (write_pages pages) in Hrec. rewrite Ha in Hrec.
    destruct (Hrec Hin) as [H|H]; [|done].
    rewrite HW0 in H. cbn in H. rewrite dom_empty in H.
    by apply elem_of_empty in H.
  - rewrite (Hgone p n Hn Hout) in Hp. by destruct Hp.
Qed.

(** X4.  A second run rewrites nothing: after a run that returned, in
    which no two pages shared a file and no page had a carriage return
    in its text, the same pages run from the disk it left return, write
    no file, print nothing and leave the disk as it is. *)
Theorem second_run_rewrites_nothing (pages : list page)
    (d : gmap string node) (s1 : state) :
  main_output pages (initial d) = (Ret tt, s1) ->
  NoDup (page_filename <$> pages) ->
  Forall (fun pg => has_cr (page_out pg) = false) pages ->
  exists s2,
    main_output pages (initial (disk s1)) = (Ret tt, s2) /\
    disk s2 = disk s1 /\ REWRITES_ACTUAL s2 = 0 /\ stdout s2 = [].
Proof.
  intros Hrun Hnd Hcr.
  pose proof (main_output_entries _ _ _ Hrun) as Hentries.
  apply main_output_inv in Hrun as (s0 & sa & H0 & Ha & Hc).
  pose proof (clean_up_dir _ _ Hc) as Hdir.
  assert (disk s1 !! "source" = Some Dir) as Hsrc.
  { pose proof (mkdir_returned _ _ H0) as Hd. cbn in Hd.
    pose proof (CleanUpFacts.mkdir_effect generated_dir (initial d))
      as (_ & _ & _ & _ & H0d & _).
    cbn zeta in H0d. rewrite H0 in H0d. cbn [snd] in H0d.
    pose proof (write_pages_frame pages s0) as [_ Hfr]. cbn zeta in Hfr.
    rewrite Ha in Hfr. cbn [snd] in Hfr.
    pose proof (clean_up_keeps sa) as (_ & _ & _ & _ & HD).
    rewrite Hc in HD. cbn [snd] in HD.
    destruct (HD "source") as [->|(_ & _ & [n Hn] & _)];
      [|by vm_compute in Hn].
    rewrite Hfr, H0d; [done|done|].
    intros (pg & Hpg & _)%list_elem_of_fmap.
    by destruct (page_filename_not_source pg). }
  assert (forall pg, pg ∈ pages ->
            unchanged (disk s1) (page_filename pg) (page_out pg) = true)
    as Hsame.
  { intros pg Hpg.
    destruct (write_pages_present _ _ _ Ha Hnd pg Hpg) as (Hrec & b & Hb & Ht).
    apply CleanUpFacts.clean_up_spec in Hc as (_ & Hkeep & _).
    unfold unchanged. rewrite (Hkeep _ Hrec), Hb. apply String.eqb_eq.
    destruct Ht as [->|Ht]; [|done].
    apply FilesFacts.read_text_no_cr. rewrite Forall_forall in Hcr.
    by apply Hcr. }
  rewrite main_output_eq.
  rewrite (mkdir_again (initial (disk s1))) by done.
  destruct (write_pages_same pages (initial (disk s1)) Hsame)
    as (ta & -> & Hd & Hact & Hout & Hrec). cbn in Hd, Hact, Hout.
  exists ta. split; [|done]. apply clean_up_nothing; [by rewrite Hd|].
  intros p n Hn Hp. rewrite Hd in Hp.
  destruct (Hentries p n Hn Hp) as (pg & Hpg & <-). by apply Hrec.
Qed.

Lemma second_run_rewrites_nothing_witness :
  exists s1 s2,
    main_output [Overview "A" "text"; Overview "B" "new"] (initial old_disk)
    = (Ret tt, s1) /\
    REWRITES_ACTUAL s1 = 1 /\
    main_output [Overview "A" "text"; Overview "B" "new"] (initial (disk s1))
    = (Ret tt, s2) /\
    disk s2 = disk s1 /\ REWRITES_ACTUAL s2 = 0 /\ stdout s2 = [].
Proof.
  eexists.
  destruct (second_run_rewrites_nothing
              [Overview "A" "text"; Overview "B" "new"] old_disk _
              ltac:(vm_compute; reflexivity)
              ltac:(apply (bool_decide_unpack _); vm_compute; exact I)
              ltac:(repeat constructor)) as (s2 & H2).
  exists s2. split; [vm_compute; reflexivity|].
  split; [vm_compute; reflexivity|]. exact H2.
Defined.

End OutputFacts.
(** ** File names of pages *)

Module PageNameFacts.

Lemma all_not_occurs Q a s :
  Q a = false -> Str.all Q s = true -> Str.occurs a s = false.
Proof.
  intros Ha. induction s as [|c s IH]; [done|]. cbn.
  intros [Hc Hs]%andb_true_iff. rewrite (IH Hs), orb_false_r.
  destruct (Ascii.eqb_spec a c) as [->|]; [congruence|done].
Qed.

Lemma occurs_app a s t :
  Str.occurs a (s +:+ t) = Str.occurs a s || Str.occurs a t.
Proof.
  induction s as [|c s IH]; [done|].
  change (Str.occurs a (String c (s +:+ t))
          = Str.occurs a (String c s) || Str.occurs a t).
  cbn. by rewrite IH, orb_assoc.
Qed.

Lemma rfind_char_none a s i best :
  Str.occurs a s = false -> Str.rfind_from (String a EmptyString) s i best = best.
Proof.
  revert i best. induction s as [|c s IH]; intros i best; [done|].
  cbn. intros [Hc Hs]%orb_false_elim. rewrite Hc. by apply IH.
Qed.

(** A name without a slash, put into the output directory, is an entry
    of that directory, and is what follows the last slash. *)
Lemma generated_entry x :
  Str.occurs "/" x = false -> x <> EmptyString ->
  Files.entry_of generated_dir (path_join generated_dir x) = Some x /\
  toctree_entry (path_join generated_dir x) = x.
Proof.
  intros Hx Hne. split.
  - unfold Files.entry_of. cbn. unfold Str.contains, Str.find.
    rewrite (SignatureFacts.find_char_none _ _ _ Hx). cbn.
    by destruct x.
  - unfold toctree_entry, Str.rfind, Str.slice_from, Str.clamp, Str.len.
    unfold path_join, generated_dir.
    cbv [String.append].
    cbn [Str.rfind_from Str.startswith Ascii.eqb Bool.eqb String.length].
    rewrite (rfind_char_none _ _ _ _ Hx).
    replace (Z.to_nat _) with 18%nat; [done|].
    destruct (_ <? 0) eqn:E; [apply Z.ltb_lt in E|]; lia.
Qed.

(** X5.  The file of a page is an entry of the output directory.  For
    a class and a name given by code points up to U+00FF, the file name
    that [filename_from_cppname] gives is made of lower-case word
    characters; with [.rst] it is the name of the page in
    [source/_generated], and also the line of the toctree for it. *)
Theorem page_file_is_entry (class_ name : string) :
  let w := filename_from_cppname (class_ +:+ "::" +:+ name) in
  let v := filename_from_cppname name in
  Wide.filename_from_cppname (Wide.codes (class_ +:+ "::" +:+ name))
  = Some (Wide.codes w) /\
  Wide.filename_from_cppname (Wide.codes name) = Some (Wide.codes v) /\
  Str.all Char.plain w = true /\
  Files.entry_of generated_dir (subpage_filename class_ name)
  = Some (w +:+ ".rst") /\
  toctree_entry (subpage_filename class_ name) = w +:+ ".rst" /\
  Files.entry_of generated_dir (overview_filename name) = Some (v +:+ ".rst").
Proof.
  assert (forall u, Str.occurs "/" (filename_from_cppname u +:+ ".rst") = false
                    /\ filename_from_cppname u +:+ ".rst" <> EmptyString)
    as Hu.
  { intros u. split.
    - rewrite occurs_app, (all_not_occurs Char.plain); [done..|].
      apply FilenameFacts.filename_plain.
    - by destruct (filename_from_cppname u). }
  cbn zeta. split; [apply FilenameFacts.filename_codes|].
  split; [apply FilenameFacts.filename_codes|].
  split; [apply FilenameFacts.filename_plain|].
  destruct (Hu (class_ +:+ "::" +:+ name)) as [H1 H2], (Hu name) as [H3 H4].
  destruct (generated_entry _ H1 H2) as [E1 E2].
  destruct (generated_entry _ H3 H4) as [E3 _]. by split_and!.
Qed.

End PageNameFacts.
(** ** The shape of a normalized parameter list *)

Module ShapeFacts.
Import Spacing.

Lemma settled_tidy s : pairs settled s = true -> pairs tidy s = true.
Proof.
  apply NormalizeFacts.pairs_weaken. unfold settled, tidy.
  by intros b a [H _]%andb_true_iff.
Qed.

(** X6.  What [doxy_normalize_yml_params] returns has no white space at
    its start or its end, no two white spaces in a row and no white
    space next to a comma; unless the final [& ) >] was tightened, a
    space stands wherever one of the four insertions wants one, except
    next to a comma. *)
Theorem doxy_normalize_yml_params_shape (s : string) :
  let y := doxy_normalize_yml_params s in
  starts_ns y = true /\ ends_ns y = true /\ pairs tidy y = true /\
  (Str.endswith "& ) >" (normalize_spacing s) = false ->
   pairs settled y = true).
Proof.
  cbn zeta. pose proof (NormalizeFacts.normalize_spacing_normal s) as Hn.
  unfold doxy_normalize_yml_params.
  destruct (Str.endswith "& ) >" (normalize_spacing s)) eqn:E.
  - destruct (NormalizeFacts.endswith_app _ _ E) as [P HP].
    rewrite HP in Hn |- *. rewrite NormalizeFacts.sub_patch.
    destruct Hn as (H1 & H2 & H3). split_and!; [| | |done].
    + rewrite NormalizeFacts.starts_app in H1 |- *. by destruct (String.eqb P "").
    + by rewrite NormalizeFacts.ends_app.
    + apply settled_tidy in H3. rewrite NormalizeFacts.pairs_app in H3 |- *.
      apply andb_true_iff in H3 as [H3 _]. by rewrite H3.
  - destruct Hn as (H1 & H2 & H3). split_and!; try done. by apply settled_tidy.
Qed.

End ShapeFacts.
(** ** Qualified names: splitting at [::] *)

Module SplitFacts.

(** *** One turn of [split] at [::] *)

Lemma startswith_sep c s :
  Str.startswith "::" (String c s) = true ->
  c = ":"%char /\ exists rest, s = String ":" rest.
Proof.
  cbn [Str.startswith]. destruct (Ascii.eqb_spec ":" c) as [<-|]; [|done].
  destruct s as [|d rest]; [done|].
  destruct (Ascii.eqb_spec ":" d) as [<-|]; [|done]. intros _. by eauto.
Qed.

Lemma split_cases cur c s :
  (exists rest, c = ":"%char /\ s = String ":" rest /\
     Str.split_go "::" 0 cur (String c s)
     = Str.rev cur :: Str.split_go "::" 0 EmptyString rest) \/
  (Str.startswith "::" (String c s) = false /\
   Str.split_go "::" 0 cur (String c s)
   = Str.split_go "::" 0 (String c cur) s).
Proof.
  destruct (Str.startswith "::" (String c s)) eqn:E.
  - left. destruct (startswith_sep _ _ E) as (-> & rest & ->). by exists rest.
  - right. split; [done|]. cbn [Str.split_go]. by rewrite E.
Qed.

Lemma split_go_nonempty s : forall cur, Str.split_go "::" 0 cur s <> [].
Proof.
  induction s as [s IH] using NormalizeFacts.string_len_ind. intros cur.
  destruct s as [|c s]; [done|].
  destruct (split_cases cur c s) as [(rest & -> & -> & ->)|[_ ->]]; [done|].
  apply IH. cbn. lia.
Qed.

Lemma join_cons sep x l :
  l <> [] -> Str.join sep (x :: l) = x +:+ sep +:+ Str.join sep l.
Proof. by destruct l. Qed.

(** *** Joining what was split *)

Lemma join_split_go s : forall cur,
  Str.join "::" (Str.split_go "::" 0 cur s) = Str.rev cur +:+ s.
Proof.
  induction s as [s IH] using NormalizeFacts.string_len_ind. intros cur.
  destruct s as [|c s]; [by rewrite append_nil_r|].
  destruct (split_cases cur c s) as [(rest & -> & -> & ->)|[_ ->]].
  - rewrite join_cons by apply split_go_nonempty.
    rewrite IH by (cbn; lia). done.
  - rewrite IH by (cbn; lia).
    by rewrite NormalizeFacts.rev_cons, append_assoc.
Qed.

Lemma join_split s : Str.join "::" (Str.split "::" s) = s.
Proof. apply (join_split_go s EmptyString). Qed.

(** A piece without a colon, before the first [::]. *)
Lemma split_go_plain pre : forall cur x,
  Str.occurs ":" pre = false ->
  Str.split_go "::" 0 cur (pre +:+ "::" +:+ x)
  = (Str.rev cur +:+ pre) :: Str.split_go "::" 0 EmptyString x.
Proof.
  induction pre as [|c pre IH]; intros cur x Hpre.
  - by rewrite append_nil_r.
  - cbn in Hpre. apply orb_false_elim in Hpre as [Hc Hpre].
    change (String c pre +:+ "::" +:+ x) with (String c (pre +:+ "::" +:+ x)).
    destruct (split_cases cur c (pre +:+ "::" +:+ x))
      as [(rest & -> & _)|[_ ->]]; [done|].
    rewrite IH by done.
    by rewrite NormalizeFacts.rev_cons, append_assoc.
Qed.

(** X7.  [strip_libsemigroups_prefix] takes [libsemigroups::] off the
    front of a name, once; the name [libsemigroups] itself becomes the
    empty string; every other name is returned as it is. *)
Theorem strip_libsemigroups_prefix_spec (name : string) :
  strip_libsemigroups_prefix ("libsemigroups::" +:+ name) = name /\
  strip_libsemigroups_prefix "libsemigroups" = EmptyString /\
  (Str.startswith "libsemigroups::" name = false ->
   name <> "libsemigroups" ->
   strip_libsemigroups_prefix name = name).
Proof.
  split_and!.
  - unfold strip_libsemigroups_prefix, Str.split.
    change ("libsemigroups::" +:+ name)
      with ("libsemigroups" +:+ "::" +:+ name).
    rewrite (split_go_plain "libsemigroups") by done.
    cbn. apply (join_split_go name EmptyString).
  - done.
  - intros Hpre Hne. unfold strip_libsemigroups_prefix.
    destruct (String.length name =? 0)%nat; [done|].
    pose proof (join_split name) as Hj.
    destruct (Str.split "::" name) as [|s0 rest]; [done|].
    destruct (String.eqb_spec s0 "libsemigroups") as [->|]; [|done].
    destruct rest as [|s1 rest]; [by destruct Hne|].
    rewrite join_cons in Hj by done. rewrite <- Hj in Hpre. by cbn in Hpre.
Qed.

Lemma strip_libsemigroups_prefix_spec_witness :
  strip_libsemigroups_prefix "libsemigroups::Bipartition" = "Bipartition" /\
  strip_libsemigroups_prefix "std::vector" = "std::vector".
Proof.
  split.
  - exact (proj1 (strip_libsemigroups_prefix_spec "Bipartition")).
  - apply (proj2 (proj2 (strip_libsemigroups_prefix_spec "std::vector")));
      [reflexivity | discriminate].
Defined.

(** *** Pieces hold no [::] *)

(** [::] is not found in a string: not at its head, and not further
    on. *)
Lemma find_none_cons c t i :
  0 <= i ->
  Str.find_from "::" (String c t) i = -1 <->
  Str.startswith "::" (String c t) = false /\
  Str.find_from "::" t (i + 1) = -1.
Proof.
  intros Hi. cbn [Str.find_from]. destruct (Str.startswith "::" (String c t)).
  - split; [lia|]. by intros [? _].
  - split; [done|]. by intros [_ ?].
Qed.

Lemma find_found q u : forall i,
  0 <= i -> Str.find_from "::" (q +:+ "::" +:+ u) i <> -1.
Proof.
  induction q as [|c q IH]; intros i Hi.
  - change ("" +:+ "::" +:+ u) with (String ":" (String ":" u)). cbn. lia.
  - change (String c q +:+ "::" +:+ u) with (String c (q +:+ "::" +:+ u)).
    cbn [Str.find_from]. destruct (Str.startswith _ _); [lia|].
    apply IH. lia.
Qed.

(** Two strings with the same first two characters. *)
Lemma startswith_two c d t u :
  Str.startswith "::" (String c (String d t))
  = Str.startswith "::" (String c (String d u)).
Proof.
  cbn [Str.startswith]. destruct (Ascii.eqb ":" c); [|done].
  by destruct (Ascii.eqb ":" d).
Qed.

Lemma free_snoc t : forall c d i,
  0 <= i ->
  Str.find_from "::" (t +:+ String c EmptyString) i = -1 ->
  Str.startswith "::" (String c (String d EmptyString)) = false ->
  Str.find_from "::" (t +:+ String c (String d EmptyString)) i = -1.
Proof.
  induction t as [|a t IH]; intros c d i Hi Ht Hcd.
  - change (EmptyString +:+ ?x) with x in *. cbn [Str.find_from].
    rewrite Hcd. cbn [Str.startswith]. by destruct (Ascii.eqb ":" d).
  - change (String a t +:+ ?x) with (String a (t +:+ x)) in *.
    apply find_none_cons in Ht as [Ha Ht]; [|done].
    apply find_none_cons; [done|]. split; [|apply IH; [lia|done..]].
    destruct t as [|b t].
    + change (EmptyString +:+ ?x) with x in *.
      by rewrite (startswith_two a c _ EmptyString).
    + change (String b t +:+ ?x) with (String b (t +:+ x)) in *.
      by rewrite (startswith_two a b _ (t +:+ String c EmptyString)).
Qed.

Lemma free_init t : forall c i,
  0 <= i ->
  Str.find_from "::" (t +:+ String c EmptyString) i = -1 ->
  Str.find_from "::" t i = -1.
Proof.
  induction t as [|a t IH]; intros c i Hi Ht; [done|].
  change (String a t +:+ ?x) with (String a (t +:+ x)) in Ht.
  apply find_none_cons in Ht as [Ha Ht]; [|done].
  apply find_none_cons; [done|]. split; [|apply (IH c); [lia|done]].
  destruct t as [|b t];
    [by cbn [Str.startswith]; destruct (Ascii.eqb ":" a)|].
  change (String b t +:+ ?x) with (String b (t +:+ x)) in *.
  by rewrite (startswith_two a b _ (t +:+ String c EmptyString)).
Qed.

Lemma free_one s : Str.find_from "::" (Str.take 1 s) 0 = -1.
Proof.
  destruct s as [|c s]; [done|].
  cbn [Str.take Str.find_from Str.startswith].
  by destruct (Ascii.eqb ":" c).
Qed.

(** With [cur] read and [s] ahead, where [::] is neither in [cur] nor
    across its end, no piece of the split holds [::]. *)
Lemma split_go_free s : forall cur,
  Str.find_from "::" (Str.rev cur +:+ Str.take 1 s) 0 = -1 ->
  Forall (fun t => Str.find_from "::" t 0 = -1) (Str.split_go "::" 0 cur s).
Proof.
  induction s as [s IH] using NormalizeFacts.string_len_ind. intros cur Hcur.
  destruct s as [|c s].
  - cbn in *. rewrite append_nil_r in Hcur. by apply Forall_singleton.
  - change (Str.take 1 (String c s)) with (String c EmptyString) in Hcur.
    destruct (split_cases cur c s) as [(rest & -> & -> & ->)|[Hno ->]].
    + apply Forall_cons. split; [by apply (free_init _ ":")|].
      apply IH; [cbn; lia|]. apply free_one.
    + apply IH; [cbn; lia|]. rewrite NormalizeFacts.rev_cons, append_assoc.
      destruct s as [|d s]; [by rewrite append_nil_r|].
      change (Str.take 1 (String d s)) with (String d EmptyString).
      apply free_snoc; [done..|].
      by rewrite (startswith_two c d EmptyString s).
Qed.

Lemma last_elem (l : list string) d : l <> [] -> List.last l d ∈ l.
Proof.
  induction l as [|x l IH]; [done|]. intros _.
  destruct l as [|y l]; [by left|]. right. by apply IH.
Qed.

Lemma join_last l :
  l <> [] ->
  Str.join "::" l = List.last l EmptyString \/
  exists q, Str.join "::" l = q +:+ "::" +:+ List.last l EmptyString.
Proof.
  induction l as [|x l IH]; [done|]. intros _.
  destruct l as [|y l]; [by left|]. right.
  rewrite join_cons by done.
  change (List.last (x :: y :: l) EmptyString)
    with (List.last (y :: l) EmptyString).
  destruct (IH ltac:(done)) as [->|[q ->]]; [by exists x|].
  exists (x +:+ "::" +:+ q). by rewrite !append_assoc.
Qed.

(** X8.  [unqualified_name] gives the part of a name after its last
    [::]: the result holds no [::], the name is the result or ends in
    [::] and the result, and a name without [::] is returned as it
    is. *)
Theorem unqualified_name_spec (name : string) :
  let u := unqualified_name name in
  Str.contains "::" u = false /\
  (name = u \/ exists q, name = q +:+ "::" +:+ u) /\
  (Str.contains "::" name = false -> u = name).
Proof.
  cbn zeta.
  assert (Str.contains "::" (unqualified_name name) = false /\
          (name = unqualified_name name \/
           exists q, name = q +:+ "::" +:+ unqualified_name name))
    as [H1 H2].
  { unfold unqualified_name.
    destruct (String.length name =? 0)%nat eqn:E.
    - apply Nat.eqb_eq in E. destruct name; [|done]. split; [done|by left].
    - pose proof (split_go_free name EmptyString) as Hfree.
      pose proof (join_last (Str.split "::" name)
                    (split_go_nonempty name EmptyString)) as Hlast.
      rewrite join_split in Hlast. split; [|done].
      unfold Str.contains, Str.find.
      assert (Str.find_from "::"
                (List.last (Str.split "::" name) EmptyString) 0 = -1) as ->;
        [|done].
      specialize (Hfree (free_one name)). rewrite Forall_forall in Hfree.
      apply Hfree, last_elem, (split_go_nonempty name EmptyString). }
  split_and!; [done..|].
  intros Hno. destruct H2 as [H2|[q Hq]]; [done|].
  exfalso. unfold Str.contains, Str.find in Hno.
  apply negb_false_iff, Z.eqb_eq in Hno.
  rewrite Hq in Hno. by apply (find_found q _ 0) in Hno.
Qed.

Lemma unqualified_name_spec_witness :
  unqualified_name "libsemigroups::FroidurePin" = "FroidurePin" /\
  unqualified_name "size" = "size".
Proof.
  split; [reflexivity|].
  apply (proj2 (proj2 (unqualified_name_spec "size"))). reflexivity.
Defined.

End SplitFacts.
(** ** Rendering: the context list, and the children of an enum *)

Module RenderOrderFacts.
Import Render.

(** X9.  [convert_to_rst] gives back the context as it found it: for
    every tag that is not itself called [enum], and for every tag of
    kind [enum], a call that returns leaves the default list and the
    caller's list exactly as they were, whatever the tree below. *)
Theorem convert_to_rst_restores_context (P : string -> option string)
    (x : xml) (c : cref) (s s' : lists) (t : string) :
  pops_match x ->
  convert_to_rst P x c s = (Ret t, s') ->
  s' = s.
Proof.
  intros Hx Hrun.
  by apply (ContextFacts.convert_balanced P (Xml.height x) x c Hx s t s').
Qed.

Lemma convert_to_rst_restores_context_witness :
  exists t,
    convert_to_rst no_prefixes listing Own (mkLists ["para"] ["memberdef"])
    = (Ret t, mkLists ["para"] ["memberdef"]).
Proof.
  destruct (convert_to_rst no_prefixes listing Own
              (mkLists ["para"] ["memberdef"])) as [[t|e] s'] eqn:E;
    [|by vm_compute in E].
  exists t. f_equal.
  apply (convert_to_rst_restores_context no_prefixes listing Own _ _ t);
    [by left|exact E].
Defined.

(** The body of a call on an enum reads its children through
    [enum_items] alone. *)
Lemma body_enum P rec n attrs cs c :
  Xml.attr_is "kind" "enum" attrs = true ->
  String.eqb n "compounddef" = false ->
  body P rec n attrs cs c
  = (append c n ;;;
     append c "enum" ;;;
     prefix <- (if String.eqb n "memberdef"
                then prefix_of P attrs else ret EmptyString) ;;
     items <- enum_items cs ;;
     result <- concat_each items (item rec c) ;;
     finish c prefix result)%py.
Proof. intros Hk Hn. unfold body, finish. by rewrite Hk, Hn. Qed.

(** X10.  The rendering of an enum does not depend on where its name
    and its brief description stand among its children: two enums with
    the same first [name], the same first [briefdescription] and the
    same other children in the same order are rendered alike. *)
Theorem enum_children_order (P : string -> option string) (n : string)
    (attrs : list (string * string)) (cs1 cs2 : list xml) (c : cref)
    (s : lists) :
  Xml.attr_is "kind" "enum" attrs = true ->
  n <> "compounddef" ->
  Xml.first_named "name" cs1 = Xml.first_named "name" cs2 ->
  Xml.first_named "briefdescription" cs1
  = Xml.first_named "briefdescription" cs2 ->
  List.filter (fun x => negb (Xml.named "briefdescription" x)
                        && negb (Xml.named "name" x)) cs1
  = List.filter (fun x => negb (Xml.named "briefdescription" x)
                          && negb (Xml.named "name" x)) cs2 ->
  convert_to_rst P (Elem n attrs cs1) c s
  = convert_to_rst P (Elem n attrs cs2) c s.
Proof.
  intros Hk Hn H1 H2 H3. apply String.eqb_neq in Hn.
  set (k := Nat.max (Xml.height (Elem n attrs cs1))
                    (Xml.height (Elem n attrs cs2))).
  rewrite <- (FuelFacts.convert_to_rst_fuel P _ c (S k) s) by lia.
  rewrite <- (FuelFacts.convert_to_rst_fuel P (Elem n attrs cs2) c (S k) s)
    by lia.
  cbn [convert]. rewrite !body_enum by done.
  unfold enum_items. by rewrite H1, H2, H3.
Qed.

Lemma enum_children_order_witness :
  let nm := Elem "name" [] [Text "Color"] in
  let bd := Elem "briefdescription" [] [Elem "para" [] [Text "Colours."]] in
  let ev := Elem "enumvalue" [] [Elem "name" [] [Text "red"]] in
  convert_to_rst no_prefixes (Elem "enum" [("kind", "enum")] [ev; bd; nm])
                 Own (mkLists [] [])
  = convert_to_rst no_prefixes (Elem "enum" [("kind", "enum")] [nm; bd; ev])
                   Own (mkLists [] []).
Proof.
  cbn zeta. apply enum_children_order; (reflexivity || discriminate).
Defined.

End RenderOrderFacts.
(** ** The symbol database: what a lookup leaves behind *)

Module DatabaseFacts.
Import Doxy DoxyFacts.

Section Lookups.
Variable xmls : gmap string xml.

(** Filling the dict only adds names, and touches neither cache nor the
    count of warnings. *)
Lemma populate_silent name s :
  dom (DOXY_DICT s) ⊆ dom (DOXY_DICT (populate xmls name s).2) /\
  xml_cache (populate xmls name s).2 = xml_cache s /\
  warn_cache (populate xmls name s).2 = warn_cache s /\
  WARNINGS (populate xmls name s).2 = WARNINGS s.
Proof.
  unfold populate, bind, get. destruct (in_dict name s); [done|].
  set (cl := enclosing _ _ _ _).
  destruct (_ && _).
  - by destruct (quiet_load_class xmls (String "x" cl) cl
                   (MissingFacts.cons_neq _ _) s) as (? & ? & ? & ? & _).
  - destruct (negb _); [|done].
    by destruct (quiet_scan_namespaces xmls "" s) as (? & ? & ? & ? & _).
Qed.

Lemma doxy_xml_silent name params s :
  dom (DOXY_DICT s) ⊆ dom (DOXY_DICT (doxy_xml xmls name params s).2) /\
  (forall k r, xml_cache s !! k = Some r ->
     xml_cache (doxy_xml xmls name params s).2 !! k = Some r) /\
  warn_cache (doxy_xml xmls name params s).2 = warn_cache s /\
  WARNINGS (doxy_xml xmls name params s).2 = WARNINGS s.
Proof.
  unfold doxy_xml.
  destruct (xml_cache s !! (name, params)) as [r0|] eqn:E; [done|].
  unfold doxy_xml_body, bind.
  pose proof (populate_silent name s) as (Hd & Hx & Hw & Hn).
  destruct (populate xmls name s) as [[[]|e] s1]; cbn [snd] in *;
    [|by rewrite Hx].
  pose proof (lookup_state name params s1) as Hl.
  destruct (lookup name params s1) as [[r|e] s2]; cbn [snd] in Hl; subst s2;
    cbn; [|by rewrite Hx].
  split_and!; try done. intros k r' Hk. rewrite lookup_insert_ne.
  - by rewrite Hx.
  - intros <-. congruence.
Qed.

Lemma lookups_silent keys : forall s,
  dom (DOXY_DICT s) ⊆ dom (DOXY_DICT (lookups xmls keys s)) /\
  (forall k r, xml_cache s !! k = Some r ->
     xml_cache (lookups xmls keys s) !! k = Some r) /\
  warn_cache (lookups xmls keys s) = warn_cache s /\
  WARNINGS (lookups xmls keys s) = WARNINGS s.
Proof.
  induction keys as [|[name params] keys IH]; intros s; [done|].
  cbn [lookups].
  destruct (doxy_xml_silent name params s) as (Hd & Hx & Hw & Hn).
  destruct (IH (doxy_xml xmls name params s).2) as (Hd' & Hx' & Hw' & Hn').
  split_and!; [by etrans| |congruence..].
  intros k r Hk. by apply Hx', Hx.
Qed.

End Lookups.

(** X11.  What [doxy_xml] has returned once it returns for good: after
    a call that returned [r], and any lookups made since, the same call
    returns [r] again and changes nothing, whatever [__DOXY_DICT] holds
    by then. *)
Theorem doxy_xml_memoized (xmls : gmap string xml) (name : string)
    (params : option string) (s s1 : state) (r : result)
    (keys : list (string * option string)) :
  doxy_xml xmls name params s = (Ret r, s1) ->
  let s2 := lookups xmls keys s1 in
  doxy_xml xmls name params s2 = (Ret r, s2).
Proof.
  intros Hrun. cbn zeta.
  assert (xml_cache s1 !! (name, params) = Some r) as Hc.
  { unfold doxy_xml in Hrun.
    destruct (xml_cache s !! (name, params)) as [r0|] eqn:E.
    - by injection Hrun as -> <-.
    - destruct (doxy_xml_body xmls name params s) as [[r0|e] s0]; [|done].
      injection Hrun as -> <-. cbn. apply lookup_insert_eq. }
  destruct (lookups_silent xmls keys s1) as (_ & Hx & _).
  unfold doxy_xml. by rewrite (Hx _ _ Hc).
Qed.

Lemma doxy_xml_memoized_witness :
  exists r s1,
    doxy_xml some_xmls "libsemigroups::Bar::size" None initial = (Ret r, s1) /\
    doxy_xml some_xmls "libsemigroups::Bar::size" None
      (lookups some_xmls [("libsemigroups::foo", None)] s1)
    = (Ret r, lookups some_xmls [("libsemigroups::foo", None)] s1).
Proof.
  destruct (doxy_xml some_xmls "libsemigroups::Bar::size" None initial)
    as [[r|e] s1] eqn:E; [|by vm_compute in E].
  exists r, s1. split; [done|].
  apply (doxy_xml_memoized some_xmls _ _ initial s1 r
           [("libsemigroups::foo", None)] E).
Defined.

(** X12.  Lookups never warn and never forget: whatever is looked up,
    and however each lookup ends, the count of warnings and the record
    of the warnings given stay as they are, and every name that
    [__DOXY_DICT] held is still there. *)
Theorem lookups_never_warn (xmls : gmap string xml)
    (keys : list (string * option string)) (s : state) :
  let s' := lookups xmls keys s in
  WARNINGS s' = WARNINGS s /\
  warn_cache s' = warn_cache s /\
  dom (DOXY_DICT s) ⊆ dom (DOXY_DICT s').
Proof.
  destruct (lookups_silent xmls keys s) as (Hd & _ & Hw & Hn). done.
Qed.

(** *** The scope that the loop of [doxy_xml] stops at *)

Lemma rfind_from_none c : forall i best j,
  0 <= i -> 0 <= j ->
  Str.rfind_from "::" c i best = -1 -> Str.find_from "::" c j = -1.
Proof.
  induction c as [|a c IH]; intros i best j Hi Hj H; [done|].
  cbn [Str.rfind_from] in H. apply SplitFacts.find_none_cons; [done|].
  destruct (Str.startswith "::" (String a c)) eqn:E.
  - exfalso.
    destruct (EnclosingFacts.rfind_from_bound "::" ltac:(done) c (i + 1) i);
      lia.
  - split; [done|]. apply (IH (i + 1) best); [lia..|done].
Qed.

Lemma find_take n : forall c j,
  0 <= j ->
  Str.find_from "::" c j = -1 -> Str.find_from "::" (Str.take n c) j = -1.
Proof.
  induction n as [|n IH]; intros [|a c] j Hj H; try done.
  cbn [Str.take]. apply SplitFacts.find_none_cons in H as [Ha H]; [|done].
  apply SplitFacts.find_none_cons; [done|]. split; [|apply IH; [lia|done]].
  destruct n as [|n], c as [|b c]; cbn [Str.take];
    try (by cbn [Str.startswith]; destruct (Ascii.eqb ":" a)).
  by rewrite (SplitFacts.startswith_two a b _ c).
Qed.

Lemma startswith_take n : forall c, Str.startswith (Str.take n c) c = true.
Proof.
  induction n as [|n IH]; intros [|a c]; cbn; try done.
  by rewrite Ascii.eqb_refl.
Qed.

Lemma startswith_trans a : forall b c,
  Str.startswith a b = true -> Str.startswith b c = true ->
  Str.startswith a c = true.
Proof.
  induction a as [|x a IH]; intros [|y b] [|z c]; cbn; try done.
  destruct (Ascii.eqb_spec x y) as [->|]; [|done].
  destruct (Ascii.eqb_spec y z) as [->|]; [|done]. apply IH.
Qed.

Lemma startswith_refl a : Str.startswith a a = true.
Proof. induction a as [|x a IH]; [done|]. cbn. by rewrite Ascii.eqb_refl. Qed.

Section Scope.
Variable xmls : gmap string xml.
Variable name : string.

Lemma enclosing_scope_go k : forall c p,
  (turns c p <= k)%nat ->
  Str.startswith c name = true ->
  (p = -1 -> Str.find "::" c = -1) ->
  Str.startswith (enclosing xmls k c p) name = true /\
  (isfile xmls (doxy_filename xmls (enclosing xmls k c p)) = true \/
   Str.contains "::" (enclosing xmls k c p) = false).
Proof.
  induction k as [|k IH]; intros c p Hk Hc Hp;
    rewrite EnclosingFacts.enclosing_step;
    destruct (Z.eqb_spec p (-1)) as [->|Hne];
    destruct (isfile xmls (doxy_filename xmls c)) eqn:F; cbn [negb andb];
    try (split; [done|by left]);
    try (split; [done|right; unfold Str.contains; by rewrite Hp]).
  - exfalso. unfold turns in Hk.
    destruct c as [|a c]; [|cbn in Hk; lia].
    change (Str.rfind "::" "") with (-1) in Hk.
    destruct (Z.eqb_spec p (-1)); [done|cbn in Hk; lia].
  - pose proof (EnclosingFacts.turns_decrease c p Hne).
    apply IH; [lia| |].
    + apply (startswith_trans _ c); [apply startswith_take|done].
    + intros Hr. apply find_take; [done|].
      by apply (rfind_from_none c 0 (-1) 0).
Qed.

End Scope.

(** X13.  The loop of [doxy_xml] that walks from a name out to its
    enclosing scopes ends, within [turns] turns, at a prefix of the
    name that has a file of its own, or else holds no [::]. *)
Theorem enclosing_scope (xmls : gmap string xml) (name : string) :
  let pos := Str.rfind "::" name in
  let class_ := enclosing xmls (turns name pos) name pos in
  Str.startswith class_ name = true /\
  (isfile xmls (doxy_filename xmls class_) = true \/
   Str.contains "::" class_ = false) /\
  forall fuel, (turns name pos <= fuel)%nat ->
    enclosing xmls fuel name pos = class_.
Proof.
  cbn zeta.
  destruct (enclosing_scope_go xmls name (turns name (Str.rfind "::" name))
              name (Str.rfind "::" name)) as [H1 H2];
    [lia|apply startswith_refl| |].
  - intros H. by apply (rfind_from_none name 0 (-1) 0).
  - split_and!; [done..|]. intros fuel Hf.
    by apply EnclosingFacts.enclosing_fuel.
Qed.

Lemma enclosing_scope_witness :
  enclosing some_xmls 100 "libsemigroups::Bar::size"
            (Str.rfind "::" "libsemigroups::Bar::size")
  = "libsemigroups::Bar".
Proof.
  rewrite (proj2 (proj2 (enclosing_scope some_xmls "libsemigroups::Bar::size")))
    by (vm_compute; lia).
  vm_compute. reflexivity.
Defined.

End DatabaseFacts.
(** ** The kind of a symbol *)

Module KindFacts.
Import Doxy DoxyFacts Kinds.

#[local] Instance stays_sound_preorder : PreOrder stays_sound.
Proof.
  split.
  - intros s H. exact H.
  - intros s1 s2 s3 H12 H23 H. apply H23, H12, H.
Qed.

Lemma sound_set_dict k v s :
  filed v -> stays_sound s (set_dict <[k := v]> s).
Proof. intros Hv Hs. by apply map_Forall_insert_2. Qed.

Lemma sound_set_item n p x :
  fn_like x = true -> keeps stays_sound (set_item n p x).
Proof.
  intros Hx s Hs. unfold set_item.
  destruct (DOXY_DICT s !! n) as [[|t a|d]|] eqn:E; try done; cbn;
    (apply map_Forall_insert_2; [|done]); cbn;
    (apply map_Forall_insert_2; [done|]); exact (Hs _ _ E).
Qed.

Lemma sound_index_member cl x : keeps stays_sound (index_member cl x).
Proof.
  unfold index_member, name_text. cbv zeta.
  destruct (match Xml.attr "prot" _ with Some _ => _ | None => _ end);
    [apply (keeps_ret stays_sound)|].
  apply (keeps_bind stays_sound); [apply (keeps_lift stays_sound)|].
  intros n. apply (keeps_bind stays_sound); [apply (keeps_get stays_sound)|].
  intros s0.
  destruct (match Xml.attr "kind" _ with Some _ => _ | None => _ end) eqn:K.
  - destruct (bool_decide _); [apply (keeps_raise stays_sound)|].
    apply keeps_modify. intros s. apply sound_set_dict. apply map_Forall_empty.
  - apply (keeps_bind stays_sound); [apply (keeps_lift stays_sound)|].
    intros param.
    apply (keeps_bind stays_sound); [apply (keeps_get stays_sound)|].
    intros s1. apply (keeps_bind stays_sound).
    + destruct (bool_decide _); [apply (keeps_ret stays_sound)|].
      apply keeps_modify. intros s. apply sound_set_dict.
      apply map_Forall_empty.
    + intros _. apply sound_set_item. unfold fn_like, attrs_of.
      by rewrite K.
Qed.

Lemma sound_index_namespace_member ns x :
  keeps stays_sound (index_namespace_member ns x).
Proof.
  unfold index_namespace_member, name_text.
  apply (keeps_bind stays_sound); [apply (keeps_lift stays_sound)|].
  intros n. apply (keeps_bind stays_sound); [apply (keeps_get stays_sound)|].
  intros s0. destruct (in_dict _ _); [apply (keeps_ret stays_sound)|].
  apply keeps_modify. intros s. apply sound_set_dict. apply map_Forall_empty.
Qed.

Section Sound.
Variable xmls : gmap string xml.

Lemma sound_parse e path : keeps stays_sound (parse xmls e path).
Proof. intros s H. unfold parse. by destruct (xmls !! path). Qed.

Lemma sound_scan_file fname : keeps stays_sound (scan_file xmls fname).
Proof.
  unfold scan_file. destruct (negb _); [apply (keeps_ret stays_sound)|].
  apply (keeps_bind stays_sound); [apply sound_parse|].
  intros doc.
  apply (keeps_bind stays_sound); [apply (keeps_lift stays_sound)|].
  intros ns. apply (keeps_for_each stays_sound).
  intros x. apply sound_index_namespace_member.
Qed.

Lemma sound_load_class cl : keeps stays_sound (load_class xmls cl).
Proof.
  unfold load_class.
  apply (keeps_bind stays_sound); [apply sound_parse|].
  intros doc. apply (keeps_bind stays_sound).
  - apply keeps_modify. intros s. apply sound_set_dict.
    destruct (Xml.find "compounddef" doc); [apply map_Forall_empty|done].
  - intros _. apply (keeps_for_each stays_sound).
    intros x. apply sound_index_member.
Qed.

Lemma sound_populate name : keeps stays_sound (populate xmls name).
Proof.
  unfold populate.
  apply (keeps_bind stays_sound); [apply (keeps_get stays_sound)|].
  intros s0. destruct (in_dict name s0); [apply (keeps_ret stays_sound)|].
  cbv zeta. destruct (_ && _); [apply sound_load_class|].
  destruct (negb _); [|apply (keeps_ret stays_sound)].
  apply (keeps_for_each stays_sound). intros x. apply sound_scan_file.
Qed.

Lemma lookup_under name p s r s' :
  dict_sound s -> lookup name (Some p) s = (Ret r, s') -> under r.
Proof.
  intros Hs. unfold lookup.
  destruct (DOXY_DICT s !! name) as [[|t a|d]|] eqn:E; try done.
  - pose proof (Hs _ _ E) as Hv. cbn in Hv.
    destruct (a !! p) as [x|] eqn:Ea.
    + intros [= <- _]. exact (Hv _ _ Ea).
    + destruct (Xml.attr p _); [|done]. by intros [= <- _].
  - pose proof (Hs _ _ E) as Hv. cbn in Hv.
    destruct (d !! p) as [x|] eqn:Ed; [|done].
    intros [= <- _]. exact (Hv _ _ Ed).
Qed.

Lemma doxy_xml_sound name params d :
  db_sound d ->
  db_sound (doxy_xml xmls name params d).2 /\
  forall p r, params = Some p ->
    (doxy_xml xmls name params d).1 = Ret r -> under r.
Proof.
  intros [Hd Hc]. unfold doxy_xml.
  destruct (xml_cache d !! (name, params)) as [r0|] eqn:E.
  { split; [done|]. intros p r -> [= <-]. exact (Hc _ _ _ E). }
  unfold doxy_xml_body, bind.
  pose proof (DatabaseFacts.populate_silent xmls name d) as (_ & Hx & _).
  pose proof (sound_populate name d Hd) as Hd1.
  destruct (populate xmls name d) as [[[]|e] s1]; cbn [snd] in *;
    [|split; [|done]; split; [done|by rewrite Hx]].
  pose proof (lookup_state name params s1) as Hl.
  destruct (lookup name params s1) as [[r|e] s2] eqn:L; cbn [snd] in Hl;
    subst s2; cbn [fst snd];
    [|split; [|done]; split; [done|by rewrite Hx]].
  assert (forall p, params = Some p -> under r) as Hr.
  { intros p ->. by eapply lookup_under. }
  split; [|intros p r' Hp [= <-]; by eapply Hr].
  split; [done|]. intros n p r'. cbn.
  destruct (decide ((name, params) = (n, Some p))) as [[= <- ->]|Hne].
  - rewrite lookup_insert_eq. intros [= <-]. by eapply Hr.
  - rewrite lookup_insert_ne by done. rewrite Hx. apply Hc.
Qed.

Lemma doxy_kind_sound f name params s :
  sound s ->
  sound (doxy_kind xmls f name params s).2 /\
  forall p k, params = Some p ->
    (doxy_kind xmls f name params s).1 = Returned k ->
    k = KindStr "function".
Proof.
  intros [Hd Hk]. unfold doxy_kind.
  destruct (kind_cache s !! (f, name, params)) as [k0|] eqn:E.
  { split; [done|]. intros p k -> [= <-]. exact (Hk _ _ _ _ E). }
  unfold doxy_kind_body.
  destruct (doxy_xml_sound name params (db s) Hd) as [Hd1 Hr].
  destruct (doxy_xml xmls name params (db s)) as [[r|e] d1];
    cbn [fst snd] in *; [|done].
  destruct (tag_kind r) as [k|] eqn:T; cbn [fst snd].
  - assert (forall p, params = Some p -> not_friend k = KindStr "function")
      as Hf.
    { intros p Hp. specialize (Hr p r Hp eq_refl).
      destruct r as [v|x|str]; try done. cbn in Hr, T.
      unfold fn_like in Hr.
      destruct (Xml.attr "kind" (attrs_of x)) as [kd|]; [|done].
      cbn in T. injection T as <-. cbn [not_friend].
      destruct (String.eqb kd "friend") eqn:F1; [done|].
      destruct (String.eqb kd "function") eqn:F2; [|done].
      apply String.eqb_eq in F2. by subst kd. }
    split; [|intros p k' Hp [= <-]; by eapply Hf].
    split; [done|]. intros f' n p k'. cbn.
    destruct (decide ((f, name, params) = (f', n, Some p)))
      as [[= <- <- ->]|Hne].
    + rewrite lookup_insert_eq. intros [= <-]. by eapply Hf.
    + rewrite lookup_insert_ne by done. apply Hk.
  - split; [|done]. split; [|done]. destruct Hd1 as [Hd1 Hc1].
    split; [done|]. exact Hc1.
Qed.

Lemma calls_sound l : forall s, sound s -> sound (calls xmls l s).
Proof.
  induction l as [|[n p|f n p|f n p] l IH]; intros s Hs; [done|..];
    cbn [calls]; apply IH.
  - destruct Hs as [Hd Hk]. split; [|done].
    by destruct (doxy_xml_sound n p (db s) Hd).
  - destruct Hs as [[Hd Hc] Hk]. split; [|done]. cbn. unfold doxy_warn.
    by destruct (decide _).
  - by destruct (doxy_kind_sound f n p s Hs).
Qed.

End Sound.

Lemma sound_kinitial : sound kinitial.
Proof.
  split; [split|]; [apply map_Forall_empty|by intros n p r|by intros f n p k].
Qed.

(** X14.  Under a parameter string, a symbol is a function: whatever
    calls went before, when [doxy_kind] returns for a name and a
    parameter string, it returns ["function"]. *)
Theorem doxy_kind_of_overload (xmls : gmap string xml) (before : list call)
    (ymlfname name params : string) (k : kind) (s' : kstate) :
  doxy_kind xmls ymlfname name (Some params) (calls xmls before kinitial)
  = (Returned k, s') ->
  k = KindStr "function".
Proof.
  intros Hrun.
  destruct (doxy_kind_sound xmls ymlfname name (Some params)
              (calls xmls before kinitial)) as [_ Hk].
  - apply calls_sound, sound_kinitial.
  - apply (Hk params k eq_refl). by rewrite Hrun.
Qed.

Lemma doxy_kind_of_overload_witness :
  exists s',
    doxy_kind some_xmls "bar.yml" "libsemigroups::Bar::size" (Some "() const")
      (calls some_xmls [CallXml "libsemigroups::foo" None] kinitial)
    = (Returned (KindStr "function"), s').
Proof.
  destruct (doxy_kind some_xmls "bar.yml" "libsemigroups::Bar::size"
              (Some "() const")
              (calls some_xmls [CallXml "libsemigroups::foo" None] kinitial))
    as [[k|e|msg] s'] eqn:E; [|by vm_compute in E..].
  exists s'.
  by rewrite (doxy_kind_of_overload some_xmls
                [CallXml "libsemigroups::foo" None] "bar.yml"
                "libsemigroups::Bar::size" "() const" k s' E).
Defined.

(** X15.  A kind that cannot be determined is warned about at every
    call: when [doxy_kind] raises its own exception, it has counted one
    warning, and the same call raises the same exception again and
    counts one more. *)
Theorem doxy_kind_fails_again (xmls : gmap string xml)
    (ymlfname name : string) (params : option string)
    (s s' : kstate) (msg : string) :
  doxy_kind xmls ymlfname name params s = (Failed msg, s') ->
  msg = could_not name /\
  WARNINGS (db s') = WARNINGS (db s) + 1 /\
  exists s'',
    doxy_kind xmls ymlfname name params s' = (Failed msg, s'') /\
    WARNINGS (db s'') = WARNINGS (db s) + 2.
Proof.
  unfold doxy_kind.
  destruct (kind_cache s !! (ymlfname, name, params)) as [k0|] eqn:E;
    [done|].
  unfold doxy_kind_body.
  destruct (DatabaseFacts.doxy_xml_silent xmls name params (db s))
    as (_ & _ & _ & Hn).
  assert (forall r d, doxy_xml xmls name params (db s) = (Ret r, d) ->
            xml_cache d !! (name, params) = Some r) as Hc.
  { intros r d Hrun. unfold doxy_xml in Hrun.
    destruct (xml_cache (db s) !! (name, params)) as [r0|] eqn:Ex.
    - by injection Hrun as -> <-.
    - destruct (doxy_xml_body xmls name params (db s)) as [[r0|e] s0];
        [|done].
      injection Hrun as -> <-. cbn. apply lookup_insert_eq. }
  destruct (doxy_xml xmls name params (db s)) as [[r|e] d] eqn:X;
    cbn [snd] in Hn; [|done].
  specialize (Hc r d eq_refl).
  destruct (tag_kind r) as [k|] eqn:T; [done|].
  intros [= <- <-]. cbn [db kind_cache]. rewrite E.
  split; [done|]. split; [cbn; lia|].
  unfold doxy_xml. cbn [xml_cache warned]. rewrite Hc, T.
  eexists. split; [done|]. cbn. lia.
Qed.

Lemma doxy_kind_fails_again_witness :
  exists s' s'',
    doxy_kind some_xmls "bar.yml" "libsemigroups::Bar::size" None kinitial
    = (Failed (could_not "libsemigroups::Bar::size"), s') /\
    doxy_kind some_xmls "bar.yml" "libsemigroups::Bar::size" None s'
    = (Failed (could_not "libsemigroups::Bar::size"), s'') /\
    WARNINGS (db s'') = 2.
Proof.
  destruct (doxy_kind some_xmls "bar.yml" "libsemigroups::Bar::size" None
              kinitial) as [[k|e|msg] s'] eqn:E;
    [by vm_compute in E..|].
  destruct (doxy_kind_fails_again some_xmls "bar.yml"
              "libsemigroups::Bar::size" None kinitial s' msg E)
    as (-> & _ & s'' & H2 & Hw).
  exists s', s''. split; [done|]. split; [done|]. exact Hw.
Defined.

End KindFacts.
(** ** Section titles *)

Module SectionFacts.

Lemma length_append (a b : string) :
  String.length (a +:+ b) = (String.length a + String.length b)%nat.
Proof.
  induction a as [|c a IH]; [done|].
  change (String c a +:+ b) with (String c (a +:+ b)).
  cbn [String.length]. by rewrite IH.
Qed.

Lemma times_length sym n :
  String.length (times sym n) = (n * String.length sym)%nat.
Proof.
  induction n as [|n IH]; [done|].
  cbn [times]. rewrite length_append, IH. lia.
Qed.

(** X16.  The underline of a section title: [rst_section] gives an
    empty line, the name, and a line of [len(name)] copies of the
    symbol, which is at least as long as the name unless the symbol is
    empty. *)
Theorem rst_section_underline (name sym : string) :
  exists u,
    rst_section name sym
    = String "010" name +:+ String "010" u +:+ String "010" "" /\
    String.length u = (String.length name * String.length sym)%nat /\
    (sym <> EmptyString -> (String.length name <= String.length u)%nat).
Proof.
  exists (times sym (String.length name)). split; [|split].
  - reflexivity.
  - apply times_length.
  - intros Hs. rewrite times_length. destruct sym as [|c sym]; [done|].
    cbn [String.length]. nia.
Qed.

End SectionFacts.
